(** * Link tracker: a shallow embedding of the tracking, geolocation and
      analytics code, and the properties its specification states.

    What is embedded, and where it is in the sources:
    - the store functions [createLink], [getLinkByCode], [updateLink],
      [recordClick], [getLinkAnalytics], ... (imported as [@/lib/database];
      they follow the interfaces in [src/lib/types.ts]);
    - [src/lib/geolocation.ts]: address classification, call budget, resolver;
    - [src/lib/analytics.ts]: the aggregations over a click list;
    - the handlers of [GET /api/track/[code]] and [GET /api/analytics/[id]];
    - the schema [CREATE TABLE links / clicks]: column defaults, the UNIQUE
      constraint on [short_code], the foreign key of [clicks.link_id].

    JavaScript numbers are IEEE 754 binary64 values: they are modelled by the
    kernel's primitive floats, so every concrete evaluation below is the value
    the program computes.  Counters and epoch milliseconds, which the program
    only ever keeps integral, are [nat] and [Z]. *)

From Stdlib Require Import ZArith List Bool Ascii String Lia Floats Uint63.
From Stdlib Require Import Sorted Permutation DecimalString FinFun.
Import ListNotations.

Set Warnings "-inexact-float".

Local Open Scope string_scope.
Local Open Scope Z_scope.

(* ================================================================== *)
(** * Part I. The JavaScript runtime the sources rely on                *)
(* ================================================================== *)

Module JS.

(** ** Numbers *)

Definition Number_of_Z (z : Z) : float :=
  if z <? 0 then PrimFloat.opp (PrimFloat.of_uint63 (Uint63.of_Z (- z)))
  else PrimFloat.of_uint63 (Uint63.of_Z z).

Definition Number_of_nat (n : nat) : float := Number_of_Z (Z.of_nat n).

(** The integer [round k] selects out of the exact value [(-1)^s * m * 2^e]
    with [e < 0]; such a value is below [2^53] in magnitude, so the integer
    converts back exactly. *)
Definition integral_part (round : Z -> Z -> Z) (x : float) : float :=
  match Prim2SF x with
  | S754_finite s m e =>
      if 0 <=? e then x
      else
        let num := if s then Z.neg m else Z.pos m in
        let n := round num (2 ^ (- e)) in
        if n =? 0 then (if s then neg_zero else zero) else Number_of_Z n
  | _ => x
  end.

(** [Math.floor], [Math.ceil]: largest integer below, least integer above. *)
Definition Math_floor : float -> float := integral_part (fun num den => num / den).
Definition Math_ceil : float -> float := integral_part (fun num den => - ((- num) / den)).

(** [Math.round]: the nearest integer, a tie going towards +infinity. *)
Definition Math_round : float -> float :=
  integral_part (fun num den => (2 * num + den) / (2 * den)).

(** [Math.max(a, b)]: NaN if either is NaN, else the larger one. *)
Definition Math_max (a b : float) : float :=
  if is_nan a || is_nan b then nan
  else if PrimFloat.ltb a b then b
  else if PrimFloat.ltb b a then a
  else if get_sign a then b else a.

(** The integer a number is turned into where an index is expected: its
    integral part, 0 for [NaN]; [None] for the infinities. *)
Definition to_integer (x : float) : option Z :=
  match Prim2SF x with
  | S754_nan | S754_zero _ => Some 0
  | S754_infinity _ => None
  | S754_finite s m e =>
      let magnitude := if 0 <=? e then Z.pos m * 2 ^ e else Z.pos m / 2 ^ (- e) in
      Some (if s then - magnitude else magnitude)
  end.

(** Truthiness of a number: everything but [0], [-0] and [NaN]. *)
Definition truthy_number (x : float) : bool :=
  negb (PrimFloat.eqb x 0) && negb (is_nan x).

(** ** Strings

    A string is its sequence of code units, and the model has the code
    units below 256: a byte stands for the code unit of the same number
    (as in the text of a header).  Text with other characters is outside
    the model. *)

Fixpoint startsWith (p s : string) : bool :=
  match p, s with
  | EmptyString, _ => true
  | String a p', String b s' => Ascii.eqb a b && startsWith p' s'
  | String _ _, EmptyString => false
  end.

Fixpoint includes (s needle : string) : bool :=
  startsWith needle s ||
  match s with
  | EmptyString => false
  | String _ s' => includes s' needle
  end.

Fixpoint drop (n : nat) (s : string) : string :=
  match n, s with
  | O, _ => s
  | S n', String _ s' => drop n' s'
  | S _, EmptyString => EmptyString
  end.

(** [s.charAt(pos)]: the empty string when [pos] is out of range. *)
Definition charAt (s : string) (pos : float) : string :=
  match to_integer pos with
  | Some i =>
      if i <? 0 then EmptyString
      else match String.get (Z.to_nat i) s with
           | Some a => String a EmptyString
           | None => EmptyString
           end
  | None => EmptyString
  end.

(** [s.substring(0, n)] *)
Definition substring0 (n : nat) (s : string) : string :=
  String.substring 0 (Nat.min n (String.length s)) s.

(** [s.replace(/^p/, '')] for a literal prefix [p]. *)
Definition strip_prefix (p s : string) : string :=
  if startsWith p s then drop (String.length p) s else s.

(** [s.split(c)] for a one-character separator: never the empty array. *)
Fixpoint split (c : ascii) (s : string) : list string :=
  match s with
  | EmptyString => [EmptyString]
  | String a s' =>
      if Ascii.eqb a c then EmptyString :: split c s'
      else match split c s' with
           | w :: ws => String a w :: ws
           | [] => [String a EmptyString]
           end
  end.

(** White space and line terminators, as [trim] and [parseInt] strip them:
    of the code units below 256 these are 9 to 13, 32 and 160 (the no-break
    space). *)
Definition is_space (a : ascii) : bool :=
  let n := nat_of_ascii a in
  (Nat.eqb n 32 || (Nat.leb 9 n && Nat.leb n 13) || Nat.eqb n 160)%bool.

Fixpoint trimStart (s : string) : string :=
  match s with
  | String a s' => if is_space a then trimStart s' else s
  | EmptyString => s
  end.

Fixpoint rev_string_acc (s acc : string) : string :=
  match s with
  | EmptyString => acc
  | String a s' => rev_string_acc s' (String a acc)
  end.

Definition trimEnd (s : string) : string :=
  rev_string_acc (trimStart (rev_string_acc s EmptyString)) EmptyString.

Definition trim (s : string) : string := trimEnd (trimStart s).

(** The lower-case form of a code unit below 256: A-Z, and the capital
    letters 192-222 of the upper half but for the multiplication sign 215,
    move up by 32. *)
Definition lower_ascii (a : ascii) : ascii :=
  let n := nat_of_ascii a in
  if ((Nat.leb 65 n && Nat.leb n 90)
      || (Nat.leb 192 n && Nat.leb n 222 && negb (Nat.eqb n 215)))%bool
  then ascii_of_nat (n + 32) else a.

Fixpoint toLowerCase (s : string) : string :=
  match s with
  | EmptyString => EmptyString
  | String a s' => String (lower_ascii a) (toLowerCase s')
  end.

(** Value of a digit in the given radix, if it is one. *)
Definition digit_value (radix : Z) (a : ascii) : option Z :=
  let n := Z.of_nat (nat_of_ascii a) in
  let v := if (48 <=? n) && (n <=? 57) then Some (n - 48)
           else if (97 <=? n) && (n <=? 122) then Some (n - 87)
           else if (65 <=? n) && (n <=? 90) then Some (n - 55)
           else None in
  match v with
  | Some d => if d <? radix then Some d else None
  | None => None
  end.

(** The longest prefix of digits, read left to right; [None] when it is empty. *)
Fixpoint digits_prefix (radix : Z) (acc : option Z) (s : string) : option Z :=
  match s with
  | EmptyString => acc
  | String a s' =>
      match digit_value radix a with
      | Some d =>
          digits_prefix radix
            (Some (match acc with Some v => v * radix + d | None => d end)) s'
      | None => acc
      end
  end.

(** [parseInt(s)] with no radix argument; [None] stands for [NaN]. *)
Definition parseInt (s : string) : option Z :=
  let s1 := trimStart s in
  let '(neg, s2) :=
    match s1 with
    | String "-"%char r => (true, r)
    | String "+"%char r => (false, r)
    | _ => (false, s1)
    end in
  let '(radix, s3) :=
    if startsWith "0x" s2 || startsWith "0X" s2 then (16, drop 2 s2) else (10, s2) in
  match digits_prefix radix None s3 with
  | Some v => Some (if neg then - v else v)
  | None => None
  end.

(** ** Arrays *)

(** [a.slice(0, limit)] for an integral [limit]: a negative one counts from
    the end. *)
Definition slice0 {A} (a : list A) (limit : Z) : list A :=
  let len := Z.of_nat (List.length a) in
  let final := if limit <? 0 then Z.max (len + limit) 0 else Z.min limit len in
  firstn (Z.to_nat final) a.

(** [a.sort((x, y) => key(y) - key(x))].  The language requires the sort to
    be stable, and the comparator is a consistent one, so the result is the
    unique stable arrangement by descending key; insertion from the right,
    stopping at the first element that is not strictly larger, computes it. *)
Section SortDesc.
Context {A : Type} (key : A -> Z).

Fixpoint insert_desc (x : A) (l : list A) : list A :=
  match l with
  | [] => [x]
  | y :: l' => if key x <? key y then y :: insert_desc x l' else x :: l
  end.

Definition sort_desc (l : list A) : list A := fold_right insert_desc [] l.
End SortDesc.

(** [a.reduce((max, cur) => key(cur) > key(max) ? cur : max)] on a non-empty
    array whose first element is [x0]. *)
Definition reduce_max {A} (key : A -> nat) (x0 : A) (rest : list A) : A :=
  fold_left (fun mx cur => if Nat.ltb (key mx) (key cur) then cur else mx) rest x0.

(** ** [Map]: keys in insertion order; [set] on a present key keeps its place *)

Class KeyEq (K : Type) := {
  keqb : K -> K -> bool;
  keqb_spec : forall a b, keqb a b = true <-> a = b
}.

Section MapOps.
Context {K V : Type} `{KeyEq K}.

Fixpoint Map_get (m : list (K * V)) (k : K) : option V :=
  match m with
  | [] => None
  | (k', v) :: m' => if keqb k' k then Some v else Map_get m' k
  end.

Fixpoint Map_set (m : list (K * V)) (k : K) (v : V) : list (K * V) :=
  match m with
  | [] => [(k, v)]
  | (k', v') :: m' => if keqb k' k then (k', v) :: m' else (k', v') :: Map_set m' k v
  end.
End MapOps.

(** [m.set(k, (m.get(k) || 0) + 1)] *)
Definition Map_bump {K} `{KeyEq K} (m : list (K * nat)) (k : K) : list (K * nat) :=
  Map_set m k (match Map_get m k with Some n => n | None => 0%nat end + 1)%nat.

(** The elements of [new Set(xs)], in insertion order. *)
Fixpoint distinct {K} `{KeyEq K} (xs : list K) : list K :=
  match xs with
  | [] => []
  | x :: xs' => x :: filter (fun y => negb (keqb x y)) (distinct xs')
  end.

End JS.

Import JS.

#[export] Instance KeyEq_string : KeyEq string :=
  {| keqb := String.eqb; keqb_spec := String.eqb_eq |}.

#[export] Instance KeyEq_Z : KeyEq Z :=
  {| keqb := Z.eqb; keqb_spec := Z.eqb_eq |}.

Definition coords_eqb (a b : float * float) : bool :=
  PrimFloat.Leibniz.eqb (fst a) (fst b) && PrimFloat.Leibniz.eqb (snd a) (snd b).

Lemma coords_eqb_spec (a b : float * float) : coords_eqb a b = true <-> a = b.
Proof.
  destruct a as [a1 a2], b as [b1 b2]; unfold coords_eqb; cbn [fst snd].
  rewrite andb_true_iff, !FloatAxioms.Leibniz.eqb_spec.
  split; [intros [-> ->]; reflexivity | intros E; inversion E; auto].
Qed.

#[export] Instance KeyEq_coords : KeyEq (float * float) :=
  {| keqb := coords_eqb; keqb_spec := coords_eqb_spec |}.


(* ================================================================== *)
(** * Part II. Data model ([src/lib/types.ts], the schema)              *)
(* ================================================================== *)

(** Timestamps are kept as the epoch milliseconds [new Date(s).getTime()]
    reads out of the stored text; SQL [NULL] and an absent property are
    [None]. *)

Module TrackingLink.
Record t := mk {
  id : Z;
  short_code : string;
  original_url : string;
  title : option string;
  description : option string;
  created_at : Z;
  updated_at : Z;
  clicks : Z;
  active : bool
}.
End TrackingLink.

Module ClickEvent.
Record t := mk {
  id : Z;
  link_id : Z;
  ip_address : string;
  user_agent : option string;
  referer : option string;
  country : option string;
  country_code : option string;
  region : option string;
  city : option string;
  latitude : option float;
  longitude : option float;
  timezone : option string;
  isp : option string;
  timestamp : Z
}.
End ClickEvent.

Module GeolocationData.
Record t := mk {
  country : option string;
  countryCode : option string;
  region : option string;
  city : option string;
  lat : option float;
  lon : option float;
  timezone : option string;
  isp : option string;
  org : option string;
  query : option string;
  status : option string
}.
End GeolocationData.

Module CreateLinkRequest.
Record t := mk {
  original_url : string;
  title : option string;
  description : option string;
  custom_code : option string
}.
End CreateLinkRequest.

Module UpdateLinkRequest.
Record t := mk {
  title : option string;
  description : option string;
  active : option bool
}.
End UpdateLinkRequest.

(** What a call does: it returns, it throws an [Error] with a message, or (a
    loop fed by a random source) it needs more draws than it was given. *)
Inductive Completion (A : Type) : Type :=
| Return (a : A)
| Throw (message : string)
| OutOfDraws.
Arguments Return {A} a.
Arguments Throw {A} message.
Arguments OutOfDraws {A}.

(** [x || null] on an optional string: the empty string is falsy. *)
Definition or_null (x : option string) : option string :=
  match x with
  | Some "" => None
  | _ => x
  end.

(** [x || null] on an optional number. *)
Definition or_null_number (x : option float) : option float :=
  match x with
  | Some v => if truthy_number v then x else None
  | None => None
  end.

(* ================================================================== *)
(** * Part III. The store ([@/lib/database])                             *)
(* ================================================================== *)

Module Db.

(** The two tables in row order, and the AUTOINCREMENT sequences. *)
Record Database := mkDatabase {
  links : list TrackingLink.t;
  clicks : list ClickEvent.t;
  links_seq : Z;
  clicks_seq : Z
}.

Definition empty : Database := mkDatabase [] [] 0 0.

(** [SELECT * FROM links WHERE short_code = ? AND active = 1] *)
Definition getLinkByCode (db : Database) (shortCode : string) : option TrackingLink.t :=
  find (fun l => String.eqb (TrackingLink.short_code l) shortCode && TrackingLink.active l)
       (links db).

(** [SELECT * FROM links WHERE id = ?] *)
Definition getLinkById (db : Database) (id : Z) : option TrackingLink.t :=
  find (fun l => TrackingLink.id l =? id) (links db).

Definition chars : string :=
  "ABCDEFGHIJKLMNOPQRSTUVWXYZabcdefghijklmnopqrstuvwxyz0123456789".

(** [generateShortCode(length)]; [randoms] are the values the successive
    calls of [Math.random()] return, and the unused ones are handed back.
    [None]: the list ran out. *)
Fixpoint generateShortCode (length : nat) (randoms : list float)
    : option (string * list float) :=
  match length with
  | O => Some (EmptyString, randoms)
  | S length' =>
      match randoms with
      | [] => None
      | r :: randoms' =>
          let c := charAt chars (Math_floor (r * Number_of_nat (String.length chars))) in
          match generateShortCode length' randoms' with
          | Some (result, rest) => Some (c ++ result, rest)
          | None => None
          end
      end
  end.

(** The [do ... while (getLinkByCode(shortCode))] loop of [createLink], for
    at most [turns] turns. *)
Fixpoint generate_until_free (db : Database) (turns : nat) (randoms : list float)
    : option string :=
  match turns with
  | O => None
  | S turns' =>
      match generateShortCode 8 randoms with
      | None => None
      | Some (shortCode, rest) =>
          match getLinkByCode db shortCode with
          | Some _ => generate_until_free db turns' rest
          | None => Some shortCode
          end
      end
  end.

Definition UNIQUE_short_code : string := "UNIQUE constraint failed: links.short_code".
Definition FOREIGN_KEY_failed : string := "FOREIGN KEY constraint failed".

(** [INSERT INTO links (short_code, original_url, title, description,
    created_at, updated_at)]: [short_code] is declared [UNIQUE], [clicks]
    defaults to 0 and [active] to 1. *)
Definition insert_link (db : Database) (shortCode url : string)
    (title description : option string) (now : Z) : Completion (TrackingLink.t * Database) :=
  if existsb (fun l => String.eqb (TrackingLink.short_code l) shortCode) (links db)
  then Throw UNIQUE_short_code
  else
    let rowid := links_seq db + 1 in
    let row := TrackingLink.mk rowid shortCode url title description now now 0 true in
    Return (row, mkDatabase (links db ++ [row]) (clicks db) rowid (clicks_seq db)).

(** [createLink(data)] at time [now].  A turn of the generating loop uses
    up eight random values, so as many turns as there are values is all the
    loop can make before [OutOfDraws]. *)
Definition createLink (db : Database) (data : CreateLinkRequest.t) (now : Z)
    (randoms : list float) : Completion (TrackingLink.t * Database) :=
  let chosen :=
    match CreateLinkRequest.custom_code data with
    | Some (String _ _ as c) =>
        (* Check if custom code already exists *)
        match getLinkByCode db c with
        | Some _ => Throw "Custom short code already exists"
        | None => Return c
        end
    | Some EmptyString | None =>
        (* Generate unique short code if not provided *)
        match generate_until_free db (List.length randoms) randoms with
        | Some c => Return c
        | None => OutOfDraws
        end
    end in
  match chosen with
  | Return shortCode =>
      insert_link db shortCode (CreateLinkRequest.original_url data)
        (or_null (CreateLinkRequest.title data))
        (or_null (CreateLinkRequest.description data)) now
  | Throw m => Throw m
  | OutOfDraws => OutOfDraws
  end.

(** The catch block of [POST /api/links]: the status code an [Error] thrown
    by [createLink] is answered with. *)
Definition createLink_error_status (message : string) : Z :=
  if includes message "already exists" then 409 else 500.

(** [UPDATE links SET ... , updated_at = datetime('now') WHERE id = ?] with
    the assignments [updateLink] collects. *)
Definition apply_update (data : UpdateLinkRequest.t) (now : Z) (l : TrackingLink.t)
    : TrackingLink.t :=
  TrackingLink.mk
    (TrackingLink.id l)
    (TrackingLink.short_code l)
    (TrackingLink.original_url l)
    (match UpdateLinkRequest.title data with
     | Some v => Some v
     | None => TrackingLink.title l
     end)
    (match UpdateLinkRequest.description data with
     | Some v => Some v
     | None => TrackingLink.description l
     end)
    (TrackingLink.created_at l)
    now
    (TrackingLink.clicks l)
    (match UpdateLinkRequest.active data with
     | Some b => b
     | None => TrackingLink.active l
     end).

Definition no_updates (data : UpdateLinkRequest.t) : bool :=
  match UpdateLinkRequest.title data, UpdateLinkRequest.description data,
        UpdateLinkRequest.active data with
  | None, None, None => true
  | _, _, _ => false
  end.

Definition updateLink (db : Database) (id : Z) (data : UpdateLinkRequest.t) (now : Z)
    : option TrackingLink.t * Database :=
  if no_updates data then (getLinkById db id, db)
  else
    let db' :=
      mkDatabase
        (map (fun l => if TrackingLink.id l =? id then apply_update data now l else l)
             (links db))
        (clicks db) (links_seq db) (clicks_seq db) in
    (getLinkById db' id, db').

(** [DELETE FROM links WHERE id = ?]; the clicks of the link go with it
    ([ON DELETE CASCADE]). *)
Definition deleteLink (db : Database) (id : Z) : bool * Database :=
  let changes := existsb (fun l => TrackingLink.id l =? id) (links db) in
  (changes,
   mkDatabase
     (filter (fun l => negb (TrackingLink.id l =? id)) (links db))
     (filter (fun c => negb (ClickEvent.link_id c =? id)) (clicks db))
     (links_seq db) (clicks_seq db)).

(** The argument of [recordClick]: a click without [id], [link_id] and
    [timestamp]. *)
Record ClickData := mkClickData {
  ip_address : string;
  user_agent : option string;
  referer : option string;
  country : option string;
  country_code : option string;
  region : option string;
  city : option string;
  latitude : option float;
  longitude : option float;
  timezone : option string;
  isp : option string
}.

(** [INSERT INTO clicks (...)] then [UPDATE links SET clicks = clicks + 1
    WHERE id = ?].  [link_id] references [links (id)], and the driver
    enforces foreign keys: a click for a link that is not there is refused
    by the insert. *)
Definition recordClick (db : Database) (linkId : Z) (clickData : ClickData) (now : Z)
    : Completion (ClickEvent.t * Database) :=
  if negb (existsb (fun l => TrackingLink.id l =? linkId) (links db))
  then Throw FOREIGN_KEY_failed
  else
    let rowid := clicks_seq db + 1 in
    let row :=
      ClickEvent.mk rowid linkId (ip_address clickData)
        (or_null (user_agent clickData)) (or_null (referer clickData))
        (or_null (country clickData)) (or_null (country_code clickData))
        (or_null (region clickData)) (or_null (city clickData))
        (or_null_number (latitude clickData)) (or_null_number (longitude clickData))
        (or_null (timezone clickData)) (or_null (isp clickData)) now in
    let bump l :=
      if TrackingLink.id l =? linkId then
        TrackingLink.mk (TrackingLink.id l) (TrackingLink.short_code l)
          (TrackingLink.original_url l) (TrackingLink.title l)
          (TrackingLink.description l) (TrackingLink.created_at l)
          (TrackingLink.updated_at l) (TrackingLink.clicks l + 1) (TrackingLink.active l)
      else l in
    Return (row, mkDatabase (map bump (links db)) (clicks db ++ [row])
                   (links_seq db) rowid).

(** [SELECT * FROM clicks WHERE link_id = ? ORDER BY timestamp DESC LIMIT 20]:
    rows of equal timestamp are taken in table order. *)
Definition recentClicks (db : Database) (linkId : Z) : list ClickEvent.t :=
  firstn 20
    (sort_desc ClickEvent.timestamp
       (filter (fun c => ClickEvent.link_id c =? linkId) (clicks db))).

(** The part of [LinkAnalytics] the analytics handler computes with; the
    remaining fields are SQL aggregates it passes through untouched. *)
Record LinkAnalytics := mkLinkAnalytics {
  link : TrackingLink.t;
  totalClicks : nat;
  uniqueClicks : nat;
  la_recentClicks : list ClickEvent.t
}.

Definition getLinkAnalytics (db : Database) (linkId : Z) : option LinkAnalytics :=
  match getLinkById db linkId with
  | None => None
  | Some l =>
      let mine := filter (fun c => ClickEvent.link_id c =? linkId) (clicks db) in
      Some (mkLinkAnalytics l
              (List.length mine)
              (List.length (distinct (map ClickEvent.ip_address mine)))
              (recentClicks db linkId))
  end.

End Db.

(* ================================================================== *)
(** * Part IV. Geolocation ([src/lib/geolocation.ts])                   *)
(* ================================================================== *)

Module Geo.

(** ** Address classification *)

Definition isPrivateIP (ip : string) : bool :=
  let cleanIP := strip_prefix "::ffff:" ip in
  if String.eqb cleanIP "127.0.0.1" || String.eqb cleanIP "::1"
     || String.eqb cleanIP "localhost"
  then true
  else
    match split "." cleanIP with
    | [p0; p1; _; _] =>
        let first := parseInt p0 in
        let second := parseInt p1 in
        let equals v n := match v with Some x => x =? n | None => false end in
        let between v lo hi :=
          match v with Some x => (lo <=? x) && (x <=? hi) | None => false end in
        if equals first 10 then true
        else if equals first 172 && between second 16 31 then true
        else if equals first 192 && equals second 168 then true
        else if equals first 169 && equals second 254 then true
        else false
    | _ => false
    end.

Definition sentinel (status : string) : GeolocationData.t :=
  GeolocationData.mk (Some "Unknown") (Some "XX") (Some "Unknown") (Some "Unknown")
    (Some 0%float) (Some 0%float) (Some "Unknown") (Some "Unknown") None None
    (Some status).

(** The literal [getLocationFromIP] returns for a private address. *)
Definition privateLocation : GeolocationData.t := sentinel "private_ip".

Definition getFallbackLocation : GeolocationData.t := sentinel "unknown".

(** ** The two providers, as the resolver sees them *)

(** The JSON body of ip-api.com. *)
Record IpApiJson := mkIpApiJson {
  j_status : option string;
  j_message : option string;
  j_country : option string;
  j_countryCode : option string;
  j_regionName : option string;
  j_city : option string;
  j_lat : option float;
  j_lon : option float;
  j_timezone : option string;
  j_isp : option string;
  j_org : option string;
  j_query : option string
}.

(** The JSON body of ipapi.co. *)
Record IpapiCoJson := mkIpapiCoJson {
  k_error : bool;
  k_country_name : option string;
  k_country_code : option string;
  k_region : option string;
  k_city : option string;
  k_latitude : option float;
  k_longitude : option float;
  k_timezone : option string;
  k_org : option string
}.

(** What [await fetch(...)] followed by [response.json()] comes to: the
    request fails or times out, or a response arrives with its [ok] flag and
    a body that parses or not. *)
Inductive Fetched (J : Type) : Type :=
| FetchFailed
| Response (ok : bool) (json : option J).
Arguments FetchFailed {J}.
Arguments Response {J} ok json.

Record Network := mkNetwork {
  ip_api_com : string -> Fetched IpApiJson;
  ipapi_co : string -> Fetched IpapiCoJson
}.

Inductive Provider : Type := Primary | Secondary.

(** ** Process state: the call budget, the clock, the requests sent *)

Record GeolocationRateLimit := mkRateLimit {
  calls : Z;
  resetTime : Z
}.

Definition maxCalls : Z := 900.

Record World := mkWorld {
  rateLimiter : GeolocationRateLimit;
  Date_now : Z;
  sent : list (Provider * string)
}.

Definition IO (A : Type) : Type := World -> A * World.

Definition ret {A} (a : A) : IO A := fun w => (a, w).

Definition bind {A B} (m : IO A) (k : A -> IO B) : IO B :=
  fun w => let (a, w') := m w in k a w'.

Notation "x <- m ;; k" := (bind m (fun x => k))
  (at level 61, m at next level, right associativity).
Notation "m ;;; k" := (bind m (fun _ => k))
  (at level 61, right associativity).

Definition canMakeCall : IO bool :=
  fun w =>
    let now := Date_now w in
    let rl := rateLimiter w in
    let rl' := if resetTime rl <? now then mkRateLimit 0 (now + 60 * 60 * 1000) else rl in
    (calls rl' <? maxCalls, mkWorld rl' (Date_now w) (sent w)).

Definition recordCall : IO unit :=
  fun w =>
    let rl := rateLimiter w in
    (tt, mkWorld (mkRateLimit (calls rl + 1) (resetTime rl)) (Date_now w) (sent w)).

Definition fetch {J} (p : Provider) (service : string -> Fetched J) (ip : string)
    : IO (Fetched J) :=
  fun w => (service ip, mkWorld (rateLimiter w) (Date_now w) (sent w ++ [(p, ip)])).

(** ** The resolvers *)

Definition getLocationFromIP (net : Network) (ipAddress : string) : IO GeolocationData.t :=
  if isPrivateIP ipAddress then ret privateLocation
  else
    r <- fetch Primary (ip_api_com net) ipAddress ;;
    match r with
    | Response true (Some data) =>
        if match j_status data with Some s => String.eqb s "fail" | None => false end
        then ret getFallbackLocation
        else ret (GeolocationData.mk (j_country data) (j_countryCode data)
                    (j_regionName data) (j_city data) (j_lat data) (j_lon data)
                    (j_timezone data) (j_isp data) (j_org data) (j_query data)
                    (j_status data))
    | _ => ret getFallbackLocation
    end.

Definition getLocationFromIPFallback (net : Network) (ipAddress : string)
    : IO GeolocationData.t :=
  if isPrivateIP ipAddress then ret getFallbackLocation
  else
    r <- fetch Secondary (ipapi_co net) ipAddress ;;
    match r with
    | Response true (Some data) =>
        if k_error data then ret getFallbackLocation
        else ret (GeolocationData.mk (k_country_name data) (k_country_code data)
                    (k_region data) (k_city data) (k_latitude data) (k_longitude data)
                    (k_timezone data) (k_org data) None None (Some "success"))
    | _ => ret getFallbackLocation
    end.

Definition getLocationWithFallback (net : Network) (ipAddress : string)
    : IO GeolocationData.t :=
  ok <- canMakeCall ;;
  if negb ok then ret getFallbackLocation
  else
    recordCall ;;;
    location <- getLocationFromIP net ipAddress ;;
    if match GeolocationData.status location with
       | Some s => String.eqb s "unknown"
       | None => false
       end
    then getLocationFromIPFallback net ipAddress
    else ret location.

(** ** Coordinates *)

(** What reaches a parameter declared [x?: number]: nothing
    ([undefined], also for an absent property), the [null] a stored row
    holds for SQL [NULL], or a number. *)
Inductive Coordinate : Type :=
| Undefined
| Null
| Num (x : float).

(** [x] in a comparison with a number: [null] counts as [0], [undefined]
    as [NaN]. *)
Definition ToNumber (x : Coordinate) : float :=
  match x with
  | Undefined => nan
  | Null => 0
  | Num v => v
  end.

(** [x !== 0]: only a number is strictly equal to 0. *)
Definition not_strictly_zero (x : Coordinate) : bool :=
  match x with
  | Num v => negb (PrimFloat.eqb v 0)
  | _ => true
  end.

Definition not_undefined (x : Coordinate) : bool :=
  match x with
  | Undefined => false
  | _ => true
  end.

Definition isValidCoordinates (lat lon : Coordinate) : bool :=
  not_undefined lat && not_undefined lon
  && PrimFloat.leb (-90) (ToNumber lat) && PrimFloat.leb (ToNumber lat) 90
  && PrimFloat.leb (-180) (ToNumber lon) && PrimFloat.leb (ToNumber lon) 180
  && not_strictly_zero lat && not_strictly_zero lon.

(** ** Client address *)

(** [headers.get(name)]; header names are kept in lower case. *)
Definition header (headers : list (string * string)) (name : string) : option string :=
  Map_get headers name.

Definition getClientIP (headers : list (string * string)) : string :=
  match header headers "x-forwarded-for" with
  | Some (String _ _ as xForwardedFor) =>
      match split "," xForwardedFor with
      | first :: _ => trim first
      | [] => ""
      end
  | _ =>
  match header headers "x-real-ip" with
  | Some (String _ _ as xRealIP) => xRealIP
  | _ =>
  match header headers "cf-connecting-ip" with
  | Some (String _ _ as cfConnectingIP) => cfConnectingIP
  | _ =>
  match header headers "x-client-ip" with
  | Some (String _ _ as xClientIP) => xClientIP
  | _ => "127.0.0.1"
  end end end end.

End Geo.

(* ================================================================== *)
(** * Part V. The tracking handler ([GET /api/track/[code]])             *)
(* ================================================================== *)

Module Track.
Import Geo.

Inductive HttpResponse : Type :=
| Json (status : Z) (error : string)
| Redirect (status : Z) (location : string).

(** [String(new URL(url))], which [NextResponse.redirect] puts into the
    [Location] header: the serialised URL, and [None] when [new URL] throws
    (the text is no absolute URL). *)
Class Redirects := {
  URL_href : string -> option string
}.

(** [datetime('now')], which [recordClick] stamps the row with: the text
    has whole seconds, so what reads back is the clock's last whole second.
    (The clock is not moved on while a request is handled.) *)
Definition now : IO Z := fun w => (Date_now w / 1000 * 1000, w).

(** [GET /api/track/[code]].  The handler starts the location lookup, whose
    continuation records the click, and answers without waiting for it; the
    result pairs the answer with the store as it is once that detached
    continuation has run.  An error of [recordClick] is logged there and
    goes no further.  A destination [NextResponse.redirect] does not take
    lands in the handler's [catch]; the lookup has been started by then. *)
Definition GET `{Redirects} (net : Network) (db : Db.Database) (headers : list (string * string))
    (code : string) : IO (HttpResponse * Db.Database) :=
  match code with
  | EmptyString => ret (Json 400 "Missing tracking code", db)
  | shortCode =>
      (* Find the link *)
      match Db.getLinkByCode db shortCode with
      | None => ret (Json 404 "Link not found", db)
      | Some link =>
          (* Check if link is active *)
          if negb (TrackingLink.active link)
          then ret (Json 410 "Link is disabled", db)
          else
            let ipAddress := getClientIP headers in
            let userAgent := or_null (header headers "user-agent") in
            let referer := or_null (header headers "referer") in
            locationData <- getLocationWithFallback net ipAddress ;;
            t <- now ;;
            let db' :=
              match Db.recordClick db (TrackingLink.id link)
                      (Db.mkClickData ipAddress userAgent referer
                         (GeolocationData.country locationData)
                         (GeolocationData.countryCode locationData)
                         (GeolocationData.region locationData)
                         (GeolocationData.city locationData)
                         (GeolocationData.lat locationData)
                         (GeolocationData.lon locationData)
                         (GeolocationData.timezone locationData)
                         (GeolocationData.isp locationData)) t with
              | Return (_, db1) => db1
              | _ => db
              end in
            (* Immediate redirect to original URL *)
            match URL_href (TrackingLink.original_url link) with
            | Some location => ret (Redirect 302 location, db')
            | None => ret (Json 500 "Internal server error", db')
            end
      end
  end.

End Track.

(* ================================================================== *)
(** * Part VI. Aggregations ([src/lib/analytics.ts])                    *)
(* ================================================================== *)

Module Analytics.

(** What the host supplies: URL parsing ([None] when [new URL] throws) and
    the local-time readings of a [Date]. *)
Class Platform := {
  URL_hostname : string -> option string;
  Date_getHours : Z -> Z;
  Date_getDay : Z -> Z
}.

Definition MS_PER_DAY : Z := 24 * 60 * 60 * 1000.

(** [new Date(t).toISOString().split('T')[0]]: the text names the UTC
    calendar day of [t], and distinct days have distinct texts; the day is
    kept by its number since the epoch. *)
Definition isoDate (t : Z) : Z := t / MS_PER_DAY.

(** The values [i] takes in [for (let i = 0; i < n; i++)]. *)
Definition upto (n : Z) : list Z := map Z.of_nat (seq 0 (Z.to_nat n)).

Definition or_zero (x : option nat) : nat :=
  match x with Some n => n | None => 0%nat end.

(** [map.forEach(k => m.set(k, (m.get(k) || 0) + 1))] over the keys of the
    clicks, from the map [m]. *)
Definition tally {K} `{KeyEq K} (m : list (K * nat)) (keys : list K) : list (K * nat) :=
  fold_left Map_bump keys m.

(** [totalClicks > 0 ? Math.round((clicks / totalClicks) * 100 * 100) / 100 : 0] *)
Definition percentage (clicks totalClicks : nat) : float :=
  if (0 <? totalClicks)%nat
  then (Math_round (Number_of_nat clicks / Number_of_nat totalClicks * 100 * 100) / 100)%float
  else 0%float.

Module TimeSeriesData.
Record t := mk { date : Z; clicks : nat }.
End TimeSeriesData.

(** [new Date(t)] holds the time value [t] when it is within 8.64e15 ms of
    the epoch and is an invalid date otherwise; [toISOString] throws a
    [RangeError] on an invalid date. *)
Definition Date_valid (t : Z) : bool :=
  (-8640000000000000 <=? t) && (t <=? 8640000000000000).

Definition Invalid_time_value : string := "Invalid time value".

(** [now] is [new Date().getTime()].  With an invalid [startDate] every
    date of the loop is invalid, and its first turn throws. *)
Definition calculateClickTrends (now : Z) (clicks : list ClickEvent.t) (days : Z)
    : Completion (list TimeSeriesData.t) :=
  let startDate := now - days * 24 * 60 * 60 * 1000 in
  if (0 <? days) && negb (Date_valid startDate) then Throw Invalid_time_value
  else
    let dates := map (fun i => startDate + i * 24 * 60 * 60 * 1000) (upto days) in
    if negb (forallb Date_valid dates) then Throw Invalid_time_value
    else
      let dateRange := map isoDate dates in
      if negb (forallb (fun c => Date_valid (ClickEvent.timestamp c)) clicks)
      then Throw Invalid_time_value
      else
        let clicksByDate :=
          tally [] (map (fun c => isoDate (ClickEvent.timestamp c)) clicks) in
        Return (map (fun date => TimeSeriesData.mk date (or_zero (Map_get clicksByDate date)))
                    dateRange).

Definition calculateHourlyDistribution `{Platform} (clicks : list ClickEvent.t)
    : list (Z * nat) :=
  tally (map (fun i => (i, 0%nat)) (upto 24))
        (map (fun c => Date_getHours (ClickEvent.timestamp c)) clicks).

Definition dayNames : list string :=
  ["Sunday"; "Monday"; "Tuesday"; "Wednesday"; "Thursday"; "Friday"; "Saturday"].

(** [dayNames[i]]; [None] is [undefined]. *)
Definition dayName (i : Z) : option string :=
  if i <? 0 then None else nth_error dayNames (Z.to_nat i).

Definition calculateWeeklyDistribution `{Platform} (clicks : list ClickEvent.t)
    : list (option string * nat) :=
  map (fun e => (dayName (fst e), snd e))
      (tally (map (fun i => (i, 0%nat)) (upto 7))
             (map (fun c => Date_getDay (ClickEvent.timestamp c)) clicks)).

Module Location.
Record t := mk {
  coordinates : float * float;  (* [longitude, latitude] *)
  country : string;
  city : option string;
  clicks : nat
}.
End Location.

Module MapDataPoint.
Record t := mk {
  coordinates : float * float;
  country : string;
  city : option string;
  clicks : nat;
  percentage : float
}.
End MapDataPoint.

(** The key [`${latitude},${longitude}`] of a click that passes
    [if (click.latitude && click.longitude)].  Two such keys are the same
    text exactly when the two pairs of numbers are the same, so the pair is
    the key. *)
Definition location_key (c : ClickEvent.t) : option (float * float) :=
  match ClickEvent.latitude c, ClickEvent.longitude c with
  | Some la, Some lo => if truthy_number la && truthy_number lo then Some (la, lo) else None
  | _, _ => None
  end.

Definition group_location (m : list ((float * float) * Location.t)) (c : ClickEvent.t)
    : list ((float * float) * Location.t) :=
  match location_key c with
  | Some key =>
      match Map_get m key with
      | Some existing =>
          Map_set m key
            (Location.mk (Location.coordinates existing) (Location.country existing)
               (Location.city existing) (Location.clicks existing + 1))
      | None =>
          Map_set m key
            (Location.mk (snd key, fst key)
               (match ClickEvent.country c with
                | Some (String _ _ as s) => s
                | _ => "Unknown"
                end)
               (ClickEvent.city c) 1)
      end
  | None => m
  end.

Definition calculateGeographicDistribution (clicks : list ClickEvent.t)
    : list MapDataPoint.t :=
  let locationMap := fold_left group_location clicks [] in
  let totalClicks := List.length clicks in
  map (fun e =>
         let location := snd e in
         MapDataPoint.mk (Location.coordinates location) (Location.country location)
           (Location.city location) (Location.clicks location)
           (percentage (Location.clicks location) totalClicks))
      locationMap.

Definition extractDomain `{Platform} (url : string) : string :=
  if String.eqb url "" || String.eqb url "Direct" then "Direct"
  else
    match URL_hostname url with
    | Some hostname => hostname
    | None =>
        if (50 <? String.length url)%nat then substring0 50 url ++ "..." else url
    end.

Module Share.
(** [{ referrer | name, clicks, percentage }] *)
Record t := mk { name : string; clicks : nat; percentage : float }.
End Share.

Definition referrer_of `{Platform} (c : ClickEvent.t) : string :=
  extractDomain (match ClickEvent.referer c with
                 | Some (String _ _ as r) => r
                 | _ => "Direct"
                 end).

Definition count_key (e : string * nat) : Z := Z.of_nat (snd e).

Definition share_of (totalClicks : nat) (e : string * nat) : Share.t :=
  Share.mk (fst e) (snd e) (percentage (snd e) totalClicks).

Definition calculateTopReferrers `{Platform} (clicks : list ClickEvent.t) (limit : Z)
    : list Share.t :=
  let referrerMap := tally [] (map referrer_of clicks) in
  let totalClicks := List.length clicks in
  map (share_of totalClicks) (slice0 (sort_desc count_key referrerMap) limit).

Definition default_limit : Z := 10.

Record UserAgent := mkUserAgent { browser : string; device : string; os : string }.

Definition parseUserAgent (userAgent : string) : UserAgent :=
  let ua := toLowerCase userAgent in
  let browser :=
    if includes ua "chrome" && negb (includes ua "edg") then "Chrome"
    else if includes ua "firefox" then "Firefox"
    else if includes ua "safari" && negb (includes ua "chrome") then "Safari"
    else if includes ua "edg" then "Edge"
    else if includes ua "opera" then "Opera"
    else "Unknown" in
  let device :=
    if includes ua "mobile" then "Mobile"
    else if includes ua "tablet" || includes ua "ipad" then "Tablet"
    else "Desktop" in
  let os :=
    if includes ua "windows" then "Windows"
    else if includes ua "mac os" then "macOS"
    else if includes ua "linux" then "Linux"
    else if includes ua "android" then "Android"
    else if includes ua "ios" || includes ua "iphone" || includes ua "ipad" then "iOS"
    else "Unknown" in
  mkUserAgent browser device os.

Record DeviceStats := mkDeviceStats {
  browsers : list Share.t;
  devices : list Share.t;
  operatingSystems : list Share.t
}.

Definition agent_of (c : ClickEvent.t) : UserAgent :=
  match ClickEvent.user_agent c with
  | Some (String _ _ as ua) => parseUserAgent ua
  | _ => mkUserAgent "Unknown" "Unknown" "Unknown"
  end.

Definition calculateDeviceStats (clicks : list ClickEvent.t) : DeviceStats :=
  let agents := map agent_of clicks in
  let totalClicks := List.length clicks in
  let createStats m := map (share_of totalClicks) (sort_desc count_key m) in
  mkDeviceStats
    (createStats (tally [] (map browser agents)))
    (createStats (tally [] (map device agents)))
    (createStats (tally [] (map os agents))).

Definition calculateClickVelocity (now : Z) (clicks : list ClickEvent.t) (hours : Z) : float :=
  let startTime := now - hours * 60 * 60 * 1000 in
  let recentClicks := filter (fun c => startTime <=? ClickEvent.timestamp c) clicks in
  (Math_round (Number_of_nat (List.length recentClicks) / Number_of_Z hours * 100) / 100)%float.

Record PeakTimes := mkPeakTimes {
  peakHour : Z;
  peakDay : option string;
  peakHourClicks : nat;
  peakDayClicks : nat
}.

(** [a.reduce(...)] without an initial value; both arrays hold their 24 and
    7 initial entries, so the empty case does not arise. *)
Definition peak {A} (a : list (A * nat)) (otherwise : A) : A * nat :=
  match a with
  | x0 :: rest => reduce_max snd x0 rest
  | [] => (otherwise, 0%nat)
  end.

Definition calculatePeakTimes `{Platform} (clicks : list ClickEvent.t) : PeakTimes :=
  let peakHourData := peak (calculateHourlyDistribution clicks) 0 in
  let peakDayData := peak (calculateWeeklyDistribution clicks) None in
  mkPeakTimes (fst peakHourData) (fst peakDayData) (snd peakHourData) (snd peakDayData).

Record Summary := mkSummary {
  totalClicks : nat;
  uniqueClicks : nat;
  avgClicksPerDay : float;
  clickVelocity : float;
  topCountry : option string;
  topCity : option string;
  s_peakHour : Z;
  s_peakDay : option string
}.

(** [clicks.length > 0 ? Math.max(1, Math.ceil((Date.now() -
    new Date(clicks[clicks.length - 1].timestamp).getTime()) / (24 * 60 * 60 * 1000))) : 1] *)
Definition dateRange (now : Z) (clicks : list ClickEvent.t) : float :=
  match clicks with
  | [] => 1%float
  | c0 :: _ =>
      let final := last clicks c0 in
      Math_max 1 (Math_ceil (Number_of_Z (now - ClickEvent.timestamp final)
                              / Number_of_Z MS_PER_DAY))
  end.

(** The keys of the clicks whose field is truthy, in click order. *)
Definition present (field : ClickEvent.t -> option string) (clicks : list ClickEvent.t)
    : list string :=
  flat_map (fun c => match field c with
                     | Some (String _ _ as s) => [s]
                     | _ => []
                     end) clicks.

(** [counts.size > 0 ? Array.from(counts.entries()).sort(...)[0][0] : undefined] *)
Definition top (counts : list (string * nat)) : option string :=
  match sort_desc count_key counts with
  | e :: _ => Some (fst e)
  | [] => None
  end.

Definition generateAnalyticsSummary `{Platform} (now : Z) (clicks : list ClickEvent.t)
    : Summary :=
  let totalClicks := List.length clicks in
  let uniqueIPs := List.length (distinct (map ClickEvent.ip_address clicks)) in
  let avgClicksPerDay :=
    (Math_round (Number_of_nat totalClicks / dateRange now clicks * 100) / 100)%float in
  let countryCounts := tally [] (present ClickEvent.country clicks) in
  let cityCounts := tally [] (present ClickEvent.city clicks) in
  let peakTimes := calculatePeakTimes clicks in
  mkSummary totalClicks uniqueIPs avgClicksPerDay
    (calculateClickVelocity now clicks 24)
    (top countryCounts) (top cityCounts)
    (peakHour peakTimes) (peakDay peakTimes).

End Analytics.

(* ================================================================== *)
(** * Part VII. The analytics handler ([GET /api/analytics/[id]])       *)
(* ================================================================== *)

Module AnalyticsRoute.
Import Analytics.

Record Advanced := mkAdvanced {
  clickTrends : list TimeSeriesData.t;
  hourlyDistribution : list (Z * nat);
  weeklyDistribution : list (option string * nat);
  geographicDistribution : list MapDataPoint.t;
  topReferrers : list Share.t;
  deviceStats : DeviceStats;
  summary : Summary
}.

Inductive HttpResponse : Type :=
| Failure (status : Z) (error : string)
| Success (analytics : Db.LinkAnalytics) (advanced : option Advanced).

(** The seven figures, from the click list the handler hands to each; the
    first one may throw. *)
Definition advancedAnalytics `{Platform} (now : Z) (clicks : list ClickEvent.t) (days : Z)
    : Completion Advanced :=
  match calculateClickTrends now clicks days with
  | Return clickTrends =>
      Return (mkAdvanced
                clickTrends
                (calculateHourlyDistribution clicks)
                (calculateWeeklyDistribution clicks)
                (calculateGeographicDistribution clicks)
                (calculateTopReferrers clicks default_limit)
                (calculateDeviceStats clicks)
                (generateAnalyticsSummary now clicks))
  | Throw message => Throw message
  | OutOfDraws => OutOfDraws
  end.

(** [GET /api/analytics/[id]?days=..&advanced=..].  A [days] that does not
    parse makes the loop of [calculateClickTrends] run no turn, as 0 does. *)
Definition GET `{Platform} (db : Db.Database) (now : Z) (id : string)
    (daysParam advancedParam : option string) : HttpResponse :=
  match parseInt id with
  | None => Failure 400 "Invalid link ID"
  | Some linkId =>
      let days :=
        match parseInt (match daysParam with
                        | Some (String _ _ as d) => d
                        | _ => "30"
                        end) with
        | Some d => d
        | None => 0
        end in
      let includeAdvanced :=
        match advancedParam with
        | Some a => String.eqb a "true"
        | None => false
        end in
      match Db.getLinkAnalytics db linkId with
      | None => Failure 404 "Link not found"
      | Some analytics =>
          if includeAdvanced && (0 <? List.length (Db.la_recentClicks analytics))%nat
          then
            match advancedAnalytics now (Db.la_recentClicks analytics) days with
            | Return advanced => Success analytics (Some advanced)
            | _ => Failure 500 "Failed to fetch analytics"
            end
          else Success analytics None
      end
  end.

End AnalyticsRoute.


(* ================================================================== *)
(** * Part VII-a. The remaining store queries and handlers              *)
(* ================================================================== *)

Module Queries.

(** [... LIMIT ? OFFSET ?]: a negative limit is no limit, a negative offset
    is no offset. *)
Definition limit_offset {A} (rows : list A) (limit offset : Z) : list A :=
  let rest := skipn (Z.to_nat offset) rows in
  if limit <? 0 then rest else firstn (Z.to_nat limit) rest.

(** [SELECT * FROM links ORDER BY created_at DESC LIMIT ? OFFSET ?]; rows
    of equal creation time are taken in table order. *)
Definition getAllLinks (db : Db.Database) (offset limit : Z) : list TrackingLink.t :=
  limit_offset (sort_desc TrackingLink.created_at (Db.links db)) limit offset.

(** [SELECT * FROM clicks WHERE link_id = ? ORDER BY timestamp DESC
    LIMIT ? OFFSET ?] *)
Definition getLinkClicks (db : Db.Database) (linkId limit offset : Z) : list ClickEvent.t :=
  limit_offset
    (sort_desc ClickEvent.timestamp
       (filter (fun c => ClickEvent.link_id c =? linkId) (Db.clicks db)))
    limit offset.

End Queries.

(** What [await request.json()] comes to. *)
Inductive JsonBody (A : Type) : Type :=
| Malformed (message : string)
| Parsed (body : A).
Arguments Malformed {A} message.
Arguments Parsed {A} body.

(** A value of JSON text, as [JSON.parse] builds it. *)
#[local] Unset Elimination Schemes.
Inductive Json : Type :=
| JNull
| JBool (b : bool)
| JNumber (x : float)
| JString (s : string)
| JArray (items : list Json)
| JObject (members : list (string * Json)).
#[local] Set Elimination Schemes.

(** [v.name] on a value other than [null], for a name that no prototype
    defines ([referer], [title], [description], [active]): the member of an
    object, the last one when the text repeats the name, and [undefined]
    ([None]) on everything else. *)
Definition member (name : string) (v : Json) : option Json :=
  match v with
  | JObject members =>
      match find (fun m => String.eqb (fst m) name) (rev members) with
      | Some m => Some (snd m)
      | None => None
      end
  | _ => None
  end.

Definition truthy (v : Json) : bool :=
  match v with
  | JNull => false
  | JBool b => b
  | JNumber x => truthy_number x
  | JString "" => false
  | JString _ => true
  | JArray _ | JObject _ => true
  end.

(** [x?.trim() || undefined] on a member: absent for [undefined], [null]
    and a blank string; a value of another kind has no [trim] to call, and
    the call throws. *)
Definition optional_trim (x : option Json) : Completion (option string) :=
  match x with
  | None | Some JNull => Return None
  | Some (JString s) => Return (or_null (Some (trim s)))
  | Some _ => Throw "trim is not a function"
  end.

(** [x?.trim() || undefined]: absent when missing or blank. *)
Definition trimmed (x : option string) : option string :=
  or_null (option_map trim x).

(** [POST /api/track/[code]]: the tracking call that waits for the lookup
    and the insert. *)
Module TrackPost.
Import Geo.

Inductive HttpResponse : Type :=
| Failed (status : Z) (error : string)
| Tracked (original_url : string) (click_id : Z) (timestamp : Z).

(** The database driver is not among the sources.  Where [recordClick]
    hands it a referer that is no string, [bound_referer] is what comes of
    it: what the [referer] column of the new row then holds ([None] for
    [NULL]), or the error [run] throws. *)
Class Driver := {
  bound_referer : Json -> Completion (option string)
}.

Definition with_referer (stored : option string) (c : ClickEvent.t) : ClickEvent.t :=
  ClickEvent.mk (ClickEvent.id c) (ClickEvent.link_id c) (ClickEvent.ip_address c)
    (ClickEvent.user_agent c) stored (ClickEvent.country c) (ClickEvent.country_code c)
    (ClickEvent.region c) (ClickEvent.city c) (ClickEvent.latitude c)
    (ClickEvent.longitude c) (ClickEvent.timezone c) (ClickEvent.isp c)
    (ClickEvent.timestamp c).

(** A body that does not parse is read as [{}]; reading [referer] off the
    body [null] throws, before anything else is done.  In
    [body.referer || referer] a member that is not truthy gives way to the
    header.  A referer that is a string goes through [recordClick] as the
    header's does; for any other value the new row holds what the driver
    made of it. *)
Definition POST `{Driver} (net : Network) (db : Db.Database)
    (headers : list (string * string)) (code : string) (request : JsonBody Json)
    : IO (HttpResponse * Db.Database) :=
  match code with
  | EmptyString => ret (Failed 400 "Missing tracking code", db)
  | shortCode =>
      match Db.getLinkByCode db shortCode with
      | None => ret (Failed 404 "Link not found", db)
      | Some link =>
          if negb (TrackingLink.active link)
          then ret (Failed 410 "Link is disabled", db)
          else
            let ipAddress := getClientIP headers in
            let userAgent := or_null (header headers "user-agent") in
            let referer := or_null (header headers "referer") in
            (* Get additional data from request body if provided *)
            let body := match request with
                        | Parsed v => v
                        | Malformed _ => JObject []
                        end in
            match body with
            | JNull => ret (Failed 500 "Failed to track click", db)
            | _ =>
                (* Get geolocation and record click *)
                locationData <- getLocationWithFallback net ipAddress ;;
                t <- Track.now ;;
                let insert (customReferer : option string) :=
                  Db.recordClick db (TrackingLink.id link)
                    (Db.mkClickData ipAddress userAgent customReferer
                       (GeolocationData.country locationData)
                       (GeolocationData.countryCode locationData)
                       (GeolocationData.region locationData)
                       (GeolocationData.city locationData)
                       (GeolocationData.lat locationData)
                       (GeolocationData.lon locationData)
                       (GeolocationData.timezone locationData)
                       (GeolocationData.isp locationData)) t in
                let inserted :=
                  match member "referer" body with
                  | None => insert referer
                  | Some v =>
                      if negb (truthy v) then insert referer
                      else
                        match v with
                        | JString r => insert (Some r)
                        | _ =>
                            match bound_referer v, insert None with
                            | Return stored, Return (clickRecord, db1) =>
                                Return (with_referer stored clickRecord,
                                        Db.mkDatabase (Db.links db1)
                                          (Db.clicks db ++ [with_referer stored clickRecord])
                                          (Db.links_seq db1) (Db.clicks_seq db1))
                            | Return _, failed => failed
                            | Throw message, _ => Throw message
                            | OutOfDraws, _ => OutOfDraws
                            end
                        end
                  end in
                match inserted with
                | Return (clickRecord, db1) =>
                    ret (Tracked (TrackingLink.original_url link)
                           (ClickEvent.id clickRecord)
                           (ClickEvent.timestamp clickRecord), db1)
                | _ => ret (Failed 500 "Failed to track click", db)
                end
            end
      end
  end.

End TrackPost.

(** [POST /api/links]: validation, then [createLink]. *)
Module LinksRoute.
Import Analytics.

(** The body as sent: every field may be missing. *)
Record Body := mkBody {
  original_url : option string;
  title : option string;
  description : option string;
  custom_code : option string
}.

Inductive HttpResponse : Type :=
| Rejected (status : Z) (error : string)
| Created (link : TrackingLink.t).

(** A character of the class [[a-zA-Z0-9-_]]. *)
Definition code_char (a : ascii) : bool :=
  let n := nat_of_ascii a in
  ((97 <=? n) && (n <=? 122) || (65 <=? n) && (n <=? 90) || (48 <=? n) && (n <=? 57)
   || (n =? 45) || (n =? 95))%nat.

Fixpoint all_chars (p : ascii -> bool) (s : string) : bool :=
  match s with
  | EmptyString => true
  | String a s' => p a && all_chars p s'
  end.

(** [/^[a-zA-Z0-9-_]+$/.test(s)] *)
Definition code_pattern (s : string) : bool :=
  match s with
  | EmptyString => false
  | _ => all_chars code_char s
  end.

(** The catch block: how an [Error] is answered. *)
Definition answer_error (message : string) : HttpResponse :=
  if includes message "already exists"
  then Rejected 409 "Custom short code already exists"
  else Rejected 500 message.

(** The answer, with the store after it; [None] when the generating loop of
    [createLink] needs more random values than it was given. *)
Definition POST `{Platform} (db : Db.Database) (now : Z) (randoms : list float)
    (request : JsonBody Body) : option (HttpResponse * Db.Database) :=
  match request with
  | Malformed message => Some (answer_error message, db)
  | Parsed body =>
      match original_url body with
      | None | Some EmptyString =>
          Some (Rejected 400 "Missing required field: original_url", db)
      | Some url =>
          match URL_hostname url with
          | None => Some (Rejected 400 "Invalid URL format", db)
          | Some _ =>
              let invalid :=
                match custom_code body with
                | Some (String _ _ as code) =>
                    if ((String.length code <? 3) || (20 <? String.length code))%nat
                    then Some "Custom code must be between 3 and 20 characters"
                    else if negb (code_pattern code)
                    then Some "Custom code can only contain letters, numbers, hyphens, and underscores"
                    else None
                | _ => None
                end in
              match invalid with
              | Some error => Some (Rejected 400 error, db)
              | None =>
                  match Db.createLink db
                          (CreateLinkRequest.mk url (trimmed (title body))
                             (trimmed (description body)) (trimmed (custom_code body)))
                          now randoms with
                  | Return (newLink, db') => Some (Created newLink, db')
                  | Throw message => Some (answer_error message, db)
                  | OutOfDraws => None
                  end
              end
          end
      end
  end.

End LinksRoute.

(** [GET], [PUT] and [DELETE /api/links/[id]]. *)
Module LinkRoute.

Inductive HttpResponse : Type :=
| Rejected (status : Z) (error : string)
| Found (link : TrackingLink.t)
| Updated (link : TrackingLink.t)
| Deleted.

Definition GET (db : Db.Database) (id : string) : HttpResponse :=
  match parseInt id with
  | None => Rejected 400 "Invalid link ID"
  | Some linkId =>
      match Db.getLinkById db linkId with
      | None => Rejected 404 "Link not found"
      | Some link => Found link
      end
  end.

(** Whether the body names none of the three fields: each is [undefined].
    (A member that is [null] is named.) *)
Definition names_no_field (body : Json) : bool :=
  match member "title" body, member "description" body, member "active" body with
  | None, None, None => true
  | _, _, _ => false
  end.

(** [active: body.active], which [updateLink] then reads as
    [data.active ? 1 : 0]: any value that is there, by its truthiness. *)
Definition active_of (body : Json) : option bool :=
  option_map truthy (member "active" body).

(** A body that does not parse, the body [null] (reading [title] off it
    throws) and a [title] or [description] that is neither a string nor
    [null] (no [trim] to call) all end in the [catch]. *)
Definition PUT (db : Db.Database) (now : Z) (id : string)
    (request : JsonBody Json) : HttpResponse * Db.Database :=
  match parseInt id with
  | None => (Rejected 400 "Invalid link ID", db)
  | Some linkId =>
      match request with
      | Malformed _ | Parsed JNull => (Rejected 500 "Failed to update link", db)
      | Parsed body =>
          (* Validate that at least one field is being updated *)
          if names_no_field body
          then (Rejected 400 "At least one field must be provided for update", db)
          else
            (* Check if link exists *)
            match Db.getLinkById db linkId with
            | None => (Rejected 404 "Link not found", db)
            | Some _ =>
                match optional_trim (member "title" body),
                      optional_trim (member "description" body) with
                | Return title, Return description =>
                    match Db.updateLink db linkId
                            (UpdateLinkRequest.mk title description (active_of body))
                            now with
                    | (Some updatedLink, db') => (Updated updatedLink, db')
                    | (None, db') => (Rejected 500 "Failed to update link", db')
                    end
                | _, _ => (Rejected 500 "Failed to update link", db)
                end
            end
      end
  end.

Definition DELETE (db : Db.Database) (id : string) : HttpResponse * Db.Database :=
  match parseInt id with
  | None => (Rejected 400 "Invalid link ID", db)
  | Some linkId =>
      match Db.getLinkById db linkId with
      | None => (Rejected 404 "Link not found", db)
      | Some _ =>
          match Db.deleteLink db linkId with
          | (true, db') => (Deleted, db')
          | (false, db') => (Rejected 500 "Failed to delete link", db')
          end
      end
  end.

End LinkRoute.

(** [getDashboardStats()]: the counts and the two lists that do not depend
    on the clock.  ([clicksToday], [clicksThisWeek] and [clicksThisMonth]
    compare the stored time texts with SQLite's [date('now')] and
    [datetime('now', ...)]; they are not part of this record.) *)
Module Dashboard.

(** A row of [SELECT c.*, l.title, l.short_code FROM clicks c JOIN links l
    ON c.link_id = l.id]. *)
Record Activity := mkActivity {
  click : ClickEvent.t;
  title : option string;
  short_code : string
}.

Record Stats := mkStats {
  totalLinks : nat;
  totalClicks : nat;
  activeLinks : nat;
  topPerformingLinks : list TrackingLink.t;
  recentActivity : list Activity
}.

(** The join: every click with every link of its [link_id]. *)
Definition joined (db : Db.Database) : list Activity :=
  flat_map
    (fun c =>
       map (fun l => mkActivity c (TrackingLink.title l) (TrackingLink.short_code l))
           (filter (fun l => ClickEvent.link_id c =? TrackingLink.id l) (Db.links db)))
    (Db.clicks db).

(** Links of equal [clicks] are taken in table order; clicks of equal
    [timestamp] are taken latest row first, the order in which the index on
    [timestamp] is read from its end. *)
Definition getDashboardStats (db : Db.Database) : Stats :=
  mkStats
    (List.length (Db.links db))
    (List.length (Db.clicks db))
    (List.length (filter TrackingLink.active (Db.links db)))
    (firstn 5 (sort_desc TrackingLink.clicks (filter TrackingLink.active (Db.links db))))
    (firstn 10 (sort_desc (fun a => ClickEvent.timestamp (click a)) (rev (joined db)))).

End Dashboard.
(* ================================================================== *)
(** * Part VIII. Facts about the runtime model                          *)
(* ================================================================== *)

Local Open Scope list_scope.

(** How often [k] occurs in [keys]. *)
Definition occurrences {K} `{KeyEq K} (k : K) (keys : list K) : nat :=
  List.length (filter (fun k' => keqb k' k) keys).

(** The position of the first occurrence of [k] in [keys] (its length when
    there is none). *)
Fixpoint first_index {K} `{KeyEq K} (k : K) (keys : list K) : nat :=
  match keys with
  | [] => 0%nat
  | k' :: keys' => if keqb k' k then 0%nat else S (first_index k keys')
  end.

Lemma filter_filter {A} (f g : A -> bool) (l : list A) :
  filter f (filter g l) = filter (fun x => g x && f x) l.
Proof.
  induction l as [|a l IH]; cbn; [reflexivity|].
  destruct (g a); cbn; [destruct (f a)|]; rewrite IH; reflexivity.
Qed.

Section KeyFacts.
Context {K : Type} `{KeyEq K}.

Lemma keqb_refl (k : K) : keqb k k = true.
Proof. apply keqb_spec; reflexivity. Qed.

Lemma keqb_neq (a b : K) : keqb a b = false <-> a <> b.
Proof.
  split.
  - intros E ->. rewrite keqb_refl in E. discriminate.
  - intros N. destruct (keqb a b) eqn:E; [|reflexivity].
    apply keqb_spec in E. contradiction.
Qed.

Lemma keqb_sym (a b : K) : keqb a b = keqb b a.
Proof.
  destruct (keqb a b) eqn:E.
  - apply keqb_spec in E. subst. symmetry. apply keqb_refl.
  - symmetry. apply keqb_neq. apply keqb_neq in E. congruence.
Qed.
End KeyFacts.

Ltac key_cases a b :=
  let Ek := fresh "Ek" in
  destruct (keqb a b) eqn:Ek;
  [apply keqb_spec in Ek | pose proof (proj1 (keqb_neq _ _) Ek)].

Section MapFacts.
Context {K V : Type} `{KeyEq K}.
Implicit Types (m : list (K * V)) (k : K) (v : V).

Lemma Map_get_set m k k' v :
  Map_get (Map_set m k v) k' = if keqb k k' then Some v else Map_get m k'.
Proof.
  induction m as [|[k0 v0] m IH]; cbn.
  - destruct (keqb k k'); reflexivity.
  - key_cases k0 k; cbn.
    + subst k0. destruct (keqb k k'); reflexivity.
    + rewrite IH. key_cases k0 k'.
      * subst k'. rewrite (proj2 (keqb_neq k k0)) by congruence. reflexivity.
      * reflexivity.
Qed.

Lemma Map_get_None m k : Map_get m k = None <-> ~ In k (map fst m).
Proof.
  induction m as [|[k0 v0] m IH]; cbn.
  - tauto.
  - key_cases k0 k.
    + split; [discriminate | intros N; exfalso; apply N; auto].
    + rewrite IH. intuition congruence.
Qed.

Lemma Map_get_In m k v : Map_get m k = Some v -> In (k, v) m.
Proof.
  induction m as [|[k0 v0] m IH]; cbn; [discriminate|].
  key_cases k0 k.
  - subst k0. intros E; inversion E; auto.
  - auto.
Qed.

Lemma In_Map_get m k v : NoDup (map fst m) -> In (k, v) m -> Map_get m k = Some v.
Proof.
  induction m as [|[k0 v0] m IH]; cbn; [tauto|].
  intros ND [E|I]; inversion ND as [|? ? NI ND']; subst.
  - inversion E; subst. rewrite keqb_refl. reflexivity.
  - key_cases k0 k.
    + subst k0. exfalso. apply NI. apply (in_map fst) in I. exact I.
    + auto.
Qed.

Lemma Map_set_keys m k v :
  map fst (Map_set m k v) =
  match Map_get m k with
  | Some _ => map fst m
  | None => map fst m ++ [k]
  end.
Proof.
  induction m as [|[k0 v0] m IH]; cbn; [reflexivity|].
  key_cases k0 k; cbn.
  - reflexivity.
  - rewrite IH. destruct (Map_get m k); reflexivity.
Qed.
End MapFacts.

Section TallyFacts.
Context {K : Type} `{KeyEq K}.
Implicit Types (m : list (K * nat)) (k : K) (keys : list K).

Lemma Map_bump_get m k k' :
  Analytics.or_zero (Map_get (Map_bump m k) k') =
  (Analytics.or_zero (Map_get m k') + if keqb k k' then 1 else 0)%nat.
Proof.
  unfold Map_bump. rewrite Map_get_set.
  key_cases k k'; cbn.
  - subst k'. destruct (Map_get m k); cbn; lia.
  - lia.
Qed.

Lemma tally_get m keys k :
  Analytics.or_zero (Map_get (Analytics.tally m keys) k) =
  (Analytics.or_zero (Map_get m k) + occurrences k keys)%nat.
Proof.
  unfold Analytics.tally, occurrences.
  revert m. induction keys as [|k0 keys IH]; intros m; cbn.
  - lia.
  - rewrite IH, Map_bump_get. destruct (keqb k0 k); cbn; lia.
Qed.

Lemma Map_bump_keys m k :
  map fst (Map_bump m k) =
  if existsb (keqb k) (map fst m) then map fst m else map fst m ++ [k].
Proof.
  unfold Map_bump. rewrite Map_set_keys.
  destruct (Map_get m k) eqn:G.
  - assert (I : In k (map fst m)).
    { destruct (in_dec (fun a b => match Bool.bool_dec (keqb a b) true with
                                   | left e => left (proj1 (keqb_spec a b) e)
                                   | right n => right (fun e => n (proj2 (keqb_spec a b) e))
                                   end) k (map fst m)) as [I|N]; [exact I|].
      apply Map_get_None in N. congruence. }
    replace (existsb (keqb k) (map fst m)) with true; [reflexivity|].
    symmetry. apply existsb_exists. exists k. split; [exact I | apply keqb_refl].
  - apply Map_get_None in G.
    replace (existsb (keqb k) (map fst m)) with false; [reflexivity|].
    symmetry. apply not_true_is_false. intros E. apply existsb_exists in E.
    destruct E as [x [I E]]. apply keqb_spec in E. subst. contradiction.
Qed.

(** The keys of a tally: those of the start map, then the new ones in the
    order of first encounter. *)
Lemma tally_keys m keys :
  map fst (Analytics.tally m keys) =
  map fst m ++ filter (fun k => negb (existsb (keqb k) (map fst m))) (distinct keys).
Proof.
  unfold Analytics.tally.
  revert m. induction keys as [|k0 keys IH]; intros m; cbn [fold_left distinct].
  - cbn. rewrite app_nil_r. reflexivity.
  - rewrite IH, Map_bump_keys. cbn [filter].
    destruct (existsb (keqb k0) (map fst m)) eqn:E; cbn [negb].
    + f_equal. rewrite filter_filter. apply filter_ext_in.
      intros k _. destruct (keqb k0 k) eqn:Ek0; cbn; [|reflexivity].
      apply keqb_spec in Ek0. subst k. rewrite E. reflexivity.
    + rewrite <- app_assoc. cbn [app]. f_equal. f_equal.
      rewrite filter_filter. apply filter_ext.
      intros k. rewrite existsb_app. cbn. rewrite orb_false_r, negb_orb.
      rewrite (keqb_sym k k0). apply andb_comm.
Qed.

Lemma distinct_In keys k : In k (distinct keys) <-> In k keys.
Proof.
  induction keys as [|k0 keys IH]; cbn; [tauto|].
  rewrite filter_In, IH. split.
  - intros [E|[I _]]; auto.
  - intros [E|I]; auto. key_cases k0 k; auto.
Qed.

Lemma distinct_NoDup keys : NoDup (distinct keys).
Proof.
  induction keys as [|k0 keys IH]; cbn; constructor.
  - rewrite filter_In. intros [_ E]. rewrite keqb_refl in E. discriminate.
  - apply NoDup_filter. exact IH.
Qed.

Corollary tally_keys_distinct keys :
  map fst (Analytics.tally [] keys) = distinct keys.
Proof.
  rewrite tally_keys. cbn. apply forallb_filter_id.
  apply forallb_forall. reflexivity.
Qed.

(** An entry of a tally from the empty map carries the number of
    occurrences of its key, and there is at least one. *)
Lemma tally_entry keys k n :
  In (k, n) (Analytics.tally [] keys) ->
  n = occurrences k keys /\ In k keys.
Proof.
  intros I.
  assert (ND : NoDup (map fst (Analytics.tally [] keys)))
    by (rewrite tally_keys_distinct; apply distinct_NoDup).
  pose proof (In_Map_get _ _ _ ND I) as G.
  pose proof (tally_get [] keys k) as T. rewrite G in T. cbn in T.
  split; [exact T|].
  apply distinct_In. rewrite <- tally_keys_distinct.
  apply (in_map fst) in I. exact I.
Qed.

Lemma occurrences_pos keys k : In k keys -> (1 <= occurrences k keys)%nat.
Proof.
  unfold occurrences. induction keys as [|k0 keys IH]; cbn; [tauto|].
  intros [E|I].
  - subst. rewrite keqb_refl. cbn. lia.
  - specialize (IH I). destruct (keqb k0 k); cbn; lia.
Qed.

(** Distinct keys come in the order of their first occurrence. *)
Lemma distinct_first_index keys :
  StronglySorted (fun a b => (first_index a keys < first_index b keys)%nat)
                 (distinct keys).
Proof.
  induction keys as [|k0 keys IH]; cbn [distinct]; constructor.
  - assert (S : StronglySorted
                  (fun a b => (first_index a keys < first_index b keys)%nat)
                  (filter (fun y => negb (keqb k0 y)) (distinct keys))).
    { clear -IH. induction IH as [|a l SS IHl F]; cbn; [constructor|].
      destruct (negb (keqb k0 a)); [constructor|]; auto.
      rewrite Forall_forall in *. intros x Ix. apply filter_In in Ix. apply F, Ix. }
    assert (F : Forall (fun a => keqb k0 a = false)
                  (filter (fun y => negb (keqb k0 y)) (distinct keys))).
    { apply Forall_forall. intros x Ix. apply filter_In in Ix.
      destruct Ix as [_ Ex]. apply negb_true_iff in Ex. exact Ex. }
    clear IH. induction S as [|a l SS IHl Fa]; [constructor|].
    inversion F as [|? ? Ea Fl]; subst. constructor; [auto|].
    rewrite Forall_forall in *. intros x Ix. cbn.
    rewrite Ea, (Fl x Ix). specialize (Fa x Ix). lia.
  - apply Forall_forall. intros x Ix. apply filter_In in Ix.
    destruct Ix as [_ Ex]. apply negb_true_iff in Ex.
    cbn. rewrite keqb_refl, Ex. lia.
Qed.
End TallyFacts.

(** ** The stable descending sort *)

Section SortFacts.
Context {A : Type} (key : A -> Z).

Lemma insert_desc_perm (x : A) (l : list A) : Permutation (insert_desc key x l) (x :: l).
Proof.
  induction l as [|y l IH]; cbn; [reflexivity|].
  destruct (key x <? key y); [|reflexivity].
  rewrite IH. apply perm_swap.
Qed.

Lemma sort_desc_perm (l : list A) : Permutation (sort_desc key l) l.
Proof.
  induction l as [|x l IH]; cbn; [reflexivity|].
  rewrite insert_desc_perm. constructor. exact IH.
Qed.

Lemma sort_desc_In (l : list A) (z : A) : In z (sort_desc key l) <-> In z l.
Proof.
  split; apply Permutation_in; [|symmetry]; apply sort_desc_perm.
Qed.

Lemma sort_desc_length (l : list A) : List.length (sort_desc key l) = List.length l.
Proof. apply Permutation_length, sort_desc_perm. Qed.

(** Larger keys first; among equal keys, the order [before] of the input. *)
Definition ranked (before : A -> A -> Prop) (a b : A) : Prop :=
  key b < key a \/ (key a = key b /\ before a b).

Variable before : A -> A -> Prop.

Lemma insert_desc_ranked (x : A) (l : list A) :
  Forall (before x) l ->
  StronglySorted (ranked before) l ->
  StronglySorted (ranked before) (insert_desc key x l).
Proof.
  intros F S. induction S as [|y l S IH Fy]; cbn.
  - repeat constructor.
  - inversion F as [|? ? Bxy Fl]; subst.
    destruct (key x <? key y) eqn:C.
    + apply Z.ltb_lt in C. constructor; [auto|].
      apply Forall_forall. intros z Iz.
      apply (Permutation_in _ (insert_desc_perm x l)) in Iz.
      destruct Iz as [<-|Iz].
      * left. exact C.
      * rewrite Forall_forall in Fy. auto.
    + apply Z.ltb_ge in C. constructor; [constructor; assumption|].
      constructor.
      * unfold ranked. destruct (Z.eq_dec (key x) (key y)); [right|left]; auto; lia.
      * rewrite Forall_forall in *. intros z Iz.
        specialize (Fy z Iz). specialize (Fl z Iz). unfold ranked in *.
        destruct (Z.eq_dec (key x) (key z)); [right|left]; auto; lia.
Qed.

Lemma sort_desc_ranked (l : list A) :
  StronglySorted before l -> StronglySorted (ranked before) (sort_desc key l).
Proof.
  induction 1 as [|x l S IH F]; cbn; [constructor|].
  apply insert_desc_ranked; [|exact IH].
  rewrite Forall_forall in *. intros z Iz. apply F, sort_desc_In, Iz.
Qed.

Lemma sort_desc_sorted (l : list A) :
  StronglySorted (fun a b => key b <= key a) (sort_desc key l).
Proof.
  induction l as [|x l IH]; [constructor|].
  change (sort_desc key (x :: l)) with (insert_desc key x (sort_desc key l)).
  set (s := sort_desc key l) in *. clearbody s.
  induction IH as [|y s S IHs Fy]; cbn.
  - repeat constructor.
  - destruct (key x <? key y) eqn:C.
    + apply Z.ltb_lt in C. constructor; [exact IHs|].
      apply Forall_forall. intros z Iz.
      apply (Permutation_in _ (insert_desc_perm x s)) in Iz.
      destruct Iz as [<-|Iz]; [lia|].
      rewrite Forall_forall in Fy. auto.
    + apply Z.ltb_ge in C. constructor; [constructor; assumption|].
      constructor; [exact C|].
      rewrite Forall_forall in *. intros z Iz. specialize (Fy z Iz). lia.
Qed.
End SortFacts.

Lemma StronglySorted_firstn {A} (R : A -> A -> Prop) (n : nat) (l : list A) :
  StronglySorted R l -> StronglySorted R (firstn n l).
Proof.
  intros S. revert n. induction S as [|x l S IH F]; intros [|n]; cbn; try constructor.
  - apply IH.
  - rewrite Forall_forall in *. intros z Iz. apply F.
    rewrite <- (firstn_skipn n l). apply in_or_app. left. exact Iz.
Qed.

Lemma StronglySorted_map {A B} (R : B -> B -> Prop) (f : A -> B) (l : list A) :
  StronglySorted (fun a b => R (f a) (f b)) l -> StronglySorted R (map f l).
Proof.
  induction 1 as [|x l S IH F]; cbn; constructor; [exact IH|].
  rewrite Forall_forall in *. intros z Iz. apply in_map_iff in Iz.
  destruct Iz as [a [<- Ia]]. auto.
Qed.

Lemma StronglySorted_weaken {A} (R R' : A -> A -> Prop) (l : list A) :
  (forall a b, In a l -> In b l -> R a b -> R' a b) ->
  StronglySorted R l -> StronglySorted R' l.
Proof.
  intros W S. induction S as [|x l S IH F]; constructor.
  - apply IH. intros a b Ia Ib. apply W; right; assumption.
  - rewrite Forall_forall in *. intros z Iz. apply W; [left; reflexivity|right; exact Iz|auto].
Qed.

Lemma slice0_firstn {A} (a : list A) (limit : Z) :
  0 <= limit -> slice0 a limit = firstn (Z.to_nat limit) a.
Proof.
  intros L. unfold slice0.
  destruct (limit <? 0) eqn:C; [apply Z.ltb_lt in C; lia|].
  destruct (Z.le_ge_cases limit (Z.of_nat (List.length a))) as [Le|Ge].
  - rewrite Z.min_l by exact Le. reflexivity.
  - rewrite Z.min_r by lia. rewrite Nat2Z.id, firstn_all.
    symmetry. apply firstn_all2. lia.
Qed.

Lemma slice0_prefix {A} (a : list A) (limit : Z) :
  exists n, slice0 a limit = firstn n a.
Proof. unfold slice0. eexists. reflexivity. Qed.

(* ================================================================== *)
(** * Part IX. Coordinates and the link store                           *)
(* ================================================================== *)

(** ** The coordinate check *)

Definition outside (lo hi : float) (x : Geo.Coordinate) : Prop :=
  exists a, x = Geo.Num a /\ (PrimFloat.leb lo a = false \/ PrimFloat.leb a hi = false).

Definition is_zero (x : Geo.Coordinate) : Prop :=
  exists a, x = Geo.Num a /\ PrimFloat.eqb a 0 = true.

(** C8, as stated in the specification, fails on the code: latitude 0 with
    longitude 50 is in range and is not the pair (0, 0), and it is rejected;
    and a latitude that is missing as [null] is, with longitude 50,
    accepted. *)
Lemma isValidCoordinates_rejects_equator :
  (PrimFloat.leb (-90) 0 && PrimFloat.leb 0 90
   && PrimFloat.leb (-180) 50 && PrimFloat.leb 50 180
   && negb (PrimFloat.eqb 50 0))%bool = true
  /\ Geo.isValidCoordinates (Geo.Num 0%float) (Geo.Num 50%float) = false
  /\ Geo.isValidCoordinates (Geo.Num 51.5%float) (Geo.Num 0%float) = false
  /\ Geo.isValidCoordinates Geo.Null (Geo.Num 50%float) = true
  /\ Geo.isValidCoordinates Geo.Null Geo.Null = true.
Proof. repeat split; vm_compute; reflexivity. Qed.

(** C8 (amended).  [isValidCoordinates] rejects exactly: a latitude or
    longitude that is [undefined], a latitude outside [-90, 90], a longitude
    outside [-180, 180], and every pair whose latitude is 0 or whose
    longitude is 0 (the pair (0, 0), and also each point of the equator and
    of the prime meridian); every other pair is accepted, and so is a
    coordinate that is [null], which no test rejects. *)
Theorem isValidCoordinates_rejects_exactly (lat lon : Geo.Coordinate) :
  (Geo.isValidCoordinates lat lon = false <->
   (lat = Geo.Undefined \/ lon = Geo.Undefined
    \/ outside (-90) 90 lat \/ outside (-180) 180 lon
    \/ is_zero lat \/ is_zero lon))
  /\ (lat = Geo.Null ->
      (Geo.isValidCoordinates lat lon = false <->
       (lon = Geo.Undefined \/ outside (-180) 180 lon \/ is_zero lon)))
  /\ (lon = Geo.Null ->
      (Geo.isValidCoordinates lat lon = false <->
       (lat = Geo.Undefined \/ outside (-90) 90 lat \/ is_zero lat))).
Proof.
  assert (Lat : forall x : Geo.Coordinate,
            (Geo.not_undefined x && PrimFloat.leb (-90) (Geo.ToNumber x)
             && PrimFloat.leb (Geo.ToNumber x) 90 && Geo.not_strictly_zero x)%bool = false
            <-> (x = Geo.Undefined \/ outside (-90) 90 x \/ is_zero x)).
  { unfold outside, is_zero. intros [| |a]; cbn [Geo.not_undefined Geo.ToNumber
                                                  Geo.not_strictly_zero andb].
    - split; auto.
    - split; [vm_compute; discriminate|].
      intros [E|[[a [E _]]|[a [E _]]]]; discriminate E.
    - rewrite !andb_false_iff, negb_false_iff. split.
      + intros [[L|L]|L]; [right; left|right; left|right; right]; eauto.
      + intros [E|[[x [E [L|L]]]|[x [E L]]]]; try discriminate E;
          inversion E; subst; auto. }
  assert (Lon : forall x : Geo.Coordinate,
            (Geo.not_undefined x && PrimFloat.leb (-180) (Geo.ToNumber x)
             && PrimFloat.leb (Geo.ToNumber x) 180 && Geo.not_strictly_zero x)%bool = false
            <-> (x = Geo.Undefined \/ outside (-180) 180 x \/ is_zero x)).
  { unfold outside, is_zero. intros [| |a]; cbn [Geo.not_undefined Geo.ToNumber
                                                  Geo.not_strictly_zero andb].
    - split; auto.
    - split; [vm_compute; discriminate|].
      intros [E|[[a [E _]]|[a [E _]]]]; discriminate E.
    - rewrite !andb_false_iff, negb_false_iff. split.
      + intros [[L|L]|L]; [right; left|right; left|right; right]; eauto.
      + intros [E|[[x [E [L|L]]]|[x [E L]]]]; try discriminate E;
          inversion E; subst; auto. }
  assert (Both : Geo.isValidCoordinates lat lon
                 = ((Geo.not_undefined lat && PrimFloat.leb (-90) (Geo.ToNumber lat)
                     && PrimFloat.leb (Geo.ToNumber lat) 90 && Geo.not_strictly_zero lat)
                    && (Geo.not_undefined lon && PrimFloat.leb (-180) (Geo.ToNumber lon)
                        && PrimFloat.leb (Geo.ToNumber lon) 180
                        && Geo.not_strictly_zero lon))%bool).
  { unfold Geo.isValidCoordinates.
    destruct (Geo.not_undefined lat), (Geo.not_undefined lon),
      (PrimFloat.leb (-90) (Geo.ToNumber lat)), (PrimFloat.leb (Geo.ToNumber lat) 90),
      (PrimFloat.leb (-180) (Geo.ToNumber lon)), (PrimFloat.leb (Geo.ToNumber lon) 180),
      (Geo.not_strictly_zero lat), (Geo.not_strictly_zero lon); reflexivity. }
  rewrite Both, andb_false_iff, Lat, Lon.
  assert (NotNull : forall lo hi, ~ outside lo hi Geo.Null /\ ~ is_zero Geo.Null).
  { intros lo hi. split; intros [a [E _]]; discriminate E. }
  split; [tauto|]. split; intros ->.
  - destruct (NotNull (-90)%float 90%float). intuition discriminate.
  - destruct (NotNull (-180)%float 180%float). intuition discriminate.
Qed.

(** ** The link store *)

Section StoreFacts.
Import Db.

Lemma find_map_same {A} (p : A -> bool) (f : A -> A) (l : list A) :
  (forall x, p (f x) = p x) ->
  find p (map f l) = option_map f (find p l).
Proof.
  intros P. induction l as [|x l IH]; cbn; [reflexivity|].
  rewrite P. destruct (p x); [reflexivity|exact IH].
Qed.

Lemma NoDup_map_inj {A B} (f : A -> B) (l : list A) (x y : A) :
  NoDup (map f l) -> In x l -> In y l -> f x = f y -> x = y.
Proof.
  induction l as [|a l IH]; cbn; [tauto|].
  intros ND Ix Iy E. inversion ND as [|? ? N ND']; subst.
  destruct Ix as [<-|Ix], Iy as [<-|Iy]; auto.
  - exfalso. apply N. rewrite E. apply in_map, Iy.
  - exfalso. apply N. rewrite <- E. apply in_map, Ix.
Qed.

(** The lookup by code sees active links only. *)
Lemma getLinkByCode_active db code l :
  getLinkByCode db code = Some l ->
  In l (links db) /\ TrackingLink.short_code l = code /\ TrackingLink.active l = true.
Proof.
  unfold getLinkByCode. intros F. apply find_some in F. destruct F as [I P].
  apply andb_true_iff in P. destruct P as [P1 P2]. apply String.eqb_eq in P1. auto.
Qed.

Lemma getLinkByCode_inactive db code l :
  NoDup (map TrackingLink.short_code (links db)) ->
  In l (links db) -> TrackingLink.short_code l = code -> TrackingLink.active l = false ->
  getLinkByCode db code = None.
Proof.
  intros ND I C A. destruct (getLinkByCode db code) as [l'|] eqn:G; [|reflexivity].
  apply getLinkByCode_active in G. destruct G as [I' [C' A']].
  assert (l' = l) by (apply (NoDup_map_inj _ _ _ _ ND I' I); congruence).
  subst. congruence.
Qed.

Lemma getLinkByCode_unknown db code :
  ~ In code (map TrackingLink.short_code (links db)) -> getLinkByCode db code = None.
Proof.
  intros N. destruct (getLinkByCode db code) as [l'|] eqn:G; [|reflexivity].
  apply getLinkByCode_active in G. destruct G as [I' [C' _]].
  exfalso. apply N. rewrite <- C'. apply in_map, I'.
Qed.

Lemma code_taken db code l :
  In l (links db) -> TrackingLink.short_code l = code ->
  existsb (fun l => String.eqb (TrackingLink.short_code l) code) (links db) = true.
Proof.
  intros I C. apply existsb_exists. exists l. split; [exact I|].
  apply String.eqb_eq, C.
Qed.

(** Codes stay pairwise distinct over the whole table, whatever the
    activity flags: the insert refuses a code that is present. *)
Lemma insert_link_unique db code url t d now row db' :
  NoDup (map TrackingLink.short_code (links db)) ->
  insert_link db code url t d now = Return (row, db') ->
  NoDup (map TrackingLink.short_code (links db')) /\ links db' = links db ++ [row]
  /\ TrackingLink.clicks row = 0.
Proof.
  unfold insert_link. intros ND.
  destruct (existsb _ (links db)) eqn:E; [discriminate|].
  intros R. inversion R; subst; clear R. cbn. repeat split.
  rewrite map_app. cbn. apply NoDup_app; [exact ND|repeat constructor; auto|].
  intros c I [<-|[]]. apply in_map_iff in I. destruct I as [l [C I]].
  rewrite (code_taken db _ l I C) in E. discriminate.
Qed.
End StoreFacts.

(** ** What an update may touch *)

(** The columns no update request can name. *)
Definition fixed_columns (l : TrackingLink.t) : Z * string * string * Z * Z :=
  (TrackingLink.id l, TrackingLink.short_code l, TrackingLink.original_url l,
   TrackingLink.created_at l, TrackingLink.clicks l).

(** Every column but the counter. *)
Definition but_clicks (l : TrackingLink.t)
    : Z * string * string * option string * option string * Z * Z * bool :=
  (TrackingLink.id l, TrackingLink.short_code l, TrackingLink.original_url l,
   TrackingLink.title l, TrackingLink.description l, TrackingLink.created_at l,
   TrackingLink.updated_at l, TrackingLink.active l).

Lemma updateLink_rows db id data now :
  map fixed_columns (Db.links (snd (Db.updateLink db id data now)))
  = map fixed_columns (Db.links db).
Proof.
  unfold Db.updateLink. destruct (Db.no_updates data); cbn; [reflexivity|].
  rewrite map_map. apply map_ext. intros l.
  destruct (TrackingLink.id l =? id); reflexivity.
Qed.

Lemma updateLink_result db id data now :
  option_map fixed_columns (fst (Db.updateLink db id data now))
  = option_map fixed_columns (Db.getLinkById db id).
Proof.
  unfold Db.updateLink. destruct (Db.no_updates data); cbn; [reflexivity|].
  unfold Db.getLinkById. cbn.
  rewrite find_map_same.
  - destruct (find _ (Db.links db)) as [l|] eqn:F; cbn; [|reflexivity].
    destruct (TrackingLink.id l =? id); reflexivity.
  - intros l. destruct (TrackingLink.id l =? id) eqn:E; cbn; rewrite ?E; reflexivity.
Qed.

Lemma recordClick_rows db linkId clickData now row db' :
  Db.recordClick db linkId clickData now = Return (row, db') ->
  map but_clicks (Db.links db') = map but_clicks (Db.links db)
  /\ map TrackingLink.clicks (Db.links db')
     = map (fun l => if TrackingLink.id l =? linkId
                     then TrackingLink.clicks l + 1 else TrackingLink.clicks l)
           (Db.links db)
  /\ Db.clicks db' = Db.clicks db ++ [row]
  /\ ClickEvent.link_id row = linkId.
Proof.
  unfold Db.recordClick. destruct (negb _); [discriminate|].
  intros R. inversion R; subst; clear R. cbn. repeat split.
  - rewrite map_map. apply map_ext. intros l.
    destruct (TrackingLink.id l =? linkId); reflexivity.
  - rewrite map_map. apply map_ext. intros l.
    destruct (TrackingLink.id l =? linkId); reflexivity.
Qed.

Lemma createLink_rows db data now randoms row db' :
  Db.createLink db data now randoms = Return (row, db') ->
  Db.links db' = Db.links db ++ [row] /\ TrackingLink.clicks row = 0
  /\ Db.clicks db' = Db.clicks db.
Proof.
  unfold Db.createLink, Db.insert_link.
  destruct (CreateLinkRequest.custom_code data) as [[|a c]|].
  1,3: destruct (Db.generate_until_free db _ randoms); [|discriminate].
  3: destruct (Db.getLinkByCode db (String a c)); [discriminate|].
  all: destruct (existsb _ (Db.links db)); [discriminate|];
       intros R; inversion R; subst; cbn; auto.
Qed.

(** C9.  Whatever [updateLink] is asked (any of title, description, active,
    for any id), every row keeps its id, short code, original URL, creation
    time and click counter, and so does the row it returns.  Of the other
    writers, [createLink] only appends a row whose counter is 0 and
    [deleteLink] only removes rows; [recordClick] is the one that changes a
    counter: by one, on the link it is given, with one click appended. *)
Theorem clicks_change_only_in_recordClick (db : Db.Database) :
  (forall id data now,
      map fixed_columns (Db.links (snd (Db.updateLink db id data now)))
      = map fixed_columns (Db.links db)
      /\ option_map fixed_columns (fst (Db.updateLink db id data now))
         = option_map fixed_columns (Db.getLinkById db id)
      /\ Db.clicks (snd (Db.updateLink db id data now)) = Db.clicks db)
  /\ (forall data now randoms,
         match Db.createLink db data now randoms with
         | Return (row, db') =>
             Db.links db' = Db.links db ++ [row] /\ TrackingLink.clicks row = 0
         | _ => True
         end)
  /\ (forall id,
         Db.links (snd (Db.deleteLink db id))
         = filter (fun l => negb (TrackingLink.id l =? id)) (Db.links db))
  /\ (forall linkId clickData now,
         match Db.recordClick db linkId clickData now with
         | Return (row, db') =>
             map but_clicks (Db.links db') = map but_clicks (Db.links db)
             /\ map TrackingLink.clicks (Db.links db')
                = map (fun l => if TrackingLink.id l =? linkId
                                then TrackingLink.clicks l + 1 else TrackingLink.clicks l)
                      (Db.links db)
             /\ Db.clicks db' = Db.clicks db ++ [row]
         | _ => True
         end).
Proof.
  split; [|split; [|split]].
  - intros id data now. split; [apply updateLink_rows|]. split; [apply updateLink_result|].
    unfold Db.updateLink. destruct (Db.no_updates data); reflexivity.
  - intros data now randoms.
    destruct (Db.createLink db data now randoms) as [[row db']| |] eqn:C; [|exact I..].
    apply createLink_rows in C. tauto.
  - reflexivity.
  - intros linkId clickData now.
    destruct (Db.recordClick db linkId clickData now) as [[row db']| |] eqn:C; [|exact I..].
    apply recordClick_rows in C. tauto.
Qed.

(** ** A deactivated link *)

(** Eight values of [Math.random()], and the code they spell. *)
Definition eight_draws : list float := [0.1; 0.2; 0.3; 0.4; 0.5; 0.6; 0.7; 0.8]%float.

Example eight_draws_code : Db.generateShortCode 8 eight_draws = Some ("GMSYflrx", []).
Proof. vm_compute. reflexivity. Qed.

(** The store after a link was created at time 1000 with those draws and
    deactivated at time 2000. *)
Definition deactivated_link : TrackingLink.t :=
  TrackingLink.mk 1 "GMSYflrx" "https://example.com" None None 1000 2000 0 false.

Definition store_with_deactivated_link : Db.Database :=
  Db.mkDatabase [deactivated_link] [] 1 0.

Example store_with_deactivated_link_reached :
  match Db.createLink Db.empty
          (CreateLinkRequest.mk "https://example.com" None None None) 1000 eight_draws with
  | Return (l, db1) =>
      snd (Db.updateLink db1 (TrackingLink.id l)
             (UpdateLinkRequest.mk None None (Some false)) 2000)
      = store_with_deactivated_link
  | _ => False
  end.
Proof. vm_compute. reflexivity. Qed.

(** C3.  A custom code that is the code of a deactivated link passes the
    existence check of [createLink], which looks among active links only;
    the insert then fails on the UNIQUE constraint, and that error is
    answered 500, not 409.  A generated code that meets a deactivated link
    ends the same way, the loop having accepted it.  (The specification
    asks for a Conflict in the first case and for no collision in the
    second.) *)
Theorem createLink_code_of_inactive_link db l code url t d now randoms rest :
  NoDup (map TrackingLink.short_code (Db.links db)) ->
  In l (Db.links db) ->
  TrackingLink.short_code l = code ->
  TrackingLink.active l = false ->
  code <> "" ->
  Db.createLink db (CreateLinkRequest.mk url t d (Some code)) now randoms
  = Throw Db.UNIQUE_short_code
  /\ (Db.generateShortCode 8 randoms = Some (code, rest) ->
      Db.createLink db (CreateLinkRequest.mk url t d None) now randoms
      = Throw Db.UNIQUE_short_code)
  /\ Db.createLink_error_status Db.UNIQUE_short_code = 500.
Proof.
  intros ND I C A NE.
  pose proof (getLinkByCode_inactive db code l ND I C A) as G.
  pose proof (code_taken db code l I C) as T.
  destruct code as [|a code]; [congruence|].
  unfold Db.createLink, Db.insert_link. cbn [CreateLinkRequest.custom_code].
  rewrite G, T. split; [reflexivity|]. split; [|reflexivity].
  intros Gen.
  destruct randoms as [|r randoms]; [discriminate|].
  cbn [List.length Db.generate_until_free]. rewrite Gen, G, T. reflexivity.
Qed.

Lemma createLink_code_of_inactive_link_witness :
  Db.createLink store_with_deactivated_link
    (CreateLinkRequest.mk "https://example.org" None None (Some "GMSYflrx")) 3000 []
  = Throw Db.UNIQUE_short_code
  /\ Db.createLink store_with_deactivated_link
       (CreateLinkRequest.mk "https://example.org" None None None) 3000 eight_draws
     = Throw Db.UNIQUE_short_code
  /\ Db.createLink_error_status Db.UNIQUE_short_code = 500.
Proof.
  pose proof (createLink_code_of_inactive_link store_with_deactivated_link deactivated_link
                "GMSYflrx" "https://example.org" None None 3000) as T.
  split; [|split].
  - apply (T [] []); try reflexivity.
    + repeat constructor; cbn; tauto.
    + left; reflexivity.
    + discriminate.
  - apply (T eight_draws []); try reflexivity.
    + repeat constructor; cbn; tauto.
    + left; reflexivity.
    + discriminate.
  - reflexivity.
Defined.

(** The part of C3 the code keeps: codes are unique over the whole table,
    and a custom code of an active link is refused with the message that is
    answered 409. *)
Lemma createLink_keeps_codes_unique db data now randoms row db' :
  NoDup (map TrackingLink.short_code (Db.links db)) ->
  Db.createLink db data now randoms = Return (row, db') ->
  NoDup (map TrackingLink.short_code (Db.links db')).
Proof.
  unfold Db.createLink. intros ND.
  destruct (CreateLinkRequest.custom_code data) as [[|a c]|].
  1,3: destruct (Db.generate_until_free db _ randoms); [|discriminate].
  3: destruct (Db.getLinkByCode db (String a c)); [discriminate|].
  all: intros R; apply insert_link_unique in R; tauto.
Qed.

Lemma createLink_code_of_active_link db l code url t d now randoms :
  In l (Db.links db) -> TrackingLink.short_code l = code ->
  TrackingLink.active l = true -> code <> "" ->
  Db.createLink db (CreateLinkRequest.mk url t d (Some code)) now randoms
  = Throw "Custom short code already exists"
  /\ Db.createLink_error_status "Custom short code already exists" = 409.
Proof.
  intros I C A NE. unfold Db.createLink. cbn.
  destruct code; [congruence|].
  destruct (Db.getLinkByCode db (String a code)) eqn:G; [split; reflexivity|].
  exfalso. unfold Db.getLinkByCode in G.
  apply (find_none _ _ G) in I. rewrite C, String.eqb_refl, A in I. discriminate.
Qed.

(** The scenario of the specification: a link created without a custom
    code gets a code of length 8 over the alphanumeric alphabet, and that
    code fetches the link with its destination. *)
Example createLink_generated_code :
  match Db.createLink Db.empty
          (CreateLinkRequest.mk "https://example.com" None None None) 1000 eight_draws with
  | Return (l, db1) =>
      String.length (TrackingLink.short_code l) = 8%nat
      /\ TrackingLink.short_code l = "GMSYflrx"
      /\ option_map TrackingLink.original_url
           (Db.getLinkByCode db1 (TrackingLink.short_code l))
         = Some "https://example.com"
  | _ => False
  end.
Proof. vm_compute. repeat split. Qed.

(** ** The tracking handler *)

Definition offline : Geo.Network :=
  Geo.mkNetwork (fun _ => Geo.FetchFailed) (fun _ => Geo.FetchFailed).

Definition fresh_world : Geo.World :=
  Geo.mkWorld (Geo.mkRateLimit 0 3600000) 5000 [].

(** A host for the examples: its [URL] takes [https://] followed by a host
    name, and serialises it with the path [/]. *)
Definition example_redirects : Track.Redirects :=
  {| Track.URL_href :=
       fun url => if startsWith "https://" url && negb (includes (drop 8 url) "/")
                  then Some (url ++ "/")%string else None |}.

Section TrackingHandler.
Context `{Track.Redirects}.

(** C1.  A tracking request for the code of a deactivated link is answered
    404 "Link not found": the lookup returns active links only, so the
    handler's own 410 branch is never reached.  Store, call budget and
    request log are left as they were.  (The specification asks for Gone.) *)
Theorem GET_track_deactivated_link net db headers code w l :
  NoDup (map TrackingLink.short_code (Db.links db)) ->
  In l (Db.links db) ->
  TrackingLink.short_code l = code ->
  TrackingLink.active l = false ->
  code <> "" ->
  Track.GET net db headers code w = ((Track.Json 404 "Link not found", db), w).
Proof.
  intros ND I C A NE. unfold Track.GET.
  destruct code; [congruence|].
  rewrite (getLinkByCode_inactive db _ l ND I C A). reflexivity.
Qed.

(** The parts of C1 the code keeps: an unknown code is answered 404, and
    neither answer touches the store. No request at all is answered 410. *)
Lemma GET_track_unknown_code net db headers code w :
  ~ In code (map TrackingLink.short_code (Db.links db)) ->
  code <> "" ->
  Track.GET net db headers code w = ((Track.Json 404 "Link not found", db), w).
Proof.
  intros N NE. unfold Track.GET. destruct code; [congruence|].
  rewrite (getLinkByCode_unknown db _ N). reflexivity.
Qed.

Lemma GET_track_never_Gone net db headers code w error :
  fst (fst (Track.GET net db headers code w)) <> Track.Json 410 error.
Proof.
  unfold Track.GET. destruct code; [cbn; discriminate|].
  destruct (Db.getLinkByCode db _) as [l|] eqn:G; [|cbn; discriminate].
  apply getLinkByCode_active in G. destruct G as [_ [_ A]]. rewrite A. cbn.
  unfold Geo.bind.
  destruct (Geo.getLocationWithFallback _ _ _) as [loc w1]. cbn.
  destruct (Track.URL_href _); cbn; discriminate.
Qed.

End TrackingHandler.

Lemma GET_track_deactivated_link_witness :
  @Track.GET example_redirects offline store_with_deactivated_link [] "GMSYflrx" fresh_world
  = ((Track.Json 404 "Link not found", store_with_deactivated_link), fresh_world).
Proof.
  apply (@GET_track_deactivated_link example_redirects offline store_with_deactivated_link
           [] "GMSYflrx" fresh_world deactivated_link).
  - repeat constructor; cbn; tauto.
  - left; reflexivity.
  - reflexivity.
  - reflexivity.
  - discriminate.
Defined.

(* ================================================================== *)
(** * Part X. Private addresses and the call budget                     *)
(* ================================================================== *)

(** ** Dotted quads *)

Definition octet (n : nat) : string := NilEmpty.string_of_uint (Nat.to_uint n).

Definition dotted (a b c d : nat) : string :=
  (octet a ++ "." ++ octet b ++ "." ++ octet c ++ "." ++ octet d)%string.

(** The addresses the specification lists: loopback, and the private and
    link-local IPv4 ranges. *)
Inductive PrivateAddress : string -> Prop :=
| Loopback4 : PrivateAddress "127.0.0.1"
| Loopback6 : PrivateAddress "::1"
| Net10 b c d :
    (b <= 255)%nat -> (c <= 255)%nat -> (d <= 255)%nat ->
    PrivateAddress (dotted 10 b c d)
| Net172 b c d :
    (16 <= b <= 31)%nat -> (c <= 255)%nat -> (d <= 255)%nat ->
    PrivateAddress (dotted 172 b c d)
| Net192 c d :
    (c <= 255)%nat -> (d <= 255)%nat ->
    PrivateAddress (dotted 192 168 c d)
| Net169 c d :
    (c <= 255)%nat -> (d <= 255)%nat ->
    PrivateAddress (dotted 169 254 c d).

Fixpoint has_no (c : ascii) (s : string) : bool :=
  match s with
  | EmptyString => true
  | String a s' => negb (Ascii.eqb a c) && has_no c s'
  end.

Lemma split_no_separator c s : has_no c s = true -> split c s = [s].
Proof.
  induction s as [|a s IH]; cbn; [reflexivity|].
  intros E. apply andb_true_iff in E. destruct E as [E1 E2].
  apply negb_true_iff in E1. rewrite E1, (IH E2). reflexivity.
Qed.

Lemma split_at_separator c s t :
  has_no c s = true -> split c (s ++ String c t)%string = s :: split c t.
Proof.
  induction s as [|a s IH]; cbn.
  - intros _. rewrite Ascii.eqb_refl. reflexivity.
  - intros E. apply andb_true_iff in E. destruct E as [E1 E2].
    apply negb_true_iff in E1. rewrite E1, (IH E2). reflexivity.
Qed.

Lemma octet_facts n :
  (n <= 255)%nat ->
  has_no "." (octet n) = true /\ parseInt (octet n) = Some (Z.of_nat n).
Proof.
  intros L.
  assert (A : forallb (fun n => has_no "." (octet n)
                                && match parseInt (octet n) with
                                   | Some v => v =? Z.of_nat n
                                   | None => false
                                   end) (seq 0 256) = true)
    by (vm_compute; reflexivity).
  rewrite forallb_forall in A. specialize (A n).
  rewrite in_seq in A. specialize (A ltac:(lia)).
  apply andb_true_iff in A. destruct A as [A1 A2]. split; [exact A1|].
  destruct (parseInt (octet n)) as [v|]; [|discriminate].
  apply Z.eqb_eq in A2. congruence.
Qed.

Lemma split_dotted a b c d :
  (a <= 255)%nat -> (b <= 255)%nat -> (c <= 255)%nat -> (d <= 255)%nat ->
  split "." (dotted a b c d) = [octet a; octet b; octet c; octet d].
Proof.
  intros A B C D. unfold dotted. cbn [String.append].
  rewrite !split_at_separator, split_no_separator by (apply octet_facts; assumption).
  reflexivity.
Qed.

(** A dotted quad is no loopback literal unless its first octet says so, and
    it carries no IPv4-mapped prefix. *)
Lemma dotted_literal a b c d :
  (a =? 10)%nat || (a =? 172)%nat || (a =? 192)%nat || (a =? 169)%nat = true ->
  strip_prefix "::ffff:" (dotted a b c d) = dotted a b c d
  /\ String.eqb (dotted a b c d) "127.0.0.1" = false
  /\ String.eqb (dotted a b c d) "::1" = false
  /\ String.eqb (dotted a b c d) "localhost" = false.
Proof.
  intros E.
  repeat (apply orb_true_iff in E; destruct E as [E|E]);
    apply Nat.eqb_eq in E; subst a; cbn; repeat split.
Qed.

Lemma isPrivateIP_dotted a b c d :
  (a <= 255)%nat -> (b <= 255)%nat -> (c <= 255)%nat -> (d <= 255)%nat ->
  (a =? 10)%nat || (a =? 172)%nat || (a =? 192)%nat || (a =? 169)%nat = true ->
  Geo.isPrivateIP (dotted a b c d) =
  let first := Z.of_nat a in
  let second := Z.of_nat b in
  if first =? 10 then true
  else if (first =? 172) && ((16 <=? second) && (second <=? 31)) then true
  else if (first =? 192) && (second =? 168) then true
  else if (first =? 169) && (second =? 254) then true
  else false.
Proof.
  intros A B C D E. unfold Geo.isPrivateIP.
  destruct (dotted_literal a b c d E) as [-> [-> [-> ->]]]. cbn [orb].
  rewrite split_dotted by assumption.
  rewrite (proj2 (octet_facts a A)), (proj2 (octet_facts b B)). reflexivity.
Qed.

Lemma isPrivateIP_PrivateAddress ip : PrivateAddress ip -> Geo.isPrivateIP ip = true.
Proof.
  intros [| |b c d B C D|b c d B C D|c d C D|c d C D];
    try reflexivity;
    rewrite isPrivateIP_dotted by (try reflexivity; lia); cbn zeta.
  - reflexivity.
  - change (Z.of_nat 172 =? 10) with false. change (Z.of_nat 172 =? 172) with true.
    cbn [andb].
    replace ((16 <=? Z.of_nat b) && (Z.of_nat b <=? 31)) with true; [reflexivity|].
    symmetry. apply andb_true_iff. split; apply Z.leb_le; lia.
  - reflexivity.
  - reflexivity.
Qed.

(** ** The resolver on a private address *)

(** Whether the budget allows a call: the window has elapsed, or fewer than
    900 calls are on record. *)
Definition budget_open (w : Geo.World) : bool :=
  (Geo.resetTime (Geo.rateLimiter w) <? Geo.Date_now w)
  || (Geo.calls (Geo.rateLimiter w) <? Geo.maxCalls).

Definition exhausted_world : Geo.World :=
  Geo.mkWorld (Geo.mkRateLimit 900 3600000) 5000 [].

(** C2, as stated in the specification, fails on the code: with the budget
    used up, the private address 10.0.0.1 resolves to the [unknown]
    sentinel, not to the [private_ip] one. *)
Lemma private_address_with_exhausted_budget :
  Geo.isPrivateIP "10.0.0.1" = true
  /\ budget_open exhausted_world = false
  /\ fst (Geo.getLocationWithFallback offline "10.0.0.1" exhausted_world)
     = Geo.getFallbackLocation
  /\ GeolocationData.status Geo.getFallbackLocation = Some "unknown"
  /\ GeolocationData.status Geo.privateLocation = Some "private_ip".
Proof. repeat split. Qed.

(** C2 (amended).  For every private or loopback address (10.0.0.0/8,
    172.16.0.0/12, 192.168.0.0/16, 169.254.0.0/16, 127.0.0.1, ::1),
    [getLocationWithFallback] performs no external provider call, whatever
    the state of the call budget and whatever the providers would answer.
    Its result is the [private_ip] sentinel when the budget allows a call,
    and the [unknown] sentinel when the budget is exhausted. *)
Theorem private_address_resolution (net : Geo.Network) (ip : string) (w : Geo.World) :
  PrivateAddress ip ->
  Geo.sent (snd (Geo.getLocationWithFallback net ip w)) = Geo.sent w
  /\ fst (Geo.getLocationWithFallback net ip w)
     = (if budget_open w then Geo.privateLocation else Geo.getFallbackLocation).
Proof.
  intros P. apply isPrivateIP_PrivateAddress in P.
  unfold Geo.getLocationWithFallback, Geo.bind, Geo.canMakeCall, budget_open.
  destruct w as [[calls resetTime] now sent]. cbn.
  destruct (resetTime <? now) eqn:R; cbn.
  - unfold Geo.getLocationFromIP. rewrite P. cbn. split; reflexivity.
  - destruct (calls <? Geo.maxCalls) eqn:C; cbn; [|split; reflexivity].
    unfold Geo.getLocationFromIP. rewrite P. cbn. split; reflexivity.
Qed.

Lemma private_address_resolution_witness :
  Geo.sent (snd (Geo.getLocationWithFallback offline (dotted 172 16 0 1) fresh_world))
  = Geo.sent fresh_world
  /\ fst (Geo.getLocationWithFallback offline (dotted 172 16 0 1) fresh_world)
     = (if budget_open fresh_world then Geo.privateLocation else Geo.getFallbackLocation).
Proof.
  apply (private_address_resolution offline (dotted 172 16 0 1) fresh_world).
  apply Net172; lia.
Defined.

(* ================================================================== *)
(** * Part XI. The aggregations                                         *)
(* ================================================================== *)

Definition total (ns : list nat) : nat := fold_right Nat.add 0%nat ns.

Lemma total_app (a b : list nat) : total (a ++ b) = (total a + total b)%nat.
Proof. unfold total. induction a as [|x a IH]; cbn; [reflexivity|]. rewrite IH. lia. Qed.

Lemma filter_map_length {A B} (p : B -> bool) (f : A -> B) (l : list A) :
  List.length (filter p (map f l)) = List.length (filter (fun x => p (f x)) l).
Proof.
  induction l as [|x l IH]; cbn; [reflexivity|].
  destruct (p (f x)); cbn; rewrite IH; reflexivity.
Qed.

(** A click of link 1 for the examples: address, referrer, position
    (latitude, longitude) and time. *)
Definition a_click (id : Z) (ip : string) (referer : option string)
    (position : option (float * float)) (timestamp : Z) : ClickEvent.t :=
  ClickEvent.mk id 1 ip None referer None None None None
    (option_map fst position) (option_map snd position) None None timestamp.

(** ** The daily series *)

Section Trends.
Import Analytics.

Lemma upto_In_range (n i : Z) : In i (upto n) -> 0 <= i < n.
Proof.
  unfold upto. intros I. apply in_map_iff in I. destruct I as [k [<- I]].
  apply in_seq in I. lia.
Qed.

Lemma isoDate_shift (now days i : Z) :
  isoDate (now - days * 24 * 60 * 60 * 1000 + i * 24 * 60 * 60 * 1000)
  = isoDate now - days + i.
Proof.
  unfold isoDate, MS_PER_DAY.
  replace (now - days * 24 * 60 * 60 * 1000 + i * 24 * 60 * 60 * 1000)
    with (now + (i - days) * (24 * 60 * 60 * 1000)) by lia.
  rewrite Z.div_add by lia. lia.
Qed.

(** Counting day by day over consecutive days is counting over the window. *)
Lemma window_count (keys : list Z) (lo : Z) (n : nat) :
  total (map (fun i => occurrences (lo + i) keys) (map Z.of_nat (seq 0 n)))
  = List.length (filter (fun k => (lo <=? k) && (k <? lo + Z.of_nat n)) keys).
Proof.
  induction n as [|n IH].
  - cbn. induction keys as [|k keys IHk]; cbn; [reflexivity|].
    replace ((lo <=? k) && (k <? lo + 0)) with false; [exact IHk|].
    symmetry. apply andb_false_iff. destruct (Z.leb_spec lo k); [right|left; reflexivity].
    apply Z.ltb_ge. lia.
  - rewrite seq_S, !map_app, total_app, IH. clear IH.
    rewrite Nat2Z.inj_succ. unfold total, occurrences.
    cbn [map fold_right Nat.add keqb KeyEq_Z]. rewrite Nat.add_0_r.
    induction keys as [|k keys IHk]; cbn [filter]; [reflexivity|].
    destruct (Z.leb_spec lo k), (Z.ltb_spec k (lo + Z.of_nat n)),
             (Z.ltb_spec k (lo + Z.succ (Z.of_nat n))), (Z.eqb_spec k (lo + Z.of_nat n));
      cbn [andb List.length]; lia.
Qed.

(** The time values a [Date] can hold. *)
Definition in_Date_range (t : Z) : Prop :=
  -8640000000000000 <= t <= 8640000000000000.

Lemma Date_valid_range t : Date_valid t = true <-> in_Date_range t.
Proof. unfold Date_valid, in_Date_range. rewrite andb_true_iff, !Z.leb_le. tauto. Qed.

(** What the code enumerates: the [days] UTC days that end on the day
    before the UTC day of [now], each with the number of events of that
    day.  (An event of the UTC day of [now] itself is in no point.) *)
Lemma calculateClickTrends_days (now : Z) (clicks : list ClickEvent.t) (days : Z) :
  0 <= days ->
  in_Date_range now ->
  in_Date_range (now - days * MS_PER_DAY) ->
  Forall (fun c => in_Date_range (ClickEvent.timestamp c)) clicks ->
  let day c := isoDate (ClickEvent.timestamp c) in
  let first := isoDate now - days in
  calculateClickTrends now clicks days
  = Return (map (fun i => TimeSeriesData.mk (first + i)
                            (List.length (filter (fun c => day c =? first + i) clicks)))
                (upto days)).
Proof.
  intros D Vn Vs Vc day first. unfold calculateClickTrends.
  replace (now - days * 24 * 60 * 60 * 1000) with (now - days * MS_PER_DAY)
    by (unfold MS_PER_DAY; lia).
  rewrite (proj2 (Date_valid_range _) Vs), andb_false_r.
  replace (forallb Date_valid _) with true.
  2:{ symmetry. apply forallb_forall. intros t It. apply in_map_iff in It.
      destruct It as [i [<- Ii]]. apply upto_In_range in Ii.
      apply Date_valid_range. unfold in_Date_range, MS_PER_DAY in *. lia. }
  replace (forallb (fun c => Date_valid (ClickEvent.timestamp c)) clicks) with true.
  2:{ symmetry. apply forallb_forall. intros c Ic. apply Date_valid_range.
      rewrite Forall_forall in Vc. apply Vc, Ic. }
  cbn [negb]. f_equal. rewrite !map_map. apply map_ext. intros i.
  replace (now - days * MS_PER_DAY + i * 24 * 60 * 60 * 1000)
    with (now - days * 24 * 60 * 60 * 1000 + i * 24 * 60 * 60 * 1000)
    by (unfold MS_PER_DAY; lia).
  rewrite isoDate_shift. fold first. f_equal.
  pose proof (tally_get [] (map (fun c => isoDate (ClickEvent.timestamp c)) clicks)
                (first + i)) as T.
  cbn [Map_get or_zero Nat.add] in T. rewrite T. unfold occurrences.
  apply filter_map_length.
Qed.


End Trends.

Definition one_day : Z := Analytics.MS_PER_DAY.

Definition five_clicks : list ClickEvent.t :=
  [a_click 1 "198.51.100.1" None None (7 * one_day + 1);
   a_click 2 "198.51.100.2" None None (9 * one_day + 2);
   a_click 3 "198.51.100.3" None None (9 * one_day + 3);
   a_click 4 "198.51.100.4" None None (10 * one_day + 4);
   a_click 5 "198.51.100.5" None None (2 * one_day)].


(** On that input: one event three days back, none two days back, two
    yesterday; the event of today and the old one are in no point. *)
Example calculateClickTrends_three_days :
  Analytics.calculateClickTrends (10 * one_day + 5000) five_clicks 3
  = Return [Analytics.TimeSeriesData.mk 7 1; Analytics.TimeSeriesData.mk 8 0;
            Analytics.TimeSeriesData.mk 9 2].
Proof. vm_compute. reflexivity. Qed.


(** ** The geographic points *)

Section ValueMaps.
Context {K V W : Type} `{KeyEq K} (f : V -> W).

Definition map_values (m : list (K * V)) : list (K * W) :=
  map (fun e => (fst e, f (snd e))) m.

Lemma Map_get_map_values m k :
  Map_get (map_values m) k = option_map f (Map_get m k).
Proof.
  induction m as [|[k0 v0] m IH]; cbn; [reflexivity|].
  destruct (keqb k0 k); [reflexivity|exact IH].
Qed.

Lemma Map_set_map_values m k v :
  map_values (Map_set m k v) = Map_set (map_values m) k (f v).
Proof.
  induction m as [|[k0 v0] m IH]; cbn; [reflexivity|].
  destruct (keqb k0 k); cbn; [reflexivity|]. f_equal. exact IH.
Qed.
End ValueMaps.

Section Geography.
Import Analytics.

(** The keys of the clicks the code groups, in click order. *)
Definition grouped_keys (clicks : list ClickEvent.t) : list (float * float) :=
  flat_map (fun c => match location_key c with Some k => [k] | None => [] end) clicks.

(** Whether a click is grouped under these coordinates. *)
Definition grouped_at (lat lon : float) (c : ClickEvent.t) : bool :=
  match location_key c with
  | Some k => keqb k (lat, lon)
  | None => false
  end.

Lemma occurrences_grouped_keys clicks lat lon :
  occurrences (lat, lon) (grouped_keys clicks)
  = List.length (filter (grouped_at lat lon) clicks).
Proof.
  unfold occurrences, grouped_keys, grouped_at.
  induction clicks as [|c clicks IH]; [reflexivity|].
  cbn [flat_map filter]. destruct (location_key c) as [k|]; cbn [app filter]; [|exact IH].
  destruct (keqb k (lat, lon)); cbn [List.length]; rewrite IH; reflexivity.
Qed.

(** Counting apart, grouping by location is tallying the location keys. *)
Lemma group_location_counts clicks m :
  map_values Location.clicks (fold_left group_location clicks m)
  = tally (map_values Location.clicks m) (grouped_keys clicks).
Proof.
  unfold tally, grouped_keys. revert m.
  induction clicks as [|c clicks IH]; intros m; cbn [fold_left flat_map]; [reflexivity|].
  rewrite IH. unfold group_location.
  destruct (location_key c) as [k|]; cbn [app fold_left]; [|reflexivity].
  f_equal. unfold Map_bump. rewrite Map_get_map_values.
  destruct (Map_get m k) as [existing|]; rewrite Map_set_map_values; cbn; f_equal; lia.
Qed.

(** Each entry keeps the coordinates of its key, longitude first. *)
Lemma group_location_coordinates clicks m :
  Forall (fun e => Location.coordinates (snd e) = (snd (fst e), fst (fst e))) m ->
  Forall (fun e => Location.coordinates (snd e) = (snd (fst e), fst (fst e)))
         (fold_left group_location clicks m).
Proof.
  revert m. induction clicks as [|c clicks IH]; intros m F; cbn [fold_left]; [exact F|].
  apply IH. unfold group_location.
  destruct (location_key c) as [k|]; [|exact F].
  assert (G : forall v, Location.coordinates v = (snd k, fst k) ->
                        Forall (fun e => Location.coordinates (snd e)
                                         = (snd (fst e), fst (fst e))) (Map_set m k v)).
  { intros v Cv. clear IH. induction F as [|[k0 v0] m E F IHF]; cbn [Map_set].
    - repeat constructor. exact Cv.
    - key_cases k0 k.
      + subst k0. constructor; [exact Cv|exact F].
      + constructor; [exact E|exact IHF]. }
  destruct (Map_get m k) as [existing|] eqn:Gk; apply G; cbn; [|reflexivity].
  apply Map_get_In in Gk. rewrite Forall_forall in F. apply (F _ Gk).
Qed.

(** ** The position an event carries *)

(** A number that is neither zero nor NaN. *)
Definition nonzero_number (x : float) : bool :=
  match classify x with
  | PZero | NZero | NaN => false
  | _ => true
  end.

(** The position an event carries: its latitude and longitude, when both
    are present and neither is 0 or NaN. *)
Definition position (c : ClickEvent.t) : option (float * float) :=
  match ClickEvent.latitude c, ClickEvent.longitude c with
  | Some lat, Some lon =>
      if nonzero_number lat && nonzero_number lon then Some (lat, lon) else None
  | _, _ => None
  end.

(** The positions of the events that carry one, in event order. *)
Definition positions (clicks : list ClickEvent.t) : list (float * float) :=
  flat_map (fun c => match position c with Some k => [k] | None => [] end) clicks.

(** Whether an event carries exactly this position. *)
Definition at_position (lat lon : float) (c : ClickEvent.t) : bool :=
  match position c with
  | Some k => keqb k (lat, lon)
  | None => false
  end.

Lemma SFcompare_finite_refl s m e :
  SFcompare (S754_finite s m e) (S754_finite s m e) = Some Eq.
Proof.
  cbn. rewrite Z.compare_refl.
  change (PosDef.Pos.compare_cont Eq m m) with (Pos.compare m m).
  rewrite Pos.compare_refl. destruct s; reflexivity.
Qed.

(** The truthiness test of the code lets through exactly the numbers that
    are neither zero nor NaN. *)
Lemma truthy_number_nonzero (x : float) : truthy_number x = nonzero_number x.
Proof.
  unfold truthy_number, nonzero_number, is_nan.
  rewrite !FloatAxioms.eqb_spec, classify_spec. unfold SFeqb.
  change (Prim2SF 0) with (S754_zero false).
  destruct (Prim2SF x) as [s|s| |s m e].
  - destruct s; reflexivity.
  - destruct s; reflexivity.
  - reflexivity.
  - rewrite SFcompare_finite_refl. unfold SF64classify, SFclassify.
    destruct s; destruct (Z.pos (digits2_pos m) =? prec); reflexivity.
Qed.

(** The key the code groups an event under is the position it carries. *)
Lemma location_key_position (c : ClickEvent.t) : location_key c = position c.
Proof.
  unfold location_key, position.
  destruct (ClickEvent.latitude c) as [lat|]; [|reflexivity].
  destruct (ClickEvent.longitude c) as [lon|]; [|reflexivity].
  rewrite !truthy_number_nonzero. reflexivity.
Qed.

Lemma grouped_keys_positions clicks : grouped_keys clicks = positions clicks.
Proof.
  unfold grouped_keys, positions. apply flat_map_ext. intros c.
  rewrite location_key_position. reflexivity.
Qed.

Lemma grouped_at_position lat lon clicks :
  filter (grouped_at lat lon) clicks = filter (at_position lat lon) clicks.
Proof.
  apply filter_ext. intros c. unfold grouped_at, at_position.
  rewrite location_key_position. reflexivity.
Qed.

Definition swap (k : float * float) : float * float := (snd k, fst k).

Lemma swap_injective : Injective swap.
Proof. intros [a b] [c d] E. inversion E. reflexivity. Qed.

(** C4, as stated in the specification, fails on the code: of two events,
    one at (51.5, -0.1) and one without coordinates, the single point gets
    50 percent, its share of both events; its share of the one event that
    carries coordinates is 100 percent. *)
Lemma calculateGeographicDistribution_share_of_all :
  let clicks := [a_click 1 "198.51.100.7" None (Some (51.5, -0.1)%float) 1000;
                 a_click 2 "198.51.100.8" None None 2000] in
  map MapDataPoint.clicks (calculateGeographicDistribution clicks) = [1%nat]
  /\ map MapDataPoint.percentage (calculateGeographicDistribution clicks) = [50%float]
  /\ List.length (positions clicks) = 1%nat
  /\ percentage 1 (List.length (positions clicks)) = 100%float.
Proof. repeat split; vm_compute; reflexivity. Qed.

(** The scenario of the specification: two events at (51.5, -0.1) make one
    point with two clicks. *)
Example calculateGeographicDistribution_same_place :
  calculateGeographicDistribution
    [a_click 1 "198.51.100.7" None (Some (51.5, -0.1)%float) 1000;
     a_click 2 "198.51.100.8" None (Some (51.5, -0.1)%float) 2000]
  = [MapDataPoint.mk (-0.1, 51.5)%float "Unknown" None 2 100%float].
Proof. vm_compute. reflexivity. Qed.

(** C4 (amended).  [calculateGeographicDistribution] groups the events that
    carry a position (a latitude and a longitude, both present and neither
    0 nor NaN) by the exact pair: the points have pairwise different
    coordinates; every such event is at one of them, and every point is the
    position of such an event; a point's [clicks] is the number of events at
    exactly its coordinates, so two events at the same position make one
    point with 2.
    A point's percentage is its count's share of all the events in the
    list, with or without position, rounded to 2 decimal places. *)
Theorem calculateGeographicDistribution_points (clicks : list ClickEvent.t) :
  let points := calculateGeographicDistribution clicks in
  NoDup (map MapDataPoint.coordinates points)
  /\ (forall p, In p points ->
        let lat := snd (MapDataPoint.coordinates p) in
        let lon := fst (MapDataPoint.coordinates p) in
        MapDataPoint.clicks p = List.length (filter (at_position lat lon) clicks)
        /\ (1 <= MapDataPoint.clicks p)%nat
        /\ MapDataPoint.percentage p
           = (Math_round (Number_of_nat (MapDataPoint.clicks p)
                          / Number_of_nat (List.length clicks) * 100 * 100) / 100)%float
        /\ exists c, In c clicks /\ position c = Some (lat, lon))
  /\ (forall c lat lon, In c clicks -> position c = Some (lat, lon) ->
        exists p, In p points /\ MapDataPoint.coordinates p = (lon, lat))
  /\ (forall c1 c2 lat lon,
        clicks = [c1; c2] ->
        position c1 = Some (lat, lon) -> position c2 = Some (lat, lon) ->
        map (fun p => (MapDataPoint.coordinates p, MapDataPoint.clicks p)) points
        = [((lon, lat), 2%nat)]).
Proof.
  intros points.
  set (m := fold_left group_location clicks []).
  pose proof (group_location_counts clicks []) as Counts. fold m in Counts.
  cbn [map_values map] in Counts.
  pose proof (group_location_coordinates clicks [] (Forall_nil _)) as Coords. fold m in Coords.
  assert (Keys : map fst m = distinct (positions clicks)).
  { rewrite <- grouped_keys_positions, <- tally_keys_distinct, <- Counts.
    unfold map_values. rewrite map_map. reflexivity. }
  assert (Pts : map MapDataPoint.coordinates points = map swap (map fst m)).
  { unfold points, calculateGeographicDistribution. fold m. rewrite !map_map.
    apply map_ext_in. intros e I. rewrite Forall_forall in Coords. apply (Coords e I). }
  assert (Carried : forall k, In k (positions clicks) <->
                              exists c, In c clicks /\ position c = Some k).
  { intros k. unfold positions. rewrite in_flat_map. split.
    - intros [c [I Ik]]. exists c. split; [exact I|].
      destruct (position c) as [k'|]; [|destruct Ik].
      destruct Ik as [<-|[]]. reflexivity.
    - intros [c [I E]]. exists c. split; [exact I|]. rewrite E. left. reflexivity. }
  split; [|split; [|split]].
  - rewrite Pts, Keys. apply Injective_map_NoDup; [exact swap_injective|].
    apply distinct_NoDup.
  - intros p I lat lon.
    unfold points, calculateGeographicDistribution in I. fold m in I.
    apply in_map_iff in I. destruct I as [[k v] [<- I]].
    cbn [snd MapDataPoint.clicks MapDataPoint.percentage MapDataPoint.coordinates] in *.
    assert (Ck : Location.coordinates v = (snd k, fst k))
      by (rewrite Forall_forall in Coords; apply (Coords _ I)).
    assert (T : In (k, Location.clicks v) (tally [] (grouped_keys clicks))).
    { rewrite <- Counts. unfold map_values. apply in_map_iff. exists (k, v). auto. }
    apply tally_entry in T. destruct T as [N Ik].
    assert (Ek : k = (lat, lon)) by (unfold lat, lon; rewrite Ck; destruct k; reflexivity).
    rewrite Ek in N, Ik. rewrite occurrences_grouped_keys in N.
    pose proof (occurrences_pos _ _ Ik) as Pos.
    rewrite occurrences_grouped_keys, <- N in Pos.
    rewrite grouped_at_position in N.
    split; [exact N|]. split; [exact Pos|]. split.
    + unfold percentage.
      assert (L : (Location.clicks v <= List.length clicks)%nat).
      { rewrite N. apply filter_length_le. }
      destruct (Nat.ltb_spec 0 (List.length clicks)); [reflexivity|lia].
    + apply Carried. rewrite <- grouped_keys_positions. exact Ik.
  - intros c lat lon Ic Kc.
    assert (Ik : In (lat, lon) (map fst m)).
    { rewrite Keys. apply distinct_In. apply Carried. exists c. auto. }
    assert (Ip : In (swap (lat, lon)) (map MapDataPoint.coordinates points))
      by (rewrite Pts; apply in_map; exact Ik).
    apply in_map_iff in Ip. destruct Ip as [p [E Ip]]. exists p. split; [exact Ip|exact E].
  - intros c1 c2 lat lon -> P1 P2.
    unfold points, calculateGeographicDistribution. cbn [fold_left].
    unfold group_location at 2. rewrite location_key_position, P1. cbn [Map_get Map_set].
    unfold group_location. rewrite location_key_position, P2.
    cbn [Map_get Map_set]. rewrite !keqb_refl. reflexivity.
Qed.

Definition two_at_one_place : list ClickEvent.t :=
  [a_click 1 "198.51.100.7" None (Some (51.5, -0.1)%float) 1000;
   a_click 2 "198.51.100.8" None (Some (51.5, -0.1)%float) 2000].

Lemma calculateGeographicDistribution_points_witness :
  map (fun p => (MapDataPoint.coordinates p, MapDataPoint.clicks p))
      (calculateGeographicDistribution two_at_one_place)
  = [((-0.1, 51.5)%float, 2%nat)].
Proof.
  apply (proj2 (proj2 (proj2 (calculateGeographicDistribution_points two_at_one_place)))
           (a_click 1 "198.51.100.7" None (Some (51.5, -0.1)%float) 1000)
           (a_click 2 "198.51.100.8" None (Some (51.5, -0.1)%float) 2000)
           51.5%float (-0.1)%float);
    reflexivity.
Defined.

End Geography.

(** ** The referrer ranking *)

Lemma StronglySorted_unmap {A B} (R : B -> B -> Prop) (f : A -> B) (l : list A) :
  StronglySorted R (map f l) -> StronglySorted (fun a b => R (f a) (f b)) l.
Proof.
  induction l as [|x l IH]; cbn; intros S; constructor; inversion S as [|? ? S' F]; subst.
  - apply IH, S'.
  - rewrite Forall_forall in *. intros z Iz. apply F, in_map, Iz.
Qed.

Lemma total_perm (a b : list nat) : Permutation a b -> total a = total b.
Proof. unfold total. induction 1; cbn; lia. Qed.

Lemma total_firstn (n : nat) (a : list nat) : (total (firstn n a) <= total a)%nat.
Proof.
  rewrite <- (firstn_skipn n a) at 2. rewrite total_app. lia.
Qed.

Section TallySums.
Context {K : Type} `{KeyEq K}.

Lemma Map_set_total (m : list (K * nat)) k v :
  total (map snd (Map_set m k v))
  = (total (map snd m) + v - Analytics.or_zero (Map_get m k))%nat.
Proof.
  unfold total. induction m as [|[k0 v0] m IH]; cbn; [lia|].
  destruct (keqb k0 k); cbn; [lia|]. rewrite IH.
  assert (Analytics.or_zero (Map_get m k) <= fold_right Nat.add 0 (map snd m))%nat; [|lia].
  clear. induction m as [|[k1 v1] m IH]; cbn; [lia|].
  destruct (keqb k1 k); cbn; lia.
Qed.

Lemma tally_total (m : list (K * nat)) keys :
  total (map snd (Analytics.tally m keys)) = (total (map snd m) + List.length keys)%nat.
Proof.
  unfold Analytics.tally. revert m.
  induction keys as [|k keys IH]; intros m; cbn [fold_left List.length]; [lia|].
  rewrite IH. unfold Map_bump. rewrite Map_set_total.
  destruct (Map_get m k); cbn; lia.
Qed.

Lemma distinct_length keys : (List.length (distinct keys) <= List.length keys)%nat.
Proof.
  induction keys as [|k keys IH]; cbn; [lia|].
  pose proof (filter_length_le (fun y => negb (keqb k y)) (distinct keys)). lia.
Qed.
End TallySums.

(** A host for the examples: local time is UTC, and none of the referrers
    used below parses as a URL. *)
Definition example_host : Analytics.Platform :=
  {| Analytics.URL_hostname := fun _ => None;
     Analytics.Date_getHours := fun t => (t / 3600000) mod 24;
     Analytics.Date_getDay := fun t => (t / 86400000 + 4) mod 7 |}.

Definition six_referrers : list ClickEvent.t :=
  [a_click 1 "198.51.100.1" (Some "a") None 1000;
   a_click 2 "198.51.100.2" (Some "b") None 2000;
   a_click 3 "198.51.100.3" (Some "c") None 3000;
   a_click 4 "198.51.100.4" (Some "d") None 4000;
   a_click 5 "198.51.100.5" (Some "e") None 5000;
   a_click 6 "198.51.100.6" (Some "f") None 6000].

Section Referrers.
Import Analytics.
Context `{Platform}.

(** Larger counts first; equal counts in the order in which their referrers
    are first met in the click list. *)
Definition ranks_before (referrers : list string) (a b : Share.t) : Prop :=
  (Share.clicks b < Share.clicks a)%nat
  \/ (Share.clicks a = Share.clicks b
      /\ (first_index (Share.name a) referrers < first_index (Share.name b) referrers)%nat).

(** The whole ranking: every group, before truncation. *)
Definition ranking (clicks : list ClickEvent.t) : list Share.t :=
  map (share_of (List.length clicks))
      (sort_desc count_key (tally [] (map referrer_of clicks))).

Lemma calculateTopReferrers_ranking clicks limit :
  0 <= limit ->
  calculateTopReferrers clicks limit = firstn (Z.to_nat limit) (ranking clicks).
Proof.
  intros L. unfold calculateTopReferrers, ranking.
  rewrite slice0_firstn by exact L. symmetry. apply firstn_map.
Qed.

Lemma ranking_sorted clicks :
  StronglySorted (ranks_before (map referrer_of clicks)) (ranking clicks).
Proof.
  unfold ranking. set (refs := map referrer_of clicks).
  apply StronglySorted_map.
  assert (S : StronglySorted
                (fun a b => (first_index (fst a) refs < first_index (fst b) refs)%nat)
                (tally [] refs)).
  { apply StronglySorted_unmap with (R := fun a b => (first_index a refs < first_index b refs)%nat).
    rewrite tally_keys_distinct. apply distinct_first_index. }
  apply (sort_desc_ranked count_key) in S.
  revert S. apply StronglySorted_weaken.
  intros a b _ _. unfold ranked, ranks_before, count_key, share_of. cbn. lia.
Qed.

Lemma ranking_names clicks :
  Permutation (map Share.name (ranking clicks)) (distinct (map referrer_of clicks)).
Proof.
  unfold ranking. rewrite map_map. cbn [share_of Share.name].
  rewrite <- tally_keys_distinct. apply Permutation_map, sort_desc_perm.
Qed.

Lemma ranking_entry clicks e :
  In e (ranking clicks) ->
  Share.clicks e = occurrences (Share.name e) (map referrer_of clicks)
  /\ (1 <= Share.clicks e)%nat
  /\ Share.percentage e
     = (Math_round (Number_of_nat (Share.clicks e)
                    / Number_of_nat (List.length clicks) * 100 * 100) / 100)%float.
Proof.
  unfold ranking. intros I. apply in_map_iff in I. destruct I as [[r n] [<- I]].
  apply sort_desc_In, tally_entry in I. destruct I as [N Ir]. cbn.
  split; [exact N|]. pose proof (occurrences_pos _ _ Ir). split; [lia|].
  unfold percentage.
  destruct (Nat.ltb_spec 0 (List.length clicks)) as [_|Z]; [reflexivity|].
  destruct clicks; [destruct Ir|cbn in Z; lia].
Qed.

Lemma ranking_total clicks :
  total (map Share.clicks (ranking clicks)) = List.length clicks.
Proof.
  unfold ranking. rewrite map_map. cbn [share_of Share.clicks].
  rewrite (total_perm _ (map snd (tally [] (map referrer_of clicks)))).
  - rewrite tally_total, length_map. reflexivity.
  - apply Permutation_map, sort_desc_perm.
Qed.

(** C5 (amended).  For a limit [>= 0] (10 by default),
    [calculateTopReferrers] returns the first [limit] entries of the
    ranking of all referrer groups; the entries are in descending order of
    count, equal counts in first-encountered order; every referrer has one
    entry in the ranking; an entry's count is the number of events of its
    referrer and its percentage is [round(count / total * 100, 2)]; the
    returned counts add up to at most the number of events.  (The rounded
    percentages themselves may add up to more than 100.) *)
Theorem calculateTopReferrers_ranked (clicks : list ClickEvent.t) (limit : Z) :
  0 <= limit ->
  let referrers := map referrer_of clicks in
  let result := calculateTopReferrers clicks limit in
  StronglySorted (ranks_before referrers) result
  /\ result = firstn (Z.to_nat limit) (ranking clicks)
  /\ Permutation (map Share.name (ranking clicks)) (distinct referrers)
  /\ (forall e, In e result ->
        Share.clicks e = occurrences (Share.name e) referrers
        /\ (1 <= Share.clicks e)%nat
        /\ Share.percentage e
           = (Math_round (Number_of_nat (Share.clicks e)
                          / Number_of_nat (List.length clicks) * 100 * 100) / 100)%float)
  /\ (total (map Share.clicks result) <= List.length clicks)%nat.
Proof.
  intros L referrers result.
  assert (R : result = firstn (Z.to_nat limit) (ranking clicks))
    by (apply calculateTopReferrers_ranking; exact L).
  rewrite R. split; [|split; [|split; [|split]]].
  - apply StronglySorted_firstn, ranking_sorted.
  - reflexivity.
  - apply ranking_names.
  - intros e I. apply ranking_entry. rewrite <- (firstn_skipn (Z.to_nat limit)).
    apply in_or_app. left. exact I.
  - rewrite <- firstn_map.
    pose proof (total_firstn (Z.to_nat limit) (map Share.clicks (ranking clicks))) as T.
    rewrite ranking_total in T. exact T.
Qed.

End Referrers.

(** C5, as stated in the specification, fails on the code: six events from
    six referrers get 16.67 percent each, and six times 16.67 is more than
    100. *)
Lemma calculateTopReferrers_percentages_exceed_100 :
  let result := @Analytics.calculateTopReferrers example_host six_referrers
                  Analytics.default_limit in
  map Analytics.Share.percentage result
  = [16.67; 16.67; 16.67; 16.67; 16.67; 16.67]%float
  /\ PrimFloat.ltb 100
       (fold_left PrimFloat.add (map Analytics.Share.percentage result) 0%float)
     = true.
Proof. split; vm_compute; reflexivity. Qed.

Lemma calculateTopReferrers_ranked_witness :
  let clicks := six_referrers in
  let limit := Analytics.default_limit in
  let referrers := map (@Analytics.referrer_of example_host) clicks in
  let result := @Analytics.calculateTopReferrers example_host clicks limit in
  StronglySorted (ranks_before referrers) result
  /\ result = firstn (Z.to_nat limit) (@ranking example_host clicks)
  /\ Permutation (map Analytics.Share.name (@ranking example_host clicks))
                 (distinct referrers)
  /\ (forall e, In e result ->
        Analytics.Share.clicks e = occurrences (Analytics.Share.name e) referrers
        /\ (1 <= Analytics.Share.clicks e)%nat
        /\ Analytics.Share.percentage e
           = (Math_round (Number_of_nat (Analytics.Share.clicks e)
                          / Number_of_nat (List.length clicks) * 100 * 100) / 100)%float)
  /\ (total (map Analytics.Share.clicks result) <= List.length clicks)%nat.
Proof.
  apply (@calculateTopReferrers_ranked example_host six_referrers Analytics.default_limit).
  unfold Analytics.default_limit. lia.
Defined.

(** ** The daily average of the summary *)

(** The earliest timestamp of a non-empty click list. *)
Fixpoint oldest (c : ClickEvent.t) (rest : list ClickEvent.t) : Z :=
  match rest with
  | [] => ClickEvent.timestamp c
  | c' :: rest' => Z.min (ClickEvent.timestamp c) (oldest c' rest')
  end.

Lemma oldest_le_head c rest : oldest c rest <= ClickEvent.timestamp c.
Proof. destruct rest; cbn; lia. Qed.

Lemma oldest_is_minimum c rest :
  Forall (fun x => oldest c rest <= ClickEvent.timestamp x) (c :: rest)
  /\ exists x, In x (c :: rest) /\ ClickEvent.timestamp x = oldest c rest.
Proof.
  revert c. induction rest as [|c' rest IH]; intros c; cbn [oldest].
  - split; [repeat constructor; lia|]. exists c. split; [left|]; reflexivity.
  - destruct (IH c') as [F [x [Ix Ex]]]. split.
    + constructor; [lia|]. rewrite Forall_forall in *. intros y Iy.
      specialize (F y Iy). lia.
    + destruct (Z.min_spec (ClickEvent.timestamp c) (oldest c' rest)) as [[_ ->]|[_ ->]].
      * exists c. split; [left|]; reflexivity.
      * exists x. split; [right; exact Ix|exact Ex].
Qed.

(** Newest first: no click is older than a later one in the list. *)
Definition newest_first (clicks : list ClickEvent.t) : Prop :=
  StronglySorted (fun a b => ClickEvent.timestamp b <= ClickEvent.timestamp a) clicks.

Lemma last_of_newest_first c rest d :
  newest_first (c :: rest) ->
  ClickEvent.timestamp (last (c :: rest) d) = oldest c rest.
Proof.
  revert c. induction rest as [|c' rest IH]; intros c S; [reflexivity|].
  inversion S as [|? ? S' F]; subst.
  change (last (c :: c' :: rest) d) with (last (c' :: rest) d).
  rewrite (IH c' S'). cbn [oldest].
  pose proof (oldest_le_head c' rest). inversion F; subst. lia.
Qed.

Section Summary.
Import Analytics.
Context `{Platform}.

(** [Math.round(x * 100) / 100] *)
Definition round2 (x : float) : float := (Math_round (x * 100) / 100)%float.

(** The divisor for a list whose earliest event is at [t]: the days from
    [t] to [now], rounded up, and at least 1. *)
Definition days_since (now t : Z) : float :=
  Math_max 1 (Math_ceil (Number_of_Z (now - t) / Number_of_Z MS_PER_DAY)).

(** C7 (amended).  For a non-empty click list that is ordered newest first
    (as [getLinkAnalytics] hands it over), [avgClicksPerDay] is the number
    of events divided by the days between the oldest event and "now" (the
    span rounded up to whole days, the divisor at least 1), rounded to 2
    decimal places; for the empty list the divisor is 1 and the average 0. *)
Theorem avgClicksPerDay_newest_first (now : Z) (clicks : list ClickEvent.t) :
  newest_first clicks ->
  avgClicksPerDay (generateAnalyticsSummary now clicks)
  = match clicks with
    | [] => 0%float
    | c :: rest =>
        round2 (Number_of_nat (List.length clicks) / days_since now (oldest c rest))
    end.
Proof.
  intros S. unfold generateAnalyticsSummary. cbn [avgClicksPerDay].
  destruct clicks as [|c rest].
  - vm_compute. reflexivity.
  - unfold dateRange, round2, days_since.
    rewrite (last_of_newest_first c rest c S). reflexivity.
Qed.

(** Whatever the order, the divisor is taken from the last event of the
    list. *)
Lemma avgClicksPerDay_last (now : Z) (c : ClickEvent.t) (rest : list ClickEvent.t) :
  avgClicksPerDay (generateAnalyticsSummary now (c :: rest))
  = round2 (Number_of_nat (List.length (c :: rest))
            / days_since now (ClickEvent.timestamp (last (c :: rest) c))).
Proof. reflexivity. Qed.

End Summary.

Definition ten_days : Z := 10 * Analytics.MS_PER_DAY.

(** C7, as stated in the specification, fails on the code: for the list of
    an event at time 0 followed by an event ten days later, read one hour
    after the second, the average is 2 (two events over the one day since
    the last element); over the eleven days since the oldest event it would
    be 0.18. *)
Lemma avgClicksPerDay_oldest_first :
  let clicks := [a_click 1 "198.51.100.1" None None 0;
                 a_click 2 "198.51.100.2" None None ten_days] in
  let now := ten_days + 3600000 in
  Analytics.avgClicksPerDay (@Analytics.generateAnalyticsSummary example_host now clicks)
  = 2%float
  /\ oldest (a_click 1 "198.51.100.1" None None 0)
            [a_click 2 "198.51.100.2" None None ten_days] = 0
  /\ days_since now 0 = 11%float
  /\ round2 (Number_of_nat (List.length clicks) / days_since now 0) = 0.18%float.
Proof. repeat split; vm_compute; reflexivity. Qed.

Lemma avgClicksPerDay_newest_first_witness :
  let clicks := [a_click 2 "198.51.100.2" None None ten_days;
                 a_click 1 "198.51.100.1" None None 0] in
  let now := ten_days + 3600000 in
  Analytics.avgClicksPerDay (@Analytics.generateAnalyticsSummary example_host now clicks)
  = round2 (Number_of_nat (List.length clicks)
            / days_since now
                (oldest (a_click 2 "198.51.100.2" None None ten_days)
                        [a_click 1 "198.51.100.1" None None 0])).
Proof.
  apply (@avgClicksPerDay_newest_first example_host (ten_days + 3600000)
           [a_click 2 "198.51.100.2" None None ten_days;
            a_click 1 "198.51.100.1" None None 0]).
  repeat constructor. cbn. unfold ten_days, Analytics.MS_PER_DAY. lia.
Defined.

Example avgClicksPerDay_newest_first_value :
  Analytics.avgClicksPerDay
    (@Analytics.generateAnalyticsSummary example_host (ten_days + 3600000)
       [a_click 2 "198.51.100.2" None None ten_days;
        a_click 1 "198.51.100.1" None None 0])
  = 0.18%float.
Proof. vm_compute. reflexivity. Qed.

(** The scenario of the specification: events at hours 3, 3 and 14 of a
    Tuesday give peak hour 3 (two events) and peak day Tuesday. *)
Example calculatePeakTimes_tuesday :
  let tuesday := 5 * one_day in
  @Analytics.calculatePeakTimes example_host
    [a_click 1 "198.51.100.1" None None (tuesday + 3 * 3600000);
     a_click 2 "198.51.100.2" None None (tuesday + 3 * 3600000 + 60000);
     a_click 3 "198.51.100.3" None None (tuesday + 14 * 3600000)]
  = Analytics.mkPeakTimes 3 (Some "Tuesday") 2 3.
Proof. vm_compute. reflexivity. Qed.

(* ================================================================== *)
(** * Part XII. The analytics handler                                   *)
(* ================================================================== *)

Lemma StronglySorted_firstn_skipn {A} (R : A -> A -> Prop) (n : nat) (l : list A) a b :
  StronglySorted R l -> In a (firstn n l) -> In b (skipn n l) -> R a b.
Proof.
  intros S. revert n. induction S as [|x l S IH F]; intros [|n]; cbn; try tauto.
  intros [<-|Ia] Ib.
  - rewrite Forall_forall in F. apply F.
    rewrite <- (firstn_skipn n l). apply in_or_app. right. exact Ib.
  - apply (IH n Ia Ib).
Qed.

Section AnalyticsHandler.
Import Analytics AnalyticsRoute.
Context `{Platform}.

(** The click log of a link, in table order. *)
Definition click_log (db : Db.Database) (linkId : Z) : list ClickEvent.t :=
  filter (fun c => ClickEvent.link_id c =? linkId) (Db.clicks db).

(** The recent clicks are at most 20 clicks of the link's log, and no click
    of the log that was left out is newer than one that was taken. *)
Lemma recentClicks_most_recent db linkId :
  let recent := Db.recentClicks db linkId in
  let ordered := sort_desc ClickEvent.timestamp (click_log db linkId) in
  (List.length recent <= 20)%nat
  /\ ordered = recent ++ skipn 20 ordered
  /\ Permutation ordered (click_log db linkId)
  /\ (forall c c', In c recent -> In c' (skipn 20 ordered) ->
        ClickEvent.timestamp c' <= ClickEvent.timestamp c).
Proof.
  intros recent ordered. unfold recent, Db.recentClicks. fold (click_log db linkId).
  fold ordered. split; [apply firstn_le_length|]. split; [symmetry; apply firstn_skipn|].
  split; [apply sort_desc_perm|].
  intros c c' I I'.
  apply (StronglySorted_firstn_skipn _ 20 ordered c c'
           (sort_desc_sorted ClickEvent.timestamp _) I I').
Qed.

(** C10.  When the analytics handler returns advanced figures, each of the
    seven (click trends, hourly, weekly and geographic distribution, top
    referrers, device statistics, summary) is the aggregation applied to
    the recent clicks of the link: at most 20 clicks of its log, the most
    recent ones.  So the summary's [totalClicks] is their number and its
    [uniqueClicks] is at most 20, while the handler's basic [totalClicks]
    counts the whole log. *)
Theorem advanced_figures_over_recent_clicks
    (db : Db.Database) (now : Z) (id : string) (daysParam advancedParam : option string)
    (analytics : Db.LinkAnalytics) (advanced : Advanced) :
  GET db now id daysParam advancedParam = Success analytics (Some advanced) ->
  exists linkId days,
    parseInt id = Some linkId
    /\ let recent := Db.recentClicks db linkId in
       let ordered := sort_desc ClickEvent.timestamp (click_log db linkId) in
       ((List.length recent <= 20)%nat
        /\ ordered = recent ++ skipn 20 ordered
        /\ (forall c c', In c recent -> In c' (skipn 20 ordered) ->
              ClickEvent.timestamp c' <= ClickEvent.timestamp c))
       /\ calculateClickTrends now recent days = Return (clickTrends advanced)
       /\ hourlyDistribution advanced = calculateHourlyDistribution recent
       /\ weeklyDistribution advanced = calculateWeeklyDistribution recent
       /\ geographicDistribution advanced = calculateGeographicDistribution recent
       /\ topReferrers advanced = calculateTopReferrers recent default_limit
       /\ deviceStats advanced = calculateDeviceStats recent
       /\ summary advanced = generateAnalyticsSummary now recent
       /\ totalClicks (summary advanced) = List.length recent
       /\ (uniqueClicks (summary advanced) <= 20)%nat
       /\ Db.totalClicks analytics = List.length (click_log db linkId).
Proof.
  unfold GET. intros G.
  destruct (parseInt id) as [linkId|]; [|discriminate].
  set (days := match parseInt _ with Some d => d | None => 0 end) in G.
  exists linkId, days. split; [reflexivity|].
  unfold Db.getLinkAnalytics in G.
  destruct (Db.getLinkById db linkId) as [l|]; [|discriminate].
  cbn [Db.la_recentClicks] in G.
  destruct (_ && _) in G; [|discriminate].
  unfold advancedAnalytics in G.
  destruct (calculateClickTrends now (Db.recentClicks db linkId) days) as [trends| |] eqn:T;
    try discriminate G.
  inversion G; subst; clear G.
  pose proof (recentClicks_most_recent db linkId) as [L [E [_ M]]].
  cbn zeta. split; [auto|]. repeat (split; [reflexivity|]).
  split; [|reflexivity].
  cbn [summary generateAnalyticsSummary uniqueClicks].
  pose proof (distinct_length (map ClickEvent.ip_address (Db.recentClicks db linkId))) as D.
  rewrite length_map in D. lia.
Qed.

End AnalyticsHandler.

(** A link with 21 clicks, one per second, each from its own address. *)
Definition link_with_21_clicks : Db.Database :=
  Db.mkDatabase
    [TrackingLink.mk 1 "demo1" "https://example.com" None None 0 0 21 true]
    (map (fun i => a_click (i + 1) (octet (Z.to_nat i)) None None (i * 1000))
         (Analytics.upto 21))
    1 21.

Definition recent_20 : list ClickEvent.t := Db.recentClicks link_with_21_clicks 1.

(** The figures the handler returns for that link at time 30000, with the
    default of 30 days. *)
Definition figures_of_recent_20 : AnalyticsRoute.Advanced :=
  AnalyticsRoute.mkAdvanced
    (map (fun i => Analytics.TimeSeriesData.mk (i - 30) 0) (Analytics.upto 30))
    (@Analytics.calculateHourlyDistribution example_host recent_20)
    (@Analytics.calculateWeeklyDistribution example_host recent_20)
    (Analytics.calculateGeographicDistribution recent_20)
    (@Analytics.calculateTopReferrers example_host recent_20 Analytics.default_limit)
    (Analytics.calculateDeviceStats recent_20)
    (@Analytics.generateAnalyticsSummary example_host 30000 recent_20).

Lemma advanced_figures_over_recent_clicks_witness :
  exists linkId days,
    parseInt "1" = Some linkId
    /\ let db := link_with_21_clicks in
       let advanced := figures_of_recent_20 in
       let recent := Db.recentClicks db linkId in
       let ordered := sort_desc ClickEvent.timestamp (click_log db linkId) in
       ((List.length recent <= 20)%nat
        /\ ordered = recent ++ skipn 20 ordered
        /\ (forall c c', In c recent -> In c' (skipn 20 ordered) ->
              ClickEvent.timestamp c' <= ClickEvent.timestamp c))
       /\ Analytics.calculateClickTrends 30000 recent days
          = Return (AnalyticsRoute.clickTrends advanced)
       /\ AnalyticsRoute.hourlyDistribution advanced
          = @Analytics.calculateHourlyDistribution example_host recent
       /\ AnalyticsRoute.weeklyDistribution advanced
          = @Analytics.calculateWeeklyDistribution example_host recent
       /\ AnalyticsRoute.geographicDistribution advanced
          = Analytics.calculateGeographicDistribution recent
       /\ AnalyticsRoute.topReferrers advanced
          = @Analytics.calculateTopReferrers example_host recent Analytics.default_limit
       /\ AnalyticsRoute.deviceStats advanced = Analytics.calculateDeviceStats recent
       /\ AnalyticsRoute.summary advanced
          = @Analytics.generateAnalyticsSummary example_host 30000 recent
       /\ Analytics.totalClicks (AnalyticsRoute.summary advanced) = List.length recent
       /\ (Analytics.uniqueClicks (AnalyticsRoute.summary advanced) <= 20)%nat
       /\ Db.totalClicks
            (Db.mkLinkAnalytics
               (TrackingLink.mk 1 "demo1" "https://example.com" None None 0 0 21 true)
               21 21 recent_20)
          = List.length (click_log db linkId).
Proof.
  apply (@advanced_figures_over_recent_clicks example_host link_with_21_clicks 30000 "1"
           None (Some "true")).
  vm_compute. reflexivity.
Defined.

(** On that link the basic total is 21 and the summary's total is 20. *)
Example advanced_total_is_capped :
  match @AnalyticsRoute.GET example_host link_with_21_clicks 30000 "1" None (Some "true") with
  | AnalyticsRoute.Success analytics (Some advanced) =>
      Db.totalClicks analytics = 21%nat
      /\ Analytics.totalClicks (AnalyticsRoute.summary advanced) = 20%nat
      /\ Analytics.uniqueClicks (AnalyticsRoute.summary advanced) = 20%nat
      /\ Db.uniqueClicks analytics = 21%nat
  | _ => False
  end.
Proof. vm_compute. repeat split. Qed.

(* ================================================================== *)
(** * Part XIII. Histograms and peaks                                   *)
(* ================================================================== *)

Lemma upto_In (n h : Z) : In h (Analytics.upto n) <-> 0 <= h < n.
Proof.
  unfold Analytics.upto. rewrite in_map_iff. split.
  - intros [i [<- I]]. apply in_seq in I. lia.
  - intros B. exists (Z.to_nat h). split; [lia|]. apply in_seq. lia.
Qed.

Lemma upto_NoDup (n : Z) : NoDup (Analytics.upto n).
Proof.
  unfold Analytics.upto. apply Injective_map_NoDup; [|apply seq_NoDup].
  intros a b E. lia.
Qed.

Lemma upto_nth (n : Z) (i : nat) (d : Z) :
  (i < Z.to_nat n)%nat -> nth i (Analytics.upto n) d = Z.of_nat i.
Proof.
  intros L. unfold Analytics.upto.
  rewrite (nth_indep _ d (Z.of_nat 0)) by (rewrite length_map, length_seq; exact L).
  rewrite map_nth, seq_nth by exact L. reflexivity.
Qed.

Lemma entries_by_key {K V} (l : list (K * V)) (f : K -> V) :
  (forall e, In e l -> snd e = f (fst e)) -> l = map (fun k => (k, f k)) (map fst l).
Proof.
  induction l as [|[k v] l IH]; cbn; intros E; [reflexivity|].
  pose proof (E (k, v) (or_introl eq_refl)) as Ekv. cbn in Ekv. subst v.
  f_equal. apply IH. auto.
Qed.

Lemma filter_none {A} (p : A -> bool) (l : list A) :
  (forall x, In x l -> p x = false) -> filter p l = [].
Proof.
  induction l as [|x l IH]; cbn; intros N; [reflexivity|].
  rewrite (N x) by (left; reflexivity). apply IH. auto.
Qed.

Section DenseTally.
Context {K : Type} `{KeyEq K}.

(** A tally over a map that starts with every key at 0: the keys stay as
    they are, and each carries its number of occurrences. *)
Lemma tally_dense (ks keys : list K) :
  NoDup ks ->
  Forall (fun k => In k ks) keys ->
  Analytics.tally (map (fun k => (k, 0%nat)) ks) keys
  = map (fun k => (k, occurrences k keys)) ks.
Proof.
  intros ND F. set (m0 := map (fun k => (k, 0%nat)) ks).
  assert (K0 : map fst m0 = ks).
  { unfold m0. rewrite map_map. cbn. apply map_id. }
  assert (Ks : map fst (Analytics.tally m0 keys) = ks).
  { rewrite tally_keys, K0.
    replace (filter _ (distinct keys)) with (@nil K); [apply app_nil_r|].
    symmetry. apply filter_none. intros k Ik. apply (proj1 (distinct_In _ _)) in Ik.
    rewrite Forall_forall in F. specialize (F k Ik).
    apply negb_false_iff, existsb_exists. exists k. split; [exact F|apply keqb_refl]. }
  transitivity (map (fun k => (k, occurrences k keys)) (map fst (Analytics.tally m0 keys)));
    [|rewrite Ks; reflexivity].
  apply entries_by_key. intros [k n] I. cbn.
  assert (G : Map_get (Analytics.tally m0 keys) k = Some n).
  { apply In_Map_get; [rewrite Ks; exact ND|exact I]. }
  pose proof (tally_get m0 keys k) as T. rewrite G in T. cbn [Analytics.or_zero] in T.
  replace (Analytics.or_zero (Map_get m0 k)) with 0%nat in T; [exact T|].
  destruct (Map_get m0 k) as [v|] eqn:G0; [|reflexivity].
  apply Map_get_In in G0. unfold m0 in G0. apply in_map_iff in G0.
  destruct G0 as [k' [E _]]. inversion E. reflexivity.
Qed.
End DenseTally.

Section Histograms.
Import Analytics.
Context `{Platform}.

(** How many clicks fall in hour [h], on weekday [d]. *)
Definition in_hour (clicks : list ClickEvent.t) (h : Z) : nat :=
  List.length (filter (fun c => Date_getHours (ClickEvent.timestamp c) =? h) clicks).

Definition on_weekday (clicks : list ClickEvent.t) (d : Z) : nat :=
  List.length (filter (fun c => Date_getDay (ClickEvent.timestamp c) =? d) clicks).

(** The host's readings for these clicks are hours of a day and days of a
    week. *)
Definition clock_readings (clicks : list ClickEvent.t) : Prop :=
  Forall (fun c => 0 <= Date_getHours (ClickEvent.timestamp c) < 24
                   /\ 0 <= Date_getDay (ClickEvent.timestamp c) < 7) clicks.

Lemma occurrences_map (f : ClickEvent.t -> Z) clicks k :
  occurrences k (map f clicks) = List.length (filter (fun c => f c =? k) clicks).
Proof. unfold occurrences. apply filter_map_length. Qed.

Lemma hourly_by_hour (clicks : list ClickEvent.t) :
  clock_readings clicks ->
  calculateHourlyDistribution clicks = map (fun h => (h, in_hour clicks h)) (upto 24).
Proof.
  intros R. unfold calculateHourlyDistribution. rewrite tally_dense.
  - apply map_ext. intros h. rewrite occurrences_map. reflexivity.
  - apply upto_NoDup.
  - apply Forall_map. revert R. apply Forall_impl. intros c [B _].
    apply upto_In. exact B.
Qed.

Lemma weekly_by_day (clicks : list ClickEvent.t) :
  clock_readings clicks ->
  calculateWeeklyDistribution clicks
  = map (fun d => (dayName d, on_weekday clicks d)) (upto 7).
Proof.
  intros R. unfold calculateWeeklyDistribution. rewrite tally_dense.
  - rewrite map_map. apply map_ext. intros d. cbn [fst snd].
    rewrite occurrences_map. reflexivity.
  - apply upto_NoDup.
  - apply Forall_map. revert R. apply Forall_impl. intros c [_ B].
    apply upto_In. exact B.
Qed.


(** X2.  [calculateWeeklyDistribution] returns exactly the seven days
    Sunday..Saturday in order, each with the number of clicks of that
    weekday, and the counts add up to the number of clicks. *)
Theorem calculateWeeklyDistribution_buckets (clicks : list ClickEvent.t) :
  clock_readings clicks ->
  calculateWeeklyDistribution clicks
  = map (fun d => (dayName d, on_weekday clicks d)) (upto 7)
  /\ map fst (calculateWeeklyDistribution clicks) = map Some dayNames
  /\ total (map snd (calculateWeeklyDistribution clicks)) = List.length clicks.
Proof.
  intros R.
  pose proof (weekly_by_day clicks R) as E.
  split; [exact E|]. split.
  - rewrite E, map_map. cbn [fst]. reflexivity.
  - unfold calculateWeeklyDistribution. rewrite map_map. cbn [snd].
    change (map (fun x : Z * nat => snd x)) with (map (@snd Z nat)).
    rewrite tally_total, length_map, map_map.
    cbn [snd]. replace (total (map (fun _ => 0%nat) (upto 7))) with 0%nat; [lia|].
    vm_compute. reflexivity.
Qed.

End Histograms.

Example clock_readings_example :
  @clock_readings example_host six_referrers.
Proof. repeat constructor; vm_compute; congruence. Qed.


Lemma calculateWeeklyDistribution_buckets_witness :
  @Analytics.calculateWeeklyDistribution example_host six_referrers
  = map (fun d => (Analytics.dayName d, @on_weekday example_host six_referrers d))
        (Analytics.upto 7)
  /\ map fst (@Analytics.calculateWeeklyDistribution example_host six_referrers)
     = map Some Analytics.dayNames
  /\ total (map snd (@Analytics.calculateWeeklyDistribution example_host six_referrers))
     = List.length six_referrers.
Proof.
  apply (@calculateWeeklyDistribution_buckets example_host six_referrers).
  exact clock_readings_example.
Defined.

(** ** Peaks *)

(** [reduce] keeps the first element whose key is largest. *)
Lemma reduce_max_first {A} (key : A -> nat) (x0 : A) (rest : list A) :
  exists pre post,
    x0 :: rest = pre ++ reduce_max key x0 rest :: post
    /\ Forall (fun a => (key a < key (reduce_max key x0 rest))%nat) pre
    /\ Forall (fun a => (key a <= key (reduce_max key x0 rest))%nat) post.
Proof.
  unfold reduce_max. revert x0. induction rest as [|y rest IH]; intros x0; cbn [fold_left].
  - exists [], []. repeat split; constructor.
  - destruct (Nat.ltb_spec (key x0) (key y)) as [L|L].
    + destruct (IH y) as [pre [post [E [Fpre Fpost]]]].
      set (r := fold_left _ rest y) in *.
      exists (x0 :: pre), post. split; [cbn; rewrite E; reflexivity|]. split; [|exact Fpost].
      constructor; [|exact Fpre].
      assert (Iy : In y (pre ++ r :: post)) by (rewrite <- E; left; reflexivity).
      rewrite Forall_forall in Fpre, Fpost.
      apply in_app_or in Iy. destruct Iy as [Iy|[Ey|Iy]].
      * specialize (Fpre y Iy). lia.
      * rewrite Ey. exact L.
      * specialize (Fpost y Iy). lia.
    + destruct (IH x0) as [pre [post [E [Fpre Fpost]]]].
      set (r := fold_left _ rest x0) in *.
      destruct pre as [|a pre].
      * cbn in E. injection E as E0 E1. exists [], (y :: rest).
        split; [cbn; rewrite <- E0; reflexivity|]. split; [constructor|].
        constructor; [rewrite <- E0; exact L|]. rewrite E1. exact Fpost.
      * cbn in E. injection E as E0 E1.
        exists (x0 :: y :: pre), post. split; [cbn; rewrite E1; reflexivity|].
        split; [|exact Fpost]. apply Forall_cons_iff in Fpre. destruct Fpre as [Lx Fp].
        rewrite <- E0 in Lx.
        constructor; [exact Lx|]. constructor; [lia|exact Fp].
Qed.

(** The peak of a histogram over the keys [0 .. n-1]: the first key whose
    count is largest. *)
Lemma peak_upto {A} (label : Z -> A) (count : Z -> nat) (n : Z) (otherwise : A) :
  0 < n ->
  exists i,
    0 <= i < n
    /\ Analytics.peak (map (fun k => (label k, count k)) (Analytics.upto n)) otherwise
       = (label i, count i)
    /\ (forall j, 0 <= j < n -> (count j <= count i)%nat)
    /\ (forall j, 0 <= j < i -> (count j < count i)%nat).
Proof.
  intros N. set (g := fun k => (label k, count k)).
  set (l := map g (Analytics.upto n)).
  assert (Len : List.length l = Z.to_nat n).
  { unfold l, Analytics.upto. rewrite !length_map, length_seq. reflexivity. }
  assert (Nth : forall k d, (k < Z.to_nat n)%nat -> nth k l d = g (Z.of_nat k)).
  { intros k d Lk. unfold l.
    rewrite (nth_indep _ d (g 0)) by (rewrite <- Len in Lk; exact Lk).
    rewrite map_nth, upto_nth by exact Lk. reflexivity. }
  unfold Analytics.peak. destruct l as [|x0 rest] eqn:El; [cbn in Len; lia|].
  destruct (reduce_max_first snd x0 rest) as [pre [post [E [Fpre Fpost]]]].
  set (r := reduce_max snd x0 rest) in *.
  assert (Lp : (List.length pre < Z.to_nat n)%nat).
  { rewrite <- Len, E, length_app. cbn. lia. }
  assert (Er : r = g (Z.of_nat (List.length pre))).
  { rewrite <- (Nth _ r Lp), E. rewrite nth_middle. reflexivity. }
  exists (Z.of_nat (List.length pre)). split; [lia|]. split; [exact Er|].
  rewrite Forall_forall in Fpre, Fpost. rewrite Er in Fpre, Fpost. cbn [g snd] in Fpre, Fpost.
  split.
  - intros j Bj.
    assert (Ij : In (g j) (pre ++ r :: post)).
    { rewrite <- E, <- (Z2Nat.id j), <- (Nth (Z.to_nat j) (g 0)) by lia.
      apply nth_In. rewrite Len. lia. }
    apply in_app_or in Ij. destruct Ij as [Ij|[Ij|Ij]].
    + specialize (Fpre _ Ij). cbn in Fpre. lia.
    + rewrite Er in Ij. apply (f_equal snd) in Ij. cbn in Ij. lia.
    + specialize (Fpost _ Ij). cbn in Fpost. lia.
  - intros j Bj.
    assert (Ij : In (g j) pre).
    { rewrite <- (Z2Nat.id j), <- (Nth (Z.to_nat j) (g 0)), E by lia.
      rewrite app_nth1 by lia. apply nth_In. lia. }
    specialize (Fpre _ Ij). cbn in Fpre. exact Fpre.
Qed.

Section Peaks.
Import Analytics.
Context `{Platform}.

(** X3.  [calculatePeakTimes] reports the hour with the most clicks and the
    weekday with the most clicks, each with its count; among hours (days)
    with the same largest count it reports the earliest one, hour 0 and
    Sunday when there are no clicks at all. *)
Theorem calculatePeakTimes_first_maximum (clicks : list ClickEvent.t) :
  clock_readings clicks ->
  let p := calculatePeakTimes clicks in
  (0 <= peakHour p < 24
   /\ peakHourClicks p = in_hour clicks (peakHour p)
   /\ (forall h, 0 <= h < 24 -> (in_hour clicks h <= peakHourClicks p)%nat)
   /\ (forall h, 0 <= h < peakHour p -> (in_hour clicks h < peakHourClicks p)%nat))
  /\ exists d,
       0 <= d < 7
       /\ peakDay p = dayName d
       /\ peakDayClicks p = on_weekday clicks d
       /\ (forall d', 0 <= d' < 7 -> (on_weekday clicks d' <= peakDayClicks p)%nat)
       /\ (forall d', 0 <= d' < d -> (on_weekday clicks d' < peakDayClicks p)%nat).
Proof.
  intros R p. unfold p, calculatePeakTimes. cbn [peakHour peakDay peakHourClicks peakDayClicks].
  rewrite (hourly_by_hour clicks R), (weekly_by_day clicks R).
  destruct (peak_upto (fun h => h) (in_hour clicks) 24 0 ltac:(lia)) as [h [Bh [-> [Mh Fh]]]].
  destruct (peak_upto dayName (on_weekday clicks) 7 None ltac:(lia)) as [d [Bd [-> [Md Fd]]]].
  cbn [fst snd]. split; [auto|]. exists d. auto.
Qed.

End Peaks.

Lemma calculatePeakTimes_first_maximum_witness :
  let clicks := six_referrers in
  let p := @Analytics.calculatePeakTimes example_host clicks in
  (0 <= Analytics.peakHour p < 24
   /\ Analytics.peakHourClicks p = @in_hour example_host clicks (Analytics.peakHour p)
   /\ (forall h, 0 <= h < 24 ->
         (@in_hour example_host clicks h <= Analytics.peakHourClicks p)%nat)
   /\ (forall h, 0 <= h < Analytics.peakHour p ->
         (@in_hour example_host clicks h < Analytics.peakHourClicks p)%nat))
  /\ exists d,
       0 <= d < 7
       /\ Analytics.peakDay p = Analytics.dayName d
       /\ Analytics.peakDayClicks p = @on_weekday example_host clicks d
       /\ (forall d', 0 <= d' < 7 ->
             (@on_weekday example_host clicks d' <= Analytics.peakDayClicks p)%nat)
       /\ (forall d', 0 <= d' < d ->
             (@on_weekday example_host clicks d' < Analytics.peakDayClicks p)%nat).
Proof.
  apply (@calculatePeakTimes_first_maximum example_host six_referrers).
  exact clock_readings_example.
Defined.

(* ================================================================== *)
(** * Part XIV. The store as a whole                                    *)
(* ================================================================== *)

Lemma find_app_one {A} (p : A -> bool) (l : list A) (x : A) :
  find p (l ++ [x]) =
  match find p l with
  | Some y => Some y
  | None => if p x then Some x else None
  end.
Proof.
  induction l as [|a l IH]; cbn; [reflexivity|].
  destruct (p a); [reflexivity|exact IH].
Qed.

Lemma find_filter_other {A} (p q : A -> bool) (l : list A) :
  (forall x, p x = true -> q x = true) ->
  find p (filter q l) = find p l.
Proof.
  intros PQ. induction l as [|a l IH]; cbn; [reflexivity|].
  destruct (q a) eqn:Q; cbn.
  - destruct (p a); [reflexivity|exact IH].
  - destruct (p a) eqn:P; [rewrite (PQ a P) in Q; discriminate|exact IH].
Qed.

Lemma find_none_of_existsb {A} (p q : A -> bool) (l : list A) :
  (forall x, p x = true -> q x = true) ->
  existsb q l = false -> find p l = None.
Proof.
  intros PQ. induction l as [|a l IH]; cbn; [reflexivity|].
  intros E. apply orb_false_iff in E. destruct E as [Qa E].
  destruct (p a) eqn:P; [rewrite (PQ a P) in Qa; discriminate|auto].
Qed.

(** A column that is unique stays unique when rows are deleted. *)
Lemma unique_after_delete {Row Col} (column : Row -> Col) (kept : Row -> bool)
    (rows : list Row) :
  NoDup (map column rows) -> NoDup (map column (filter kept rows)).
Proof.
  induction rows as [|a l IH]; cbn; intros ND; [constructor|].
  inversion ND as [|? ? N ND']; subst.
  destruct (kept a); cbn; [constructor|]; auto.
  intros I. apply N. apply in_map_iff in I. destruct I as [x [E I]].
  apply filter_In in I. rewrite <- E. apply in_map, I.
Qed.

Section StoreInvariant.
Import Db.

(** The number of click rows of a link. *)
Definition log_size (db : Database) (linkId : Z) : Z :=
  Z.of_nat (List.length (filter (fun c => ClickEvent.link_id c =? linkId) (clicks db))).

(** Ids are unique and below their sequence, codes are unique, every click
    belongs to a link of the table, and every counter is the number of
    click rows of its link. *)
Definition consistent (db : Database) : Prop :=
  NoDup (map TrackingLink.id (links db))
  /\ Forall (fun l => TrackingLink.id l <= links_seq db) (links db)
  /\ NoDup (map TrackingLink.short_code (links db))
  /\ NoDup (map ClickEvent.id (clicks db))
  /\ Forall (fun c => ClickEvent.id c <= clicks_seq db) (clicks db)
  /\ Forall (fun c => In (ClickEvent.link_id c) (map TrackingLink.id (links db))) (clicks db)
  /\ Forall (fun l => TrackingLink.clicks l = log_size db (TrackingLink.id l)) (links db).

Lemma consistent_empty : consistent empty.
Proof. unfold consistent. cbn. repeat split; constructor. Qed.

(** What a successful [createLink] did. *)
Lemma createLink_inserted db data now randoms row db' :
  createLink db data now randoms = Return (row, db') ->
  exists code,
    row = TrackingLink.mk (links_seq db + 1) code (CreateLinkRequest.original_url data)
            (or_null (CreateLinkRequest.title data))
            (or_null (CreateLinkRequest.description data)) now now 0 true
    /\ db' = mkDatabase (links db ++ [row]) (clicks db) (links_seq db + 1) (clicks_seq db)
    /\ existsb (fun l => String.eqb (TrackingLink.short_code l) code) (links db) = false
    /\ getLinkByCode db code = None
    /\ match CreateLinkRequest.custom_code data with
       | Some (String a c) => code = String a c
       | _ => exists turns, generate_until_free db turns randoms = Some code
       end.
Proof.
  unfold createLink, insert_link.
  destruct (CreateLinkRequest.custom_code data) as [[|a c]|].
  1,3: destruct (generate_until_free db _ randoms) as [code|] eqn:G; [|discriminate].
  3: destruct (getLinkByCode db (String a c)) eqn:G; [discriminate|]; set (code := String a c).
  all: destruct (existsb _ (links db)) eqn:E; [discriminate|];
       intros R; inversion R; subst; clear R; exists code; repeat split; eauto.
  all: unfold getLinkByCode;
       apply (find_none_of_existsb _ _ _ (fun x P => proj1 (andb_prop _ _ P)) E).
Qed.

Lemma log_size_no_click db i :
  Forall (fun c => In (ClickEvent.link_id c) (map TrackingLink.id (links db))) (clicks db) ->
  ~ In i (map TrackingLink.id (links db)) ->
  List.length (filter (fun c => ClickEvent.link_id c =? i) (clicks db)) = 0%nat.
Proof.
  intros F N. rewrite filter_none; [reflexivity|].
  intros c Ic. rewrite Forall_forall in F. specialize (F c Ic).
  apply Z.eqb_neq. intros E. rewrite E in F. contradiction.
Qed.

Lemma consistent_createLink db data now randoms row db' :
  consistent db -> createLink db data now randoms = Return (row, db') -> consistent db'.
Proof.
  intros [Ids [Seq [Codes [CIds [CSeq [Ref Cnt]]]]]] C.
  pose proof (createLink_keeps_codes_unique db data now randoms row db' Codes C) as Codes'.
  apply createLink_inserted in C. destruct C as [code [Er [Ed [Ex _]]]].
  assert (Fresh : ~ In (links_seq db + 1) (map TrackingLink.id (links db))).
  { intros I. apply in_map_iff in I. destruct I as [l [E I]].
    rewrite Forall_forall in Seq. specialize (Seq l I). lia. }
  unfold consistent. rewrite Ed in *. cbn [links clicks links_seq clicks_seq] in *.
  unfold log_size. cbn [clicks].
  split; [|split; [|split; [|split; [|split; [|split]]]]]; try assumption.
  - rewrite map_app. apply NoDup_app; [exact Ids|repeat constructor; auto|].
    intros i Ii [<-|[]]. rewrite Er in Ii. cbn in Ii. contradiction.
  - apply Forall_app. split.
    + revert Seq. apply Forall_impl. intros l L. lia.
    + repeat constructor. rewrite Er. cbn. lia.
  - revert Ref. apply Forall_impl. intros c I. rewrite map_app. apply in_or_app. left. exact I.
  - apply Forall_app. split; [exact Cnt|]. repeat constructor.
    rewrite Er. cbn [TrackingLink.clicks TrackingLink.id].
    rewrite (log_size_no_click db _ Ref Fresh). reflexivity.
Qed.

Lemma consistent_updateLink db id data now :
  consistent db -> consistent (snd (updateLink db id data now)).
Proof.
  intros [Ids [Seq [Codes [CIds [CSeq [Ref Cnt]]]]]].
  unfold updateLink. destruct (no_updates data); cbn [snd]; [repeat split; assumption|].
  set (f := fun l => if TrackingLink.id l =? id then apply_update data now l else l).
  assert (Fid : forall l, TrackingLink.id (f l) = TrackingLink.id l)
    by (intros l; unfold f; destruct (_ =? _); reflexivity).
  assert (Fcode : forall l, TrackingLink.short_code (f l) = TrackingLink.short_code l)
    by (intros l; unfold f; destruct (_ =? _); reflexivity).
  assert (Fclk : forall l, TrackingLink.clicks (f l) = TrackingLink.clicks l)
    by (intros l; unfold f; destruct (_ =? _); reflexivity).
  assert (Mid : map TrackingLink.id (map f (links db)) = map TrackingLink.id (links db))
    by (rewrite map_map; apply map_ext; exact Fid).
  unfold consistent, log_size. cbn [links clicks links_seq clicks_seq].
  rewrite Mid. split; [exact Ids|]. split.
  - apply Forall_map. revert Seq. apply Forall_impl. intros l L. rewrite Fid. exact L.
  - split; [rewrite map_map; rewrite (map_ext _ _ Fcode); exact Codes|].
    split; [exact CIds|]. split; [exact CSeq|]. split; [exact Ref|].
    apply Forall_map. revert Cnt. apply Forall_impl. intros l L.
    rewrite Fclk, Fid. exact L.
Qed.

Lemma consistent_deleteLink db id :
  consistent db -> consistent (snd (deleteLink db id)).
Proof.
  intros [Ids [Seq [Codes [CIds [CSeq [Ref Cnt]]]]]].
  unfold deleteLink, consistent, log_size. cbn [snd links clicks links_seq clicks_seq].
  split; [apply unique_after_delete; exact Ids|].
  split; [apply incl_Forall with (l1 := links db); [apply incl_filter|exact Seq]|].
  split; [apply unique_after_delete; exact Codes|].
  split; [apply unique_after_delete; exact CIds|].
  split; [apply incl_Forall with (l1 := clicks db); [apply incl_filter|exact CSeq]|].
  split.
  - apply Forall_forall. intros c Ic. apply filter_In in Ic. destruct Ic as [Ic Nc].
    rewrite Forall_forall in Ref. specialize (Ref c Ic).
    apply in_map_iff in Ref. destruct Ref as [l [E Il]].
    apply in_map_iff. exists l. split; [exact E|]. apply filter_In. split; [exact Il|].
    rewrite E. exact Nc.
  - apply Forall_forall. intros l Il. apply filter_In in Il. destruct Il as [Il Nl].
    rewrite Forall_forall in Cnt. rewrite (Cnt l Il). unfold log_size. f_equal. f_equal.
    rewrite filter_filter. apply filter_ext. intros c.
    destruct (Z.eqb_spec (ClickEvent.link_id c) (TrackingLink.id l)) as [E|E].
    + rewrite E, Nl. reflexivity.
    + symmetry. apply andb_false_r.
Qed.

Lemma consistent_recordClick db linkId clickData now row db' :
  consistent db -> recordClick db linkId clickData now = Return (row, db') -> consistent db'.
Proof.
  intros [Ids [Seq [Codes [CIds [CSeq [Ref Cnt]]]]]].
  unfold recordClick. destruct (existsb _ (links db)) eqn:Ex; cbn [negb]; [|discriminate].
  intros R. inversion R; subst; clear R.
  set (bump := fun l : TrackingLink.t => if TrackingLink.id l =? linkId then _ else l).
  assert (Fid : forall l, TrackingLink.id (bump l) = TrackingLink.id l)
    by (intros l; unfold bump; destruct (_ =? _); reflexivity).
  assert (Fcode : forall l, TrackingLink.short_code (bump l) = TrackingLink.short_code l)
    by (intros l; unfold bump; destruct (_ =? _); reflexivity).
  assert (Mid : map TrackingLink.id (map bump (links db)) = map TrackingLink.id (links db))
    by (rewrite map_map; apply map_ext; exact Fid).
  assert (Il : In linkId (map TrackingLink.id (links db))).
  { apply existsb_exists in Ex. destruct Ex as [l [I E]]. apply Z.eqb_eq in E.
    rewrite <- E. apply in_map, I. }
  unfold consistent, log_size. cbn [links clicks links_seq clicks_seq].
  rewrite Mid. split; [exact Ids|]. split.
  { apply Forall_map. revert Seq. apply Forall_impl. intros l L. rewrite Fid. exact L. }
  split; [rewrite map_map; rewrite (map_ext _ _ Fcode); exact Codes|].
  split.
  { rewrite map_app. apply NoDup_app; [exact CIds|repeat constructor; auto|].
    intros i Ii [<-|[]]. cbn in Ii. apply in_map_iff in Ii. destruct Ii as [c [E Ic]].
    rewrite Forall_forall in CSeq. specialize (CSeq c Ic). lia. }
  split.
  { apply Forall_app. split.
    - revert CSeq. apply Forall_impl. intros c L. lia.
    - repeat constructor. cbn. lia. }
  split.
  { apply Forall_app. split; [exact Ref|]. repeat constructor. exact Il. }
  apply Forall_map. revert Cnt. apply Forall_impl. intros l L.
  rewrite Fid, filter_app, length_app. cbn [filter ClickEvent.link_id].
  unfold bump. rewrite (Z.eqb_sym linkId).
  destruct (TrackingLink.id l =? linkId); cbn [TrackingLink.clicks List.length];
    rewrite L; unfold log_size; lia.
Qed.

(** X5.  The four writers keep the store consistent: ids and codes stay
    unique, no click row is left without its link, and every link's counter
    equals the number of its click rows. *)
Theorem writers_keep_store_consistent (db : Database) :
  consistent db ->
  (forall data now randoms row db',
      createLink db data now randoms = Return (row, db') -> consistent db')
  /\ (forall id data now, consistent (snd (updateLink db id data now)))
  /\ (forall id, consistent (snd (deleteLink db id)))
  /\ (forall linkId clickData now row db',
         recordClick db linkId clickData now = Return (row, db') -> consistent db').
Proof.
  intros C. split; [|split; [|split]].
  - intros ? ? ? ? ?. apply consistent_createLink. exact C.
  - intros ? ? ?. apply consistent_updateLink. exact C.
  - intros ?. apply consistent_deleteLink. exact C.
  - intros ? ? ? ? ?. apply consistent_recordClick. exact C.
Qed.

End StoreInvariant.

Lemma consistent_example : consistent store_with_deactivated_link.
Proof.
  unfold consistent, log_size. cbn.
  repeat split; repeat constructor; cbn; try tauto; try lia.
Qed.

Lemma writers_keep_store_consistent_witness :
  let db := store_with_deactivated_link in
  (forall data now randoms row db',
      Db.createLink db data now randoms = Return (row, db') -> consistent db')
  /\ (forall id data now, consistent (snd (Db.updateLink db id data now)))
  /\ (forall id, consistent (snd (Db.deleteLink db id)))
  /\ (forall linkId clickData now row db',
         Db.recordClick db linkId clickData now = Return (row, db') -> consistent db').
Proof. exact (writers_keep_store_consistent store_with_deactivated_link consistent_example). Defined.

Section StoreRoundTrips.
Import Db.

(** X6.  After a successful [createLink] on a consistent store, the new
    link is what both lookups return, by its id and by its code; it is
    active, has no clicks, carries the requested destination and, when one
    was given, the custom code; every other lookup answers as before. *)
Theorem createLink_then_lookup db data now randoms row db' :
  consistent db ->
  createLink db data now randoms = Return (row, db') ->
  getLinkById db' (TrackingLink.id row) = Some row
  /\ getLinkByCode db' (TrackingLink.short_code row) = Some row
  /\ TrackingLink.original_url row = CreateLinkRequest.original_url data
  /\ TrackingLink.active row = true
  /\ TrackingLink.clicks row = 0
  /\ (forall a c, CreateLinkRequest.custom_code data = Some (String a c) ->
        TrackingLink.short_code row = String a c)
  /\ (forall i, i <> TrackingLink.id row -> getLinkById db' i = getLinkById db i)
  /\ (forall c, c <> TrackingLink.short_code row -> getLinkByCode db' c = getLinkByCode db c).
Proof.
  intros [Ids [Seq _]] C.
  apply createLink_inserted in C. destruct C as [code [Er [Ed [Ex [G Cu]]]]].
  assert (Fresh : find (fun l => TrackingLink.id l =? links_seq db + 1) (links db) = None).
  { apply (find_none_of_existsb _ _ _ (fun x P => P)).
    apply not_true_is_false. intros E. apply existsb_exists in E.
    destruct E as [l [I E]]. apply Z.eqb_eq in E.
    rewrite Forall_forall in Seq. specialize (Seq l I). lia. }
  rewrite Ed. unfold getLinkById, getLinkByCode in *. cbn [links].
  rewrite Er. cbn [TrackingLink.id TrackingLink.short_code TrackingLink.original_url
                   TrackingLink.active TrackingLink.clicks].
  rewrite !find_app_one, Fresh, G. cbn [TrackingLink.id TrackingLink.short_code
                                        TrackingLink.active].
  rewrite Z.eqb_refl, String.eqb_refl. cbn [andb].
  repeat split.
  - intros a c E. rewrite E in Cu. exact Cu.
  - intros i N. rewrite ?find_app_one. cbn [TrackingLink.id].
    destruct (find (fun l => TrackingLink.id l =? i) (links db)); [reflexivity|].
    destruct (Z.eqb_spec (links_seq db + 1) i); [congruence|reflexivity].
  - intros c N. rewrite ?find_app_one. cbn [TrackingLink.short_code TrackingLink.active].
    destruct (find (fun l => String.eqb (TrackingLink.short_code l) c && TrackingLink.active l)
                (links db)); [reflexivity|].
    destruct (String.eqb_spec code c); [congruence|reflexivity].
Qed.

(** X7.  [deleteLink] reports whether the link was there; afterwards the
    link is gone and so is every click of it, while every other link and
    the clicks of every other link are as before. *)
Theorem deleteLink_cascades db id :
  fst (deleteLink db id) = match getLinkById db id with Some _ => true | None => false end
  /\ getLinkById (snd (deleteLink db id)) id = None
  /\ filter (fun c => ClickEvent.link_id c =? id) (clicks (snd (deleteLink db id))) = []
  /\ (forall j, j <> id ->
        getLinkById (snd (deleteLink db id)) j = getLinkById db j
        /\ filter (fun c => ClickEvent.link_id c =? j) (clicks (snd (deleteLink db id)))
           = filter (fun c => ClickEvent.link_id c =? j) (clicks db)).
Proof.
  unfold deleteLink, getLinkById. cbn [fst snd links clicks].
  split; [|split; [|split]].
  - induction (links db) as [|l ls IH]; cbn; [reflexivity|].
    destruct (TrackingLink.id l =? id); [reflexivity|exact IH].
  - induction (links db) as [|l ls IH]; cbn; [reflexivity|].
    destruct (TrackingLink.id l =? id) eqn:E; cbn; [exact IH|]. rewrite E. exact IH.
  - rewrite filter_filter. apply filter_none. intros c _.
    destruct (ClickEvent.link_id c =? id); reflexivity.
  - intros j N. split.
    + apply find_filter_other. intros l E. apply Z.eqb_eq in E.
      apply negb_true_iff, Z.eqb_neq. congruence.
    + rewrite filter_filter. apply filter_ext. intros c.
      destruct (Z.eqb_spec (ClickEvent.link_id c) j) as [E|E]; [|apply andb_false_r].
      rewrite andb_true_r. apply negb_true_iff, Z.eqb_neq. congruence.
Qed.

End StoreRoundTrips.

Lemma createLink_then_lookup_witness :
  let data := CreateLinkRequest.mk "https://example.org" None None (Some "summer-sale") in
  let row := TrackingLink.mk 2 "summer-sale" "https://example.org" None None 3000 3000 0 true in
  let db' := Db.mkDatabase [deactivated_link; row] [] 2 0 in
  Db.getLinkById db' (TrackingLink.id row) = Some row
  /\ Db.getLinkByCode db' (TrackingLink.short_code row) = Some row
  /\ TrackingLink.original_url row = CreateLinkRequest.original_url data
  /\ TrackingLink.active row = true
  /\ TrackingLink.clicks row = 0
  /\ (forall a c, CreateLinkRequest.custom_code data = Some (String a c) ->
        TrackingLink.short_code row = String a c)
  /\ (forall i, i <> TrackingLink.id row ->
        Db.getLinkById db' i = Db.getLinkById store_with_deactivated_link i)
  /\ (forall c, c <> TrackingLink.short_code row ->
        Db.getLinkByCode db' c = Db.getLinkByCode store_with_deactivated_link c).
Proof.
  apply (createLink_then_lookup store_with_deactivated_link
           (CreateLinkRequest.mk "https://example.org" None None (Some "summer-sale"))
           3000 []).
  - exact consistent_example.
  - reflexivity.
Defined.

(** ** Generated codes *)

Definition alphanumeric (a : ascii) : bool :=
  let n := nat_of_ascii a in
  ((97 <=? n) && (n <=? 122) || (65 <=? n) && (n <=? 90) || (48 <=? n) && (n <=? 57))%nat.

(** The index a draw selects is one of the 62 positions of the alphabet, as
    it is for every value in [0, 1). *)
Definition selects_a_character (r : float) : Prop :=
  exists i, to_integer (Math_floor (r * Number_of_nat (String.length Db.chars))) = Some i
            /\ 0 <= i < 62.

Lemma chars_get (n : nat) :
  (n < 62)%nat -> exists a, String.get n Db.chars = Some a /\ alphanumeric a = true.
Proof.
  intros L.
  assert (A : forallb (fun n => match String.get n Db.chars with
                                | Some a => alphanumeric a
                                | None => false
                                end) (seq 0 62) = true) by (vm_compute; reflexivity).
  rewrite forallb_forall in A. specialize (A n). rewrite in_seq in A.
  specialize (A ltac:(lia)). destruct (String.get n Db.chars) as [a|]; [|discriminate].
  exists a. auto.
Qed.

Lemma code_char_alphanumeric (a : ascii) :
  alphanumeric a = true -> LinksRoute.code_char a = true.
Proof.
  unfold alphanumeric, LinksRoute.code_char. intros ->. reflexivity.
Qed.

Lemma all_chars_app (p : ascii -> bool) (s t : string) :
  LinksRoute.all_chars p (s ++ t)%string
  = LinksRoute.all_chars p s && LinksRoute.all_chars p t.
Proof.
  induction s as [|a s IH]; cbn; [reflexivity|]. rewrite IH. apply andb_assoc.
Qed.

Lemma all_chars_weaken (p q : ascii -> bool) (s : string) :
  (forall a, p a = true -> q a = true) ->
  LinksRoute.all_chars p s = true -> LinksRoute.all_chars q s = true.
Proof.
  intros W. induction s as [|a s IH]; cbn; [reflexivity|].
  intros E. apply andb_true_iff in E. destruct E as [E1 E2].
  rewrite (W a E1), (IH E2). reflexivity.
Qed.

Lemma length_append (s t : string) :
  String.length (s ++ t)%string = (String.length s + String.length t)%nat.
Proof. induction s as [|a s IH]; cbn; [reflexivity|]. rewrite IH. reflexivity. Qed.

Lemma generateShortCode_result n randoms code rest :
  Forall selects_a_character randoms ->
  Db.generateShortCode n randoms = Some (code, rest) ->
  rest = skipn n randoms
  /\ String.length code = n
  /\ LinksRoute.all_chars alphanumeric code = true.
Proof.
  revert randoms code rest.
  induction n as [|n IH]; intros randoms code rest F; cbn [Db.generateShortCode].
  - intros E. inversion E. repeat split.
  - destruct randoms as [|r randoms]; [discriminate|].
    inversion F as [|? ? [i [Ei Bi]] F']; subst.
    destruct (Db.generateShortCode n randoms) as [[result rest']|] eqn:G; [|discriminate].
    intros E. inversion E; subst; clear E.
    destruct (IH _ _ _ F' G) as [Er [El Ea]].
    unfold charAt. change (String.length Db.chars) with 62%nat in Ei. rewrite Ei.
    destruct (Z.ltb_spec i 0); [lia|].
    destruct (chars_get (Z.to_nat i) ltac:(lia)) as [a [-> Aa]].
    cbn [String.append String.length LinksRoute.all_chars].
    rewrite Aa, Ea, El. repeat split. exact Er.
Qed.

(** X8.  Given enough draws, each selecting a character,
    [generateShortCode(n)] returns a code of exactly [n] characters, all of
    them letters or digits, and uses up exactly [n] draws. *)
Theorem generateShortCode_alphanumeric (n : nat) (randoms : list float) :
  (n <= List.length randoms)%nat ->
  Forall selects_a_character randoms ->
  exists code,
    Db.generateShortCode n randoms = Some (code, skipn n randoms)
    /\ String.length code = n
    /\ LinksRoute.all_chars alphanumeric code = true.
Proof.
  intros L F.
  assert (E : exists code rest, Db.generateShortCode n randoms = Some (code, rest)).
  { clear F. revert randoms L. induction n as [|n IH]; intros randoms L; cbn.
    - eauto.
    - destruct randoms as [|r randoms]; [cbn in L; lia|].
      destruct (IH randoms ltac:(cbn in L; lia)) as [c [rest ->]]. eauto. }
  destruct E as [code [rest E]].
  destruct (generateShortCode_result n randoms code rest F E) as [-> [El Ea]].
  exists code. auto.
Qed.

Lemma eight_draws_select : Forall selects_a_character eight_draws.
Proof.
  repeat constructor; eexists; (split; [vm_compute; reflexivity|lia]).
Qed.

Lemma generateShortCode_alphanumeric_witness :
  exists code,
    Db.generateShortCode 8 eight_draws = Some (code, skipn 8 eight_draws)
    /\ String.length code = 8%nat
    /\ LinksRoute.all_chars alphanumeric code = true.
Proof.
  apply (generateShortCode_alphanumeric 8 eight_draws).
  - cbn. lia.
  - exact eight_draws_select.
Defined.

Lemma generate_until_free_result db turns randoms code :
  Forall selects_a_character randoms ->
  Db.generate_until_free db turns randoms = Some code ->
  Db.getLinkByCode db code = None
  /\ String.length code = 8%nat
  /\ LinksRoute.all_chars alphanumeric code = true.
Proof.
  revert randoms. induction turns as [|turns IH]; intros randoms F; cbn [Db.generate_until_free];
    [discriminate|].
  destruct (Db.generateShortCode 8 randoms) as [[c rest]|] eqn:G; [|discriminate].
  destruct (generateShortCode_result 8 randoms c rest F G) as [Er [El Ea]].
  destruct (Db.getLinkByCode db c) eqn:L.
  - apply IH. rewrite Er. clear -F.
    rewrite <- (firstn_skipn 8 randoms) in F. apply Forall_app in F. apply F.
  - intros E. inversion E; subst. auto.
Qed.

(** X9.  A link that [createLink] creates without a custom code, from
    draws that each select a character, has a code of exactly 8 letters and
    digits (so it meets the rules for custom codes too) that no link of the
    store had before. *)
Theorem createLink_generates_fresh_code db url t d now randoms row db' :
  Forall selects_a_character randoms ->
  Db.createLink db (CreateLinkRequest.mk url t d None) now randoms = Return (row, db') ->
  String.length (TrackingLink.short_code row) = 8%nat
  /\ LinksRoute.all_chars alphanumeric (TrackingLink.short_code row) = true
  /\ LinksRoute.code_pattern (TrackingLink.short_code row) = true
  /\ ~ In (TrackingLink.short_code row) (map TrackingLink.short_code (Db.links db)).
Proof.
  intros F C. apply createLink_inserted in C.
  destruct C as [code [Er [_ [Ex [_ [turns G]]]]]].
  destruct (generate_until_free_result db turns randoms code F G) as [_ [El Ea]].
  rewrite Er. cbn [TrackingLink.short_code]. split; [exact El|]. split; [exact Ea|]. split.
  - unfold LinksRoute.code_pattern. destruct code; [discriminate|].
    apply (all_chars_weaken alphanumeric); [exact code_char_alphanumeric|exact Ea].
  - intros I. apply in_map_iff in I. destruct I as [l [E I]].
    rewrite (code_taken db code l I E) in Ex. discriminate.
Qed.

Lemma createLink_generates_fresh_code_witness :
  let row := TrackingLink.mk 1 "GMSYflrx" "https://example.com" None None 1000 1000 0 true in
  String.length (TrackingLink.short_code row) = 8%nat
  /\ LinksRoute.all_chars alphanumeric (TrackingLink.short_code row) = true
  /\ LinksRoute.code_pattern (TrackingLink.short_code row) = true
  /\ ~ In (TrackingLink.short_code row) (map TrackingLink.short_code (Db.links Db.empty)).
Proof.
  apply (createLink_generates_fresh_code Db.empty "https://example.com" None None 1000
           eight_draws _ (Db.mkDatabase
                            [TrackingLink.mk 1 "GMSYflrx" "https://example.com" None None
                               1000 1000 0 true] [] 1 0)).
  - exact eight_draws_select.
  - vm_compute. reflexivity.
Defined.

(** ** Pages *)

Lemma firstn_pages {A} (n m : nat) (l : list A) :
  firstn n l ++ firstn m (skipn n l) = firstn (n + m) l.
Proof.
  revert l. induction n as [|n IH]; intros l; cbn; [reflexivity|].
  destruct l as [|a l]; cbn; [rewrite firstn_nil; reflexivity|].
  rewrite IH. reflexivity.
Qed.



(* ================================================================== *)
(** * Part XV. The resolver and the client address                      *)
(* ================================================================== *)

Section Resolver.
Import Geo.

Definition window_elapsed (w : World) : bool :=
  resetTime (rateLimiter w) <? Date_now w.

Lemma getLocationFromIP_world net ip w :
  snd (getLocationFromIP net ip w)
  = if isPrivateIP ip then w
    else mkWorld (rateLimiter w) (Date_now w) (sent w ++ [(Primary, ip)]).
Proof.
  unfold getLocationFromIP, bind, fetch, ret. destruct (isPrivateIP ip); [reflexivity|].
  destruct (ip_api_com net ip) as [|[|] [data|]]; try reflexivity.
  destruct (match j_status data with Some s => String.eqb s "fail" | None => false end);
    reflexivity.
Qed.

Lemma getLocationFromIPFallback_world net ip w :
  snd (getLocationFromIPFallback net ip w)
  = if isPrivateIP ip then w
    else mkWorld (rateLimiter w) (Date_now w) (sent w ++ [(Secondary, ip)]).
Proof.
  unfold getLocationFromIPFallback, bind, fetch, ret. destruct (isPrivateIP ip); [reflexivity|].
  destruct (ip_api_com net ip), (ipapi_co net ip) as [|[|] [data|]]; try reflexivity;
    destruct (k_error data); reflexivity.
Qed.

Lemma getLocationFromIP_private net ip w :
  isPrivateIP ip = true -> getLocationFromIP net ip w = (privateLocation, w).
Proof. unfold getLocationFromIP. intros ->. reflexivity. Qed.

(** The two lookups that follow the budget check. *)
Definition lookups (net : Network) (ip : string) : IO GeolocationData.t :=
  location <- getLocationFromIP net ip ;;
  if match GeolocationData.status location with
     | Some s => String.eqb s "unknown"
     | None => false
     end
  then getLocationFromIPFallback net ip
  else ret location.

Lemma lookups_world net ip w :
  Date_now (snd (lookups net ip w)) = Date_now w
  /\ rateLimiter (snd (lookups net ip w)) = rateLimiter w
  /\ exists extra,
       sent (snd (lookups net ip w)) = sent w ++ extra
       /\ (extra = [] \/ extra = [(Primary, ip)]
           \/ extra = [(Primary, ip); (Secondary, ip)]).
Proof.
  unfold lookups, bind.
  destruct (getLocationFromIP net ip w) as [location w1] eqn:E.
  assert (W1 : w1 = snd (getLocationFromIP net ip w)) by (rewrite E; reflexivity).
  rewrite getLocationFromIP_world in W1.
  destruct (isPrivateIP ip) eqn:P.
  - rewrite getLocationFromIP_private in E by exact P. inversion E; subst.
    cbn. repeat split. exists []. rewrite app_nil_r. auto.
  - destruct (match GeolocationData.status location with
              | Some s => String.eqb s "unknown"
              | None => false
              end).
    + rewrite getLocationFromIPFallback_world, P, W1. cbn. repeat split.
      exists [(Primary, ip); (Secondary, ip)]. rewrite <- app_assoc. auto.
    + rewrite W1. cbn. repeat split. exists [(Primary, ip)]. auto.
Qed.

(** The budget check, then the lookups on the state with the call booked. *)
Lemma getLocationWithFallback_steps net ip w :
  getLocationWithFallback net ip w
  = if budget_open w
    then lookups net ip
           (mkWorld
              (mkRateLimit
                 ((if window_elapsed w then 0 else calls (rateLimiter w)) + 1)
                 (if window_elapsed w then Date_now w + 3600000
                  else resetTime (rateLimiter w)))
              (Date_now w) (sent w))
    else (getFallbackLocation, w).
Proof.
  destruct w as [[c rt] now sent0].
  unfold getLocationWithFallback, bind, canMakeCall, recordCall, budget_open, window_elapsed,
    maxCalls, lookups, ret.
  cbn [rateLimiter Date_now sent calls resetTime].
  destruct (rt <? now) eqn:R; cbn [orb calls resetTime].
  - reflexivity.
  - destruct (c <? 900); reflexivity.
Qed.

(** X11.  One call of [getLocationWithFallback] sends at most two requests:
    none, or one to the primary provider, or one to the primary and then
    one to the secondary, all for the address asked about.  With the budget
    used up it sends none, answers the [unknown] sentinel and leaves the
    state as it is; otherwise it books exactly one call, starting a new
    hourly window first if the old one has elapsed.  The counter never
    leaves the range 0..900. *)
Theorem getLocationWithFallback_budget (net : Network) (ip : string) (w : World) :
  let r := fst (getLocationWithFallback net ip w) in
  let w' := snd (getLocationWithFallback net ip w) in
  Date_now w' = Date_now w
  /\ (exists extra,
        sent w' = sent w ++ extra
        /\ (extra = [] \/ extra = [(Primary, ip)]
            \/ extra = [(Primary, ip); (Secondary, ip)]))
  /\ (budget_open w = false -> r = getFallbackLocation /\ w' = w)
  /\ (budget_open w = true ->
        calls (rateLimiter w')
        = (if window_elapsed w then 0 else calls (rateLimiter w)) + 1
        /\ resetTime (rateLimiter w')
           = (if window_elapsed w then Date_now w + 3600000 else resetTime (rateLimiter w)))
  /\ (0 <= calls (rateLimiter w) <= maxCalls -> 0 <= calls (rateLimiter w') <= maxCalls).
Proof.
  cbn zeta. rewrite getLocationWithFallback_steps.
  destruct (budget_open w) eqn:B.
  - set (w1 := mkWorld _ (Date_now w) (sent w)).
    destruct (lookups_world net ip w1) as [D [L S]].
    split; [exact D|]. split; [exact S|]. split; [discriminate|].
    rewrite L. cbn [w1 rateLimiter calls resetTime].
    split; [intros _; split; reflexivity|].
    intros Bc. unfold budget_open, window_elapsed, maxCalls in *.
    destruct (resetTime (rateLimiter w) <? Date_now w); [lia|].
    cbn [orb] in B. apply Z.ltb_lt in B. lia.
  - cbn [fst snd]. split; [reflexivity|]. split; [exists []; rewrite app_nil_r; auto|].
    split; [auto|]. split; [discriminate|]. auto.
Qed.

(** The result built from a body of the primary, of the secondary. *)
Definition from_primary (data : IpApiJson) : GeolocationData.t :=
  GeolocationData.mk (j_country data) (j_countryCode data) (j_regionName data)
    (j_city data) (j_lat data) (j_lon data) (j_timezone data) (j_isp data)
    (j_org data) (j_query data) (j_status data).

Definition from_secondary (data : IpapiCoJson) : GeolocationData.t :=
  GeolocationData.mk (k_country_name data) (k_country_code data) (k_region data)
    (k_city data) (k_latitude data) (k_longitude data) (k_timezone data)
    (k_org data) None None (Some "success").

(** The primary delivers: the request succeeds, the answer is ok, its body
    parses, and its status is neither [fail] nor [unknown]. *)
Definition primary_delivers (net : Network) (ip : string) : option IpApiJson :=
  match ip_api_com net ip with
  | Response true (Some data) =>
      match j_status data with
      | Some s => if String.eqb s "fail" || String.eqb s "unknown" then None else Some data
      | None => Some data
      end
  | _ => None
  end.

(** The secondary delivers: ok, parsed, and no error flag. *)
Definition secondary_delivers (net : Network) (ip : string) : option IpapiCoJson :=
  match ipapi_co net ip with
  | Response true (Some data) => if k_error data then None else Some data
  | _ => None
  end.

(** X12.  For a public address and an open budget: when the primary
    provider delivers, its answer is the result and the secondary is not
    asked; when it does not, the secondary is asked next, and the result is
    its answer with status [success], or the [unknown] sentinel when it
    does not deliver either. *)
Theorem getLocationWithFallback_falls_through (net : Network) (ip : string) (w : World) :
  isPrivateIP ip = false ->
  budget_open w = true ->
  let r := fst (getLocationWithFallback net ip w) in
  let asked := sent (snd (getLocationWithFallback net ip w)) in
  match primary_delivers net ip, secondary_delivers net ip with
  | Some data, _ => r = from_primary data /\ asked = sent w ++ [(Primary, ip)]
  | None, Some data =>
      r = from_secondary data /\ asked = sent w ++ [(Primary, ip); (Secondary, ip)]
  | None, None =>
      r = getFallbackLocation /\ asked = sent w ++ [(Primary, ip); (Secondary, ip)]
  end.
Proof.
  intros P B. cbn zeta. rewrite getLocationWithFallback_steps, B.
  assert (Second : forall w1,
             getLocationFromIPFallback net ip w1
             = (match secondary_delivers net ip with
                | Some data => from_secondary data
                | None => getFallbackLocation
                end,
                mkWorld (rateLimiter w1) (Date_now w1) (sent w1 ++ [(Secondary, ip)]))).
  { intros w1. unfold getLocationFromIPFallback, secondary_delivers, bind, fetch, ret.
    rewrite P. destruct (ipapi_co net ip) as [|[|] [d2|]]; try reflexivity.
    destruct (k_error d2); reflexivity. }
  assert (First : forall w1,
             getLocationFromIP net ip w1
             = (match ip_api_com net ip with
                | Response true (Some data) =>
                    if match j_status data with
                       | Some s => String.eqb s "fail"
                       | None => false
                       end
                    then getFallbackLocation else from_primary data
                | _ => getFallbackLocation
                end,
                mkWorld (rateLimiter w1) (Date_now w1) (sent w1 ++ [(Primary, ip)]))).
  { intros w1. unfold getLocationFromIP, bind, fetch, ret.
    rewrite P. destruct (ip_api_com net ip) as [|[|] [d1|]]; try reflexivity.
    destruct (match j_status d1 with Some s => String.eqb s "fail" | None => false end);
      reflexivity. }
  assert (Apply : forall (b : bool) (f g : IO GeolocationData.t) w1,
             (if b then f else g) w1 = if b then f w1 else g w1)
    by (intros [|]; reflexivity).
  unfold lookups, bind. rewrite First. cbv beta iota. rewrite !Apply, !Second.
  unfold primary_delivers. cbn [sent rateLimiter Date_now]. rewrite <- app_assoc.
  cbn [app].
  destruct (ip_api_com net ip) as [|ok json].
  { cbn. destruct (secondary_delivers net ip); split; reflexivity. }
  destruct ok, json as [data|];
    try (cbn; destruct (secondary_delivers net ip); split; reflexivity).
  destruct (j_status data) as [s|] eqn:S.
  - destruct (String.eqb s "fail") eqn:Fl; cbn [orb].
    + cbn. destruct (secondary_delivers net ip); split; reflexivity.
    + unfold from_primary. cbn [GeolocationData.status]. rewrite ?S.
      destruct (String.eqb s "unknown") eqn:U.
      * cbn. destruct (secondary_delivers net ip); split; reflexivity.
      * cbn. rewrite ?S. split; reflexivity.
  - unfold from_primary. cbn [GeolocationData.status]. rewrite ?S. cbn. rewrite ?S.
    split; reflexivity.
Qed.

End Resolver.

Definition a_public_address : string := "203.0.113.9".

(** The primary is down and the secondary places the address in Paris. *)
Definition secondary_only : Geo.Network :=
  Geo.mkNetwork (fun _ => Geo.FetchFailed)
    (fun _ => Geo.Response true
                (Some (Geo.mkIpapiCoJson false (Some "France") (Some "FR")
                         (Some "Ile-de-France") (Some "Paris")
                         (Some 48.8566%float) (Some 2.3522%float)
                         (Some "Europe/Paris") (Some "Example Net")))).

Lemma getLocationWithFallback_falls_through_witness :
  fst (Geo.getLocationWithFallback secondary_only a_public_address fresh_world)
  = from_secondary
      (Geo.mkIpapiCoJson false (Some "France") (Some "FR") (Some "Ile-de-France")
         (Some "Paris") (Some 48.8566%float) (Some 2.3522%float)
         (Some "Europe/Paris") (Some "Example Net"))
  /\ Geo.sent (snd (Geo.getLocationWithFallback secondary_only a_public_address fresh_world))
     = Geo.sent fresh_world
       ++ [(Geo.Primary, a_public_address); (Geo.Secondary, a_public_address)].
Proof.
  apply (getLocationWithFallback_falls_through secondary_only a_public_address fresh_world);
    reflexivity.
Defined.

(** ** Dotted quads, exactly *)

Lemma octet_head n :
  (n <= 255)%nat ->
  exists ch s, octet n = String ch s /\ (48 <= nat_of_ascii ch <= 57)%nat.
Proof.
  intros L.
  assert (A : forallb (fun n => match octet n with
                                | String ch _ => ((48 <=? nat_of_ascii ch)
                                                  && (nat_of_ascii ch <=? 57))%nat
                                | EmptyString => false
                                end) (seq 0 256) = true) by (vm_compute; reflexivity).
  rewrite forallb_forall in A. specialize (A n). rewrite in_seq in A.
  specialize (A ltac:(lia)). destruct (octet n) as [|ch s]; [discriminate|].
  apply andb_true_iff in A. destruct A as [A1 A2].
  apply Nat.leb_le in A1. apply Nat.leb_le in A2. exists ch, s. auto.
Qed.

Lemma octet_injective a b :
  (a <= 255)%nat -> (b <= 255)%nat -> octet a = octet b -> a = b.
Proof.
  intros A B E. pose proof (proj2 (octet_facts a A)) as Pa.
  pose proof (proj2 (octet_facts b B)) as Pb. rewrite E in Pa. rewrite Pa in Pb.
  inversion Pb. lia.
Qed.

Lemma dotted_not_a_name a b c d :
  (a <= 255)%nat ->
  strip_prefix "::ffff:" (dotted a b c d) = dotted a b c d
  /\ String.eqb (dotted a b c d) "::1" = false
  /\ String.eqb (dotted a b c d) "localhost" = false.
Proof.
  intros A. destruct (octet_head a A) as [ch [s [E B]]].
  unfold dotted. rewrite E. cbn [String.append].
  assert (N1 : Ascii.eqb ":" ch = false).
  { apply Ascii.eqb_neq. intros <-. cbn in B. lia. }
  assert (N2 : Ascii.eqb ch ":" = false) by (rewrite Ascii.eqb_sym; exact N1).
  assert (N3 : Ascii.eqb ch "l" = false).
  { apply Ascii.eqb_neq. intros ->. cbn in B. lia. }
  unfold strip_prefix. cbn [startsWith String.eqb]. rewrite N1, N2, N3. auto.
Qed.

Lemma dotted_loopback a b c d :
  (a <= 255)%nat -> (b <= 255)%nat -> (c <= 255)%nat -> (d <= 255)%nat ->
  String.eqb (dotted a b c d) "127.0.0.1" = true
  <-> (a = 127 /\ b = 0 /\ c = 0 /\ d = 1)%nat.
Proof.
  intros A B C D. split.
  - intros E. apply String.eqb_eq in E.
    apply (f_equal (split ".")) in E. rewrite split_dotted in E by assumption.
    change (split "." "127.0.0.1") with [octet 127; octet 0; octet 0; octet 1] in E.
    injection E as Ea Eb Ec Ed.
    split; [|split; [|split]]; apply octet_injective; try assumption; lia.
  - intros [-> [-> [-> ->]]]. reflexivity.
Qed.

(** X13.  On a dotted quad with octets 0..255, [isPrivateIP] holds exactly
    for 10.x.x.x, 172.16-31.x.x, 192.168.x.x, 169.254.x.x and the one
    address 127.0.0.1 (the rest of 127.0.0.0/8 counts as public); and an
    IPv4-mapped form [::ffff:a.b.c.d] is classified like [a.b.c.d]. *)
Theorem isPrivateIP_dotted_exactly a b c d :
  (a <= 255)%nat -> (b <= 255)%nat -> (c <= 255)%nat -> (d <= 255)%nat ->
  (Geo.isPrivateIP (dotted a b c d) = true
   <-> (a = 10 \/ (a = 172 /\ 16 <= b <= 31) \/ (a = 192 /\ b = 168)
        \/ (a = 169 /\ b = 254) \/ (a = 127 /\ b = 0 /\ c = 0 /\ d = 1))%nat)
  /\ Geo.isPrivateIP ("::ffff:" ++ dotted a b c d)%string = Geo.isPrivateIP (dotted a b c d).
Proof.
  intros A B C D.
  destruct (dotted_not_a_name a b c d A) as [S [N1 N2]].
  split.
  - unfold Geo.isPrivateIP. rewrite S, N1, N2, !orb_false_r.
    destruct (String.eqb (dotted a b c d) "127.0.0.1") eqn:L.
    + apply dotted_loopback in L; try assumption. split; [intros _|reflexivity].
      right; right; right; right. exact L.
    + assert (NL : ~ (a = 127 /\ b = 0 /\ c = 0 /\ d = 1)%nat).
      { intros Q. apply dotted_loopback in Q; try assumption. congruence. }
      rewrite split_dotted by assumption.
      rewrite (proj2 (octet_facts a A)), (proj2 (octet_facts b B)).
      destruct (Z.eqb_spec (Z.of_nat a) 10), (Z.eqb_spec (Z.of_nat a) 172),
               (Z.eqb_spec (Z.of_nat a) 192), (Z.eqb_spec (Z.of_nat a) 169),
               (Z.eqb_spec (Z.of_nat b) 168), (Z.eqb_spec (Z.of_nat b) 254),
               (Z.leb_spec 16 (Z.of_nat b)), (Z.leb_spec (Z.of_nat b) 31);
        cbn [andb]; split; intros Q; try reflexivity; try discriminate;
        first [exfalso; lia | lia].
  - unfold Geo.isPrivateIP. rewrite S. reflexivity.
Qed.

Lemma isPrivateIP_dotted_exactly_witness :
  (Geo.isPrivateIP (dotted 127 0 0 2) = true
   <-> (127 = 10 \/ (127 = 172 /\ 16 <= 0 <= 31) \/ (127 = 192 /\ 0 = 168)
        \/ (127 = 169 /\ 0 = 254) \/ (127 = 127 /\ 0 = 0 /\ 0 = 0 /\ 2 = 1))%nat)
  /\ Geo.isPrivateIP ("::ffff:" ++ dotted 127 0 0 2)%string
     = Geo.isPrivateIP (dotted 127 0 0 2).
Proof. apply (isPrivateIP_dotted_exactly 127 0 0 2); lia. Defined.

Example isPrivateIP_other_loopback : Geo.isPrivateIP "127.0.0.2" = false.
Proof. reflexivity. Qed.

(** ** The client address *)

Definition no_space (a : ascii) : bool := negb (is_space a).

Lemma rev_string_acc_twice (s acc acc' : string) :
  rev_string_acc (rev_string_acc s acc) acc' = rev_string_acc acc (s ++ acc')%string.
Proof.
  revert acc acc'. induction s as [|a s IH]; intros acc acc'; cbn; [reflexivity|].
  rewrite IH. reflexivity.
Qed.

Lemma all_chars_rev (p : ascii -> bool) (s acc : string) :
  LinksRoute.all_chars p (rev_string_acc s acc)
  = LinksRoute.all_chars p s && LinksRoute.all_chars p acc.
Proof.
  revert acc. induction s as [|a s IH]; intros acc; cbn; [reflexivity|].
  rewrite IH. cbn. rewrite !andb_assoc. f_equal. apply andb_comm.
Qed.

Lemma trimStart_no_space (s : string) :
  LinksRoute.all_chars no_space s = true -> trimStart s = s.
Proof.
  destruct s as [|a s]; cbn; [reflexivity|]. unfold no_space at 1.
  intros E. apply andb_true_iff in E. destruct E as [E _].
  apply negb_true_iff in E. rewrite E. reflexivity.
Qed.

Lemma append_empty (s : string) : (s ++ "")%string = s.
Proof. induction s as [|a s IH]; cbn; [reflexivity|]. rewrite IH. reflexivity. Qed.

Lemma trim_no_space (s : string) :
  LinksRoute.all_chars no_space s = true -> trim s = s.
Proof.
  intros E. unfold trim, trimEnd. rewrite (trimStart_no_space s E).
  rewrite trimStart_no_space by (rewrite all_chars_rev, E; reflexivity).
  rewrite rev_string_acc_twice. cbn. apply append_empty.
Qed.

(** White space, by its code units: tab, line feed, vertical tab, form
    feed, carriage return, space and no-break space. *)
Definition white_space (a : ascii) : bool :=
  existsb (Nat.eqb (nat_of_ascii a)) [9; 10; 11; 12; 13; 32; 160]%nat.

Lemma is_space_white_space (a : ascii) : is_space a = white_space a.
Proof. destruct a as [[|] [|] [|] [|] [|] [|] [|] [|]]; reflexivity. Qed.

Lemma no_white_space (s : string) :
  LinksRoute.all_chars (fun a => negb (white_space a)) s = true ->
  LinksRoute.all_chars no_space s = true.
Proof.
  apply all_chars_weaken. intros a E. unfold no_space.
  rewrite is_space_white_space. exact E.
Qed.

(** X14.  When [x-forwarded-for] is present and not empty, [getClientIP]
    takes its first hop and nothing else: the text before the first comma
    (all of it when there is no comma), trimmed, which is that text itself
    when it holds no white space; no other header is looked at. *)
Theorem getClientIP_first_hop (headers : list (string * string))
    (forwarded first rest : string) :
  Geo.header headers "x-forwarded-for" = Some forwarded ->
  forwarded <> "" ->
  has_no "," first = true ->
  forwarded = (first ++ "," ++ rest)%string \/ forwarded = first ->
  Geo.getClientIP headers = trim first
  /\ (LinksRoute.all_chars (fun a => negb (white_space a)) first = true ->
      Geo.getClientIP headers = first).
Proof.
  intros Hd NE C Sh.
  assert (G : Geo.getClientIP headers = trim first).
  { unfold Geo.getClientIP. rewrite Hd.
    destruct forwarded as [|a tl] eqn:F; [congruence|]. rewrite <- F.
    assert (S : exists more, split "," forwarded = first :: more).
    { destruct Sh as [E|E].
      - exists (split "," rest). rewrite F, E. apply split_at_separator, C.
      - exists []. rewrite F, E. apply split_no_separator, C. }
    destruct S as [more S].
    rewrite S. reflexivity. }
  split; [exact G|]. intros S. rewrite G. apply trim_no_space, no_white_space, S.
Qed.

(** A request that came through two proxies. *)
Definition forwarded_headers : list (string * string) :=
  [("x-forwarded-for", "203.0.113.9, 10.0.0.3, 10.0.0.2"); ("x-real-ip", "10.0.0.2")].

Lemma getClientIP_first_hop_witness :
  Geo.getClientIP forwarded_headers = trim "203.0.113.9"
  /\ (LinksRoute.all_chars (fun a => negb (white_space a)) "203.0.113.9" = true
      -> Geo.getClientIP forwarded_headers = "203.0.113.9").
Proof.
  apply (getClientIP_first_hop forwarded_headers "203.0.113.9, 10.0.0.3, 10.0.0.2"
           "203.0.113.9" " 10.0.0.3, 10.0.0.2").
  - reflexivity.
  - discriminate.
  - reflexivity.
  - left. reflexivity.
Defined.

(** A forwarded header that starts with a comma, and one whose hop ends in
    a no-break space: the first hop is empty; the no-break space is
    trimmed off. *)
Example getClientIP_odd_hops :
  Geo.getClientIP [("x-forwarded-for", ",10.0.0.1"); ("x-real-ip", "10.0.0.2")] = ""
  /\ Geo.getClientIP
       [("x-forwarded-for", String.append "198.51.100.1" (String (ascii_of_nat 160) ""))]
     = "198.51.100.1".
Proof. split; vm_compute; reflexivity. Qed.

(* ================================================================== *)
(** * Part XVI. Tracking an active link                                 *)
(* ================================================================== *)

Lemma getLocationWithFallback_clock net ip w :
  Geo.Date_now (snd (Geo.getLocationWithFallback net ip w)) = Geo.Date_now w.
Proof.
  rewrite getLocationWithFallback_steps. destruct (budget_open w); [|reflexivity].
  rewrite (proj1 (lookups_world net ip _)). reflexivity.
Qed.

(** The row [recordClick] writes for a link that is there. *)
Definition click_row (db : Db.Database) (linkId : Z) (clickData : Db.ClickData) (now : Z)
    : ClickEvent.t :=
  ClickEvent.mk (Db.clicks_seq db + 1) linkId (Db.ip_address clickData)
    (or_null (Db.user_agent clickData)) (or_null (Db.referer clickData))
    (or_null (Db.country clickData)) (or_null (Db.country_code clickData))
    (or_null (Db.region clickData)) (or_null (Db.city clickData))
    (or_null_number (Db.latitude clickData)) (or_null_number (Db.longitude clickData))
    (or_null (Db.timezone clickData)) (or_null (Db.isp clickData)) now.

Lemma recordClick_returns db link clickData now :
  In link (Db.links db) ->
  exists db',
    Db.recordClick db (TrackingLink.id link) clickData now
    = Return (click_row db (TrackingLink.id link) clickData now, db')
    /\ Db.clicks db' = Db.clicks db ++ [click_row db (TrackingLink.id link) clickData now]
    /\ map but_clicks (Db.links db') = map but_clicks (Db.links db)
    /\ map TrackingLink.clicks (Db.links db')
       = map (fun l => if TrackingLink.id l =? TrackingLink.id link
                       then TrackingLink.clicks l + 1 else TrackingLink.clicks l)
             (Db.links db).
Proof.
  intros I.
  destruct (Db.recordClick db (TrackingLink.id link) clickData now) as [[row db']| |] eqn:R.
  - pose proof (recordClick_rows _ _ _ _ _ _ R) as [B [K [C _]]].
    assert (E : row = click_row db (TrackingLink.id link) clickData now).
    { unfold Db.recordClick in R. destruct (negb _); [discriminate|].
      inversion R. reflexivity. }
    rewrite <- E. exists db'. repeat split; assumption.
  - exfalso. unfold Db.recordClick in R.
    replace (existsb _ (Db.links db)) with true in R; [discriminate|].
    symmetry. apply existsb_exists. exists link. split; [exact I|apply Z.eqb_refl].
  - unfold Db.recordClick in R. destruct (negb _); discriminate.
Qed.

Section Tracking.
Import Geo.
Context `{Track.Redirects}.


End Tracking.

Definition an_active_link : TrackingLink.t :=
  TrackingLink.mk 1 "GMSYflrx" "https://example.com" None None 1000 1000 0 true.

Definition store_with_active_link : Db.Database :=
  Db.mkDatabase [an_active_link] [] 1 0.


(** A link whose destination is no absolute URL; [POST /api/links] would
    have refused it, [createLink] stores it as it is. *)
Example GET_track_relative_destination :
  let db := Db.mkDatabase
              [TrackingLink.mk 1 "GMSYflrx" "/pricing" None None 1000 1000 0 true] [] 1 0 in
  let result := @Track.GET example_redirects offline db [] "GMSYflrx" fresh_world in
  fst (fst result) = Track.Json 500 "Internal server error"
  /\ List.length (Db.clicks (snd (fst result))) = 1%nat
  /\ map TrackingLink.clicks (Db.links (snd (fst result))) = [1].
Proof. repeat split; vm_compute; reflexivity. Qed.

(** ** The tracking call that answers with the click *)

Lemma or_null_twice (x : option string) : or_null (or_null x) = or_null x.
Proof. destruct x as [[|a s]|]; reflexivity. Qed.

(** The referer a body sends: its [referer] member, unless that is missing
    or stands for nothing ([null], [false], [0], the empty string). *)
Definition sent_referer (body : Json) : option Json :=
  match member "referer" body with
  | Some JNull | Some (JBool false) | Some (JString "") | None => None
  | Some (JNumber x) => if nonzero_number x then Some (JNumber x) else None
  | Some v => Some v
  end.

Section TrackingCall.
Import Geo.
Context `{Track.Redirects} `{TrackPost.Driver}.


End TrackingCall.

(** A driver for the examples: it refuses every value that is no string. *)
Definition strict_driver : TrackPost.Driver :=
  {| TrackPost.bound_referer := fun _ => Throw "SQLite3 can only bind strings here" |}.

Definition a_body_with_referer : Json :=
  JObject [("referer", JString "https://news.example/item")].


(** The body [null], and a body whose referer is a number, with that
    driver: both are answered 500, and no click is written. *)
Example POST_track_odd_bodies :
  fst (@TrackPost.POST strict_driver secondary_only store_with_active_link forwarded_headers
         "GMSYflrx" (Parsed JNull) fresh_world)
  = (TrackPost.Failed 500 "Failed to track click", store_with_active_link)
  /\ fst (@TrackPost.POST strict_driver secondary_only store_with_active_link
            forwarded_headers "GMSYflrx"
            (Parsed (JObject [("referer", JNumber 5)])) fresh_world)
     = (TrackPost.Failed 500 "Failed to track click", store_with_active_link).
Proof. split; vm_compute; reflexivity. Qed.

(* ================================================================== *)
(** * Part XVII. What a point of the map is labelled with               *)
(* ================================================================== *)

Section PointLabels.
Import Analytics.

(** The country a click brings to a new point. *)
Definition country_or_unknown (c : ClickEvent.t) : string :=
  match ClickEvent.country c with
  | Some (String _ _ as s) => s
  | _ => "Unknown"
  end.

Lemma In_Map_set {K V} `{KeyEq K} (m : list (K * V)) k v e :
  In e (Map_set m k v) -> e = (k, v) \/ In e m.
Proof.
  induction m as [|[k0 v0] m IH]; cbn.
  - intros [<-|[]]. left. reflexivity.
  - key_cases k0 k; cbn.
    + subst k0. intros [<-|I]; auto.
    + intros [<-|I]; auto. destruct (IH I); auto.
Qed.

Lemma location_key_truthy c lat lon :
  location_key c = Some (lat, lon) ->
  ClickEvent.latitude c = Some lat /\ ClickEvent.longitude c = Some lon
  /\ truthy_number lat = true /\ truthy_number lon = true.
Proof.
  unfold location_key.
  destruct (ClickEvent.latitude c) as [la|]; [|discriminate].
  destruct (ClickEvent.longitude c) as [lo|]; [|discriminate].
  destruct (truthy_number la) eqn:Ta; [|discriminate].
  destruct (truthy_number lo) eqn:To; [|discriminate].
  cbn. intros E. inversion E; subst. auto.
Qed.

Lemma In_location_keys clicks k :
  In k (grouped_keys clicks) <-> exists c, In c clicks /\ location_key c = Some k.
Proof.
  unfold grouped_keys. rewrite in_flat_map. split.
  - intros [c [I Ik]]. exists c. split; [exact I|].
    destruct (location_key c) as [k'|]; [|destruct Ik].
    destruct Ik as [<-|[]]. reflexivity.
  - intros [c [I E]]. exists c. split; [exact I|]. rewrite E. left. reflexivity.
Qed.

(** An entry that grouping leaves in the map either was there before, with
    the country and the city it had, or is new and bears those of the first
    click at its coordinates. *)
Lemma group_location_labels clicks m e :
  In e (fold_left group_location clicks m) ->
  (exists e0, In e0 m /\ fst e0 = fst e
              /\ Location.country (snd e0) = Location.country (snd e)
              /\ Location.city (snd e0) = Location.city (snd e))
  \/ (Map_get m (fst e) = None
      /\ exists c, find (grouped_at (fst (fst e)) (snd (fst e))) clicks = Some c
                   /\ Location.country (snd e) = country_or_unknown c
                   /\ Location.city (snd e) = ClickEvent.city c).
Proof.
  revert m. induction clicks as [|c clicks IH]; intros m I; cbn [fold_left] in I.
  - left. exists e. auto.
  - destruct e as [[la lo] v]. cbn [fst snd] in *.
    cbn [find].
    change (grouped_at la lo c)
      with (match location_key c with Some k => keqb k (la, lo) | None => false end).
    destruct (IH _ I) as [[e0 [I0 [K0 [L1 L2]]]]|[N [c' F]]]; clear IH I.
    + unfold group_location in I0.
      destruct (location_key c) as [k|]; [|left; exists e0; auto].
      destruct (Map_get m k) as [existing|] eqn:G; apply In_Map_set in I0;
        destruct I0 as [->|I0]; try (left; exists e0; auto; fail).
      * left. exists (k, existing). cbn [fst snd] in *.
        split; [apply Map_get_In, G|]. auto.
      * right. cbn [fst snd] in *. subst k. rewrite keqb_refl.
        split; [exact G|]. exists c. split; [reflexivity|].
        split; [symmetry; exact L1|symmetry; exact L2].
    + right. unfold group_location in N.
      destruct (location_key c) as [k|]; [|split; [exact N|exists c'; exact F]].
      assert (N' : (if keqb k (la, lo) then Some v else Map_get m (la, lo)) = None).
      { destruct (Map_get m k) as [existing|]; rewrite Map_get_set in N;
          destruct (keqb k (la, lo)); try discriminate N; exact N. }
      destruct (keqb k (la, lo)); [discriminate N'|].
      split; [exact N'|exists c'; exact F].
Qed.

Lemma find_pointwise {A} (f g : A -> bool) (l : list A) :
  (forall x, f x = g x) -> find f l = find g l.
Proof.
  intros E. induction l as [|x l IH]; cbn; [reflexivity|].
  rewrite E, IH. reflexivity.
Qed.

(** X17.  The points of [calculateGeographicDistribution] come in the order
    in which their positions are first met in the click list, a position
    being a latitude and a longitude that are both present and neither 0
    nor NaN;
    so neither coordinate of a point is 0 or NaN, and a click placed at
    latitude 0 or longitude 0 (the placeholder of a failed lookup among
    them) is on no point.  A point bears the country (or "Unknown") and the
    city of the first click at its position, whatever later clicks there
    say; and the counts of the points add up to the number of clicks that
    carry a position. *)
Theorem calculateGeographicDistribution_first_click (clicks : list ClickEvent.t) :
  let points := calculateGeographicDistribution clicks in
  map MapDataPoint.coordinates points = map swap (distinct (positions clicks))
  /\ (forall p, In p points ->
        let lat := snd (MapDataPoint.coordinates p) in
        let lon := fst (MapDataPoint.coordinates p) in
        nonzero_number lat = true /\ nonzero_number lon = true
        /\ exists c, find (at_position lat lon) clicks = Some c
                     /\ ClickEvent.latitude c = Some lat
                     /\ ClickEvent.longitude c = Some lon
                     /\ MapDataPoint.country p = country_or_unknown c
                     /\ MapDataPoint.city p = ClickEvent.city c)
  /\ total (map MapDataPoint.clicks points)
     = List.length (filter (fun c => match position c with
                                     | Some _ => true
                                     | None => false
                                     end) clicks)
  /\ (forall c, In c clicks ->
        (ClickEvent.latitude c = None \/ ClickEvent.longitude c = None
         \/ ClickEvent.latitude c = Some 0%float
         \/ ClickEvent.longitude c = Some 0%float) ->
        position c = None).
Proof.
  intros points.
  set (m := fold_left group_location clicks []).
  pose proof (group_location_counts clicks []) as Counts. fold m in Counts.
  cbn [map_values map] in Counts.
  pose proof (group_location_coordinates clicks [] (Forall_nil _)) as Coords. fold m in Coords.
  assert (Keys : map fst m = distinct (grouped_keys clicks)).
  { rewrite <- tally_keys_distinct, <- Counts. unfold map_values. rewrite map_map.
    reflexivity. }
  split; [|split; [|split]].
  - rewrite <- grouped_keys_positions, <- Keys.
    unfold points, calculateGeographicDistribution. fold m.
    rewrite !map_map. apply map_ext_in. intros e I.
    rewrite Forall_forall in Coords. apply (Coords e I).
  - intros p Ip. unfold points, calculateGeographicDistribution in Ip. fold m in Ip.
    apply in_map_iff in Ip. destruct Ip as [[[la lo] v] [<- Ie]].
    cbn [MapDataPoint.coordinates MapDataPoint.country MapDataPoint.city snd].
    rewrite Forall_forall in Coords. pose proof (Coords _ Ie) as Cv.
    cbn [fst snd] in Cv. rewrite Cv. cbn [fst snd].
    assert (Ik : In (la, lo) (grouped_keys clicks)).
    { apply (proj1 (distinct_In _ _)). rewrite <- Keys.
      apply (in_map fst) in Ie. exact Ie. }
    apply In_location_keys in Ik. destruct Ik as [c0 [_ Lk]].
    apply location_key_truthy in Lk. destruct Lk as [_ [_ [Ta To]]].
    rewrite truthy_number_nonzero in Ta, To.
    split; [exact Ta|]. split; [exact To|].
    destruct (group_location_labels clicks [] _ Ie) as [[e0 [[] _]]|[_ [c [F L]]]].
    cbn [fst snd] in F. exists c.
    rewrite (find_pointwise (at_position la lo) (grouped_at la lo)).
    2:{ intros x. unfold at_position, grouped_at. rewrite location_key_position.
        reflexivity. }
    split; [exact F|].
    apply find_some in F. destruct F as [_ F]. unfold grouped_at in F.
    destruct (location_key c) as [k|] eqn:Lk; [|discriminate F].
    apply keqb_spec in F. subst k. apply location_key_truthy in Lk.
    destruct Lk as [La [Lo _]]. auto.
  - unfold points, calculateGeographicDistribution. fold m. rewrite map_map.
    cbn [MapDataPoint.clicks].
    transitivity (total (map snd (map_values Location.clicks m))).
    { unfold map_values. rewrite map_map. reflexivity. }
    rewrite Counts, tally_total, grouped_keys_positions. cbn [total fold_right map].
    clear. unfold positions.
    induction clicks as [|c clicks IH]; cbn [flat_map filter List.length]; [reflexivity|].
    rewrite length_app. destruct (position c); cbn [List.length]; lia.
  - intros c _ Z. unfold position.
    destruct (ClickEvent.latitude c) as [lat|]; [|reflexivity].
    destruct (ClickEvent.longitude c) as [lon|]; [|reflexivity].
    destruct Z as [Z|[Z|[Z|Z]]]; try discriminate Z; inversion Z; subst.
    + reflexivity.
    + destruct (nonzero_number lat); reflexivity.
Qed.

(** Three clicks: one at (51.5, -0.1) from France, one on the equator, and
    one more at (51.5, -0.1) that names another country. *)
Example calculateGeographicDistribution_labels :
  let at_place country lat lon :=
    ClickEvent.mk 1 1 "198.51.100.7" None None (Some country) None None None
      (Some lat) (Some lon) None None 1000 in
  map (fun p => (MapDataPoint.coordinates p, MapDataPoint.country p, MapDataPoint.clicks p))
      (calculateGeographicDistribution
         [at_place "France" 51.5%float (-0.1)%float;
          at_place "Gabon" 0%float 9.5%float;
          at_place "Spain" 51.5%float (-0.1)%float])
  = [((-0.1, 51.5)%float, "France", 2%nat)].
Proof. vm_compute. reflexivity. Qed.

End PointLabels.

(* ================================================================== *)
(** * Part XVIII. Browsers, devices and operating systems               *)
(* ================================================================== *)

(** ** What [includes] and [toLowerCase] mean *)

Lemma startsWith_spec (p s : string) :
  startsWith p s = true <-> exists t, s = (p ++ t)%string.
Proof.
  revert s. induction p as [|a p IH]; intros s; cbn.
  - split; [intros _; exists s; reflexivity|reflexivity].
  - destruct s as [|b s].
    + split; [discriminate|intros [t E]; discriminate E].
    + rewrite andb_true_iff, IH. split.
      * intros [E [t ->]]. apply Ascii.eqb_eq in E. subst b. exists t. reflexivity.
      * intros [t E]. inversion E; subst. split; [apply Ascii.eqb_refl|exists t; reflexivity].
Qed.

Lemma includes_spec (s w : string) :
  includes s w = true <-> exists pre post, s = (pre ++ w ++ post)%string.
Proof.
  induction s as [|a s IH]; cbn [includes]; rewrite orb_true_iff, startsWith_spec.
  - split.
    + intros [[t E]|F]; [|discriminate F]. exists ""%string, t. exact E.
    + intros [pre [post E]]. left. destruct pre as [|b pre]; [|discriminate E].
      exists post. exact E.
  - rewrite IH. split.
    + intros [[t E]|[pre [post E]]].
      * exists ""%string, t. exact E.
      * exists (String a pre), post. cbn. rewrite E. reflexivity.
    + intros [[|b pre] [post E]].
      * left. exists post. exact E.
      * right. inversion E; subst. exists pre, post. reflexivity.
Qed.

Lemma toLowerCase_app (a b : string) :
  toLowerCase (a ++ b) = (toLowerCase a ++ toLowerCase b)%string.
Proof. induction a as [|x a IH]; cbn; [reflexivity|]. rewrite IH. reflexivity. Qed.

Lemma toLowerCase_split (s a b : string) :
  toLowerCase s = (a ++ b)%string ->
  exists a' b', s = (a' ++ b')%string /\ toLowerCase a' = a /\ toLowerCase b' = b.
Proof.
  revert s. induction a as [|x a IH]; intros s E.
  - exists ""%string, s. auto.
  - destruct s as [|y s]; [discriminate E|]. cbn in E. inversion E as [[Ex Es]].
    destruct (IH _ Es) as [a' [b' [-> [<- <-]]]].
    exists (String y a'), b'. auto.
Qed.

(** The user agent holds the word, in whatever letter case. *)
Definition mentions (userAgent word : string) : Prop :=
  exists pre mid post,
    userAgent = (pre ++ mid ++ post)%string /\ toLowerCase mid = word.

Lemma includes_mentions (userAgent word : string) :
  includes (toLowerCase userAgent) word = true <-> mentions userAgent word.
Proof.
  rewrite includes_spec. unfold mentions. split.
  - intros [pre [post E]]. apply toLowerCase_split in E.
    destruct E as [pre' [rest [-> [_ R]]]]. apply toLowerCase_split in R.
    destruct R as [mid [post' [-> [M _]]]]. exists pre', mid, post'. auto.
  - intros [pre [mid [post [-> <-]]]].
    exists (toLowerCase pre), (toLowerCase post). rewrite !toLowerCase_app. reflexivity.
Qed.

Section UserAgents.
Import Analytics.

(** X18.  What [parseUserAgent] reports, by the words the user agent holds
    in any letter case: the operating-system tests run in the order
    windows, mac os, linux, android, so a user agent that holds "linux" is
    never Android and one that holds "mac os" is never iOS; Chrome is
    reported for "chrome" without "edg", Edge for "edg" without "firefox"
    unless "safari" comes without "chrome", and Mobile wins over Tablet. *)
Theorem parseUserAgent_precedence (userAgent : string) :
  let agent := parseUserAgent userAgent in
  let holds := mentions userAgent in
  (os agent = "Windows" <-> holds "windows")
  /\ (os agent = "macOS" <-> holds "mac os" /\ ~ holds "windows")
  /\ (os agent = "Linux" <-> holds "linux" /\ ~ holds "mac os" /\ ~ holds "windows")
  /\ (os agent = "Android"
      <-> holds "android" /\ ~ holds "linux" /\ ~ holds "mac os" /\ ~ holds "windows")
  /\ (os agent = "iOS" -> ~ holds "mac os" /\ ~ holds "android")
  /\ (browser agent = "Chrome" <-> holds "chrome" /\ ~ holds "edg")
  /\ (browser agent = "Edge"
      <-> holds "edg" /\ ~ holds "firefox" /\ (holds "safari" -> holds "chrome"))
  /\ (device agent = "Mobile" <-> holds "mobile")
  /\ (device agent = "Tablet" <-> (holds "tablet" \/ holds "ipad") /\ ~ holds "mobile").
Proof.
  intros agent holds. unfold agent, holds, parseUserAgent. cbn [os browser device].
  assert (OS :
    forall w m l a i1 i2 i3 : bool,
      let name := if w then "Windows" else if m then "macOS" else if l then "Linux"
                  else if a then "Android" else if i1 || i2 || i3 then "iOS"
                  else "Unknown" in
      (name = "Windows" <-> w = true)
      /\ (name = "macOS" <-> m = true /\ w = false)
      /\ (name = "Linux" <-> l = true /\ m = false /\ w = false)
      /\ (name = "Android" <-> a = true /\ l = false /\ m = false /\ w = false)
      /\ (name = "iOS" -> m = false /\ a = false)).
  { intros [|] [|] [|] [|] [|] [|] [|]; cbn; repeat split; intros;
      try reflexivity; try discriminate; try (intuition discriminate). }
  assert (Browser :
    forall c e f s o : bool,
      let name := if c && negb e then "Chrome" else if f then "Firefox"
                  else if s && negb c then "Safari" else if e then "Edge"
                  else if o then "Opera" else "Unknown" in
      (name = "Chrome" <-> c = true /\ e = false)
      /\ (name = "Edge" <-> e = true /\ f = false /\ (s = true -> c = true))).
  { intros [|] [|] [|] [|] [|]; cbn; repeat split; intros;
      try reflexivity; try discriminate; try (intuition discriminate). }
  assert (Device :
    forall mo t p : bool,
      let name := if mo then "Mobile" else if t || p then "Tablet" else "Desktop" in
      (name = "Mobile" <-> mo = true)
      /\ (name = "Tablet" <-> (t = true \/ p = true) /\ mo = false)).
  { intros [|] [|] [|]; cbn; repeat split; intros;
      try reflexivity; try discriminate; try (intuition discriminate). }
  assert (T : forall w, includes (toLowerCase userAgent) w = true <-> mentions userAgent w)
    by (intros w; apply includes_mentions).
  assert (N : forall w, includes (toLowerCase userAgent) w = false <-> ~ mentions userAgent w).
  { intros w. rewrite <- T. destruct (includes _ w); split; intros; congruence. }
  rewrite <- !N, <- !T.
  match goal with
  | |- context [if includes ?u "windows" then _ else _] =>
      specialize (OS (includes u "windows") (includes u "mac os") (includes u "linux")
                     (includes u "android") (includes u "ios") (includes u "iphone")
                     (includes u "ipad"));
      specialize (Browser (includes u "chrome") (includes u "edg") (includes u "firefox")
                          (includes u "safari") (includes u "opera"));
      specialize (Device (includes u "mobile") (includes u "tablet") (includes u "ipad"))
  end.
  cbn zeta in OS, Browser, Device.
  destruct OS as [O1 [O2 [O3 [O4 O5]]]]. destruct Browser as [B1 B2].
  destruct Device as [D1 D2].
  repeat (split; [assumption|]). assumption.
Qed.

End UserAgents.

(** ** The three breakdowns *)

Section Breakdowns.
Import Analytics.

(** [createStats] of the tally of [names], for [n] clicks. *)
Definition stats (n : nat) (names : list string) : list Share.t :=
  map (share_of n) (sort_desc count_key (tally [] names)).

(** [shares] breaks [names] down: one entry for every name that occurs,
    with the number of its occurrences and that number's share of all the
    names, rounded to 2 decimal places; larger counts first, equal counts in
    the order in which the names are first met; the counts add up to the
    number of names. *)
Definition breakdown (names : list string) (shares : list Share.t) : Prop :=
  StronglySorted (ranks_before names) shares
  /\ Permutation (map Share.name shares) (distinct names)
  /\ (forall e, In e shares ->
        Share.clicks e = occurrences (Share.name e) names
        /\ Share.percentage e
           = (Math_round (Number_of_nat (Share.clicks e)
                          / Number_of_nat (List.length names) * 100 * 100) / 100)%float)
  /\ total (map Share.clicks shares) = List.length names.

Lemma stats_breakdown (names : list string) :
  breakdown names (stats (List.length names) names).
Proof.
  unfold breakdown, stats. split; [|split; [|split]].
  - apply StronglySorted_map.
    assert (S : StronglySorted
                  (fun a b => (first_index (fst a) names < first_index (fst b) names)%nat)
                  (tally [] names)).
    { apply StronglySorted_unmap
        with (R := fun a b => (first_index a names < first_index b names)%nat).
      rewrite tally_keys_distinct. apply distinct_first_index. }
    apply (sort_desc_ranked count_key) in S.
    revert S. apply StronglySorted_weaken.
    intros a b _ _. unfold ranked, ranks_before, count_key, share_of. cbn. lia.
  - rewrite map_map. cbn [share_of Share.name].
    rewrite <- tally_keys_distinct. apply Permutation_map, sort_desc_perm.
  - intros e I. apply in_map_iff in I. destruct I as [[r n] [<- I]].
    apply sort_desc_In, tally_entry in I. destruct I as [N Ir]. cbn.
    split; [exact N|]. unfold percentage.
    destruct (Nat.ltb_spec 0 (List.length names)) as [_|Z]; [reflexivity|].
    destruct names; [destruct Ir|cbn in Z; lia].
  - rewrite map_map. cbn [share_of Share.clicks].
    rewrite (total_perm _ (map snd (tally [] names))).
    + rewrite tally_total. reflexivity.
    + apply Permutation_map, sort_desc_perm.
Qed.

Definition browser_names : list string :=
  ["Chrome"; "Firefox"; "Safari"; "Edge"; "Opera"; "Unknown"].
Definition device_names : list string := ["Mobile"; "Tablet"; "Desktop"; "Unknown"].
Definition os_names : list string :=
  ["Windows"; "macOS"; "Linux"; "Android"; "iOS"; "Unknown"].

Lemma agent_of_names (c : ClickEvent.t) :
  In (browser (agent_of c)) browser_names
  /\ In (device (agent_of c)) device_names
  /\ In (os (agent_of c)) os_names.
Proof.
  unfold agent_of. destruct (ClickEvent.user_agent c) as [[|a ua]|];
    try (cbn; tauto).
  unfold parseUserAgent. cbn [browser device os]. split; [|split].
  - generalize (includes (toLowerCase (String a ua)) "chrome"),
      (includes (toLowerCase (String a ua)) "edg"),
      (includes (toLowerCase (String a ua)) "firefox"),
      (includes (toLowerCase (String a ua)) "safari"),
      (includes (toLowerCase (String a ua)) "opera").
    intros [|] [|] [|] [|] [|]; cbn; tauto.
  - generalize (includes (toLowerCase (String a ua)) "mobile"),
      (includes (toLowerCase (String a ua)) "tablet"),
      (includes (toLowerCase (String a ua)) "ipad").
    intros [|] [|] [|]; cbn; tauto.
  - generalize (includes (toLowerCase (String a ua)) "windows"),
      (includes (toLowerCase (String a ua)) "mac os"),
      (includes (toLowerCase (String a ua)) "linux"),
      (includes (toLowerCase (String a ua)) "android"),
      (includes (toLowerCase (String a ua)) "ios"),
      (includes (toLowerCase (String a ua)) "iphone"),
      (includes (toLowerCase (String a ua)) "ipad").
    intros [|] [|] [|] [|] [|] [|] [|]; cbn; tauto.
Qed.

Lemma breakdown_within (names vocabulary : list string) (shares : list Share.t) :
  breakdown names shares ->
  incl names vocabulary ->
  incl (map Share.name shares) vocabulary
  /\ (List.length shares <= List.length vocabulary)%nat.
Proof.
  intros [_ [P _]] I.
  assert (J : incl (map Share.name shares) vocabulary).
  { intros x Ix. apply I. apply (proj1 (distinct_In _ _)).
    apply (Permutation_in _ P), Ix. }
  split; [exact J|]. rewrite <- (length_map Share.name).
  apply NoDup_incl_length; [|exact J].
  apply (Permutation_NoDup (Permutation_sym P)), distinct_NoDup.
Qed.

(** What a click reads as, under one of the three [field]s of a parsed user
    agent: "Unknown" when the click has no user agent or an empty one, and
    else that field of [parseUserAgent] of its user agent. *)
Definition reading (field : UserAgent -> string) (c : ClickEvent.t) : string :=
  match ClickEvent.user_agent c with
  | None => "Unknown"
  | Some ua => if String.eqb ua "" then "Unknown" else field (parseUserAgent ua)
  end.

Lemma agent_of_reading (c : ClickEvent.t) :
  browser (agent_of c) = reading browser c
  /\ device (agent_of c) = reading device c
  /\ os (agent_of c) = reading os c.
Proof.
  unfold agent_of, reading.
  destruct (ClickEvent.user_agent c) as [[|a ua]|]; cbn; auto.
Qed.

Lemma reading_names (c : ClickEvent.t) :
  In (reading browser c) browser_names
  /\ In (reading device c) device_names
  /\ In (reading os c) os_names.
Proof.
  destruct (agent_of_reading c) as [<- [<- <-]]. apply agent_of_names.
Qed.

(** X19.  Each of the three lists of [calculateDeviceStats] breaks all the
    clicks down by one reading of their user agents: the browser, the
    device or the operating system that [parseUserAgent] reports for the
    click's user agent, and "Unknown" (for the device too, which
    [parseUserAgent] itself never reports) for a click with no user agent
    or an empty one.  Every value that occurs has one entry, with the
    number of clicks that read so and its rounded share; entries are in
    descending order of count, equal counts in first-met order; the counts
    of a list add up to the number of clicks; and the names are among six
    browsers, four device kinds and six operating systems. *)
Theorem calculateDeviceStats_breakdowns (clicks : list ClickEvent.t) :
  let result := calculateDeviceStats clicks in
  (breakdown (map (reading browser) clicks) (browsers result)
   /\ total (map Share.clicks (browsers result)) = List.length clicks
   /\ incl (map Share.name (browsers result)) browser_names
   /\ (List.length (browsers result) <= 6)%nat)
  /\ (breakdown (map (reading device) clicks) (devices result)
      /\ total (map Share.clicks (devices result)) = List.length clicks
      /\ incl (map Share.name (devices result)) device_names
      /\ (List.length (devices result) <= 4)%nat)
  /\ (breakdown (map (reading os) clicks) (operatingSystems result)
      /\ total (map Share.clicks (operatingSystems result)) = List.length clicks
      /\ incl (map Share.name (operatingSystems result)) os_names
      /\ (List.length (operatingSystems result) <= 6)%nat).
Proof.
  intros result.
  assert (A : forall (field : UserAgent -> string) vocabulary,
            (forall c, field (agent_of c) = reading field c) ->
            (forall c, In (reading field c) vocabulary) ->
            let shares := stats (List.length clicks) (map field (map agent_of clicks)) in
            breakdown (map (reading field) clicks) shares
            /\ total (map Share.clicks shares) = List.length clicks
            /\ incl (map Share.name shares) vocabulary
            /\ (List.length shares <= List.length vocabulary)%nat).
  { intros field vocabulary R V shares.
    assert (E : map field (map agent_of clicks) = map (reading field) clicks).
    { rewrite map_map. apply map_ext. exact R. }
    unfold shares. rewrite E. clear shares E.
    assert (L : List.length (map (reading field) clicks) = List.length clicks)
      by apply length_map.
    assert (B : breakdown (map (reading field) clicks)
                  (stats (List.length clicks) (map (reading field) clicks)))
      by (rewrite <- L at 1; apply stats_breakdown).
    split; [exact B|]. split.
    - destruct B as [_ [_ [_ T]]]. rewrite T. exact L.
    - apply (breakdown_within (map (reading field) clicks)); [exact B|].
      intros x Ix. apply in_map_iff in Ix. destruct Ix as [c [<- _]]. apply V. }
  split; [|split].
  - apply (A browser browser_names); intros c;
      [apply agent_of_reading|apply reading_names].
  - apply (A device device_names); intros c;
      [apply agent_of_reading|apply reading_names].
  - apply (A os os_names); intros c;
      [apply agent_of_reading|apply reading_names].
Qed.

(** Four clicks: two from Chrome on Windows, one from an iPad, one with no
    user agent. *)
Example calculateDeviceStats_four_clicks :
  let from agent :=
    ClickEvent.mk 1 1 "198.51.100.7" agent None None None None None None None None None
      1000 in
  let names shares := map (fun e => (Share.name e, Share.clicks e, Share.percentage e)) shares in
  let result :=
    calculateDeviceStats
      [from (Some "Mozilla/5.0 (iPad; CPU OS 17_0 like Mac OS X) Safari/604.1");
       from (Some "Mozilla/5.0 (Windows NT 10.0) Chrome/120.0 Safari/537.36");
       from None;
       from (Some "Mozilla/5.0 (Windows NT 10.0) Chrome/120.0 Safari/537.36")] in
  names (browsers result)
  = [("Chrome", 2%nat, 50%float); ("Safari", 1%nat, 25%float); ("Unknown", 1%nat, 25%float)]
  /\ names (devices result)
     = [("Desktop", 2%nat, 50%float); ("Tablet", 1%nat, 25%float); ("Unknown", 1%nat, 25%float)]
  /\ names (operatingSystems result)
     = [("Windows", 2%nat, 50%float); ("macOS", 1%nat, 25%float); ("Unknown", 1%nat, 25%float)].
Proof. vm_compute. repeat split. Qed.

End Breakdowns.

(* ================================================================== *)
(** * Part XIX. The summary's counts and leaders                        *)
(* ================================================================== *)

Section Leaders.
Import Analytics.
Context `{Platform}.

(** [top] leads [names]: nothing when there are none; otherwise a name
    that occurs no less often than any other, and that is met before any
    other name occurring as often. *)
Definition leads (names : list string) (top : option string) : Prop :=
  match top with
  | None => names = []
  | Some k =>
      In k names
      /\ forall k', In k' names -> k' <> k ->
           (occurrences k' names < occurrences k names)%nat
           \/ (occurrences k' names = occurrences k names
               /\ (first_index k names < first_index k' names)%nat)
  end.

Lemma top_leads (names : list string) : leads names (top (tally [] names)).
Proof.
  unfold top, leads.
  assert (S : StronglySorted
                (ranked count_key
                   (fun a b => (first_index (fst a) names < first_index (fst b) names)%nat))
                (sort_desc count_key (tally [] names))).
  { apply sort_desc_ranked.
    apply StronglySorted_unmap
      with (R := fun a b => (first_index a names < first_index b names)%nat).
    rewrite tally_keys_distinct. apply distinct_first_index. }
  pose proof (fun z => sort_desc_In count_key (tally [] names) z) as In_sorted.
  destruct (sort_desc count_key (tally [] names)) as [|[k n] rest].
  - destruct names as [|k names]; [reflexivity|]. exfalso.
    assert (I : In k (map fst (tally [] (k :: names)))).
    { rewrite tally_keys_distinct. apply distinct_In. left. reflexivity. }
    apply in_map_iff in I. destruct I as [e [_ I]]. apply In_sorted in I. exact I.
  - cbn [fst].
    destruct (tally_entry names k n (proj1 (In_sorted _) (or_introl eq_refl))) as [N Ik].
    split; [exact Ik|]. intros k' Ik' D.
    assert (I : In k' (map fst (tally [] names))).
    { rewrite tally_keys_distinct. apply distinct_In. exact Ik'. }
    apply in_map_iff in I. destruct I as [[k0 n'] [E I]]. cbn in E. subst k0.
    destruct (tally_entry names k' n' I) as [N' _].
    apply In_sorted in I. destruct I as [E|I]; [inversion E; congruence|].
    inversion S as [|? ? _ F]; subst. rewrite Forall_forall in F.
    specialize (F _ I). unfold ranked, count_key in F. cbn [fst snd] in F. lia.
Qed.

(** The names the clicks bear in one [field], in click order: a click
    whose field is absent or the empty string bears none. *)
Definition borne (field : ClickEvent.t -> option string) (clicks : list ClickEvent.t)
    : list string :=
  fold_right (fun c names =>
                match field c with
                | Some name => if String.eqb name "" then names else name :: names
                | None => names
                end) [] clicks.

Definition bears_none (field : ClickEvent.t -> option string) (c : ClickEvent.t) : Prop :=
  field c = None \/ field c = Some ""%string.

Lemma present_borne (field : ClickEvent.t -> option string) (clicks : list ClickEvent.t) :
  present field clicks = borne field clicks.
Proof.
  unfold present, borne. induction clicks as [|c clicks IH]; cbn; [reflexivity|].
  rewrite IH. destruct (field c) as [[|a name]|]; reflexivity.
Qed.

Lemma borne_nil (field : ClickEvent.t -> option string) (clicks : list ClickEvent.t) :
  borne field clicks = [] <-> forall c, In c clicks -> bears_none field c.
Proof.
  unfold bears_none. induction clicks as [|c clicks IH]; cbn.
  - split; [intros _ c []|reflexivity].
  - destruct (field c) as [[|a name]|] eqn:F; cbn.
    + rewrite IH. split.
      * intros N c' [<-|I]; [right; exact F|apply N, I].
      * intros N c' I. apply N. right. exact I.
    + split; [discriminate|]. intros N.
      destruct (N c (or_introl eq_refl)) as [E|E]; rewrite F in E; discriminate E.
    + rewrite IH. split.
      * intros N c' [<-|I]; [left; exact F|apply N, I].
      * intros N c' I. apply N. right. exact I.
Qed.

Lemma borne_In (field : ClickEvent.t -> option string) (clicks : list ClickEvent.t)
    (name : string) :
  In name (borne field clicks)
  <-> name <> ""%string /\ exists c, In c clicks /\ field c = Some name.
Proof.
  induction clicks as [|c clicks IH]; cbn.
  - split; [intros []|intros [_ [c [[] _]]]].
  - destruct (field c) as [[|a n]|] eqn:F; cbn; rewrite ?IH.
    + split.
      * intros [D [c' [I E]]]. split; [exact D|]. exists c'. auto.
      * intros [D [c' [[<-|I] E]]].
        -- rewrite F in E. inversion E. congruence.
        -- split; [exact D|]. exists c'. auto.
    + split.
      * intros [<-|[D [c' [I E]]]].
        -- split; [discriminate|]. exists c. auto.
        -- split; [exact D|]. exists c'. auto.
      * intros [D [c' [[<-|I] E]]].
        -- left. rewrite F in E. inversion E. reflexivity.
        -- right. split; [exact D|]. exists c'. auto.
    + split.
      * intros [D [c' [I E]]]. split; [exact D|]. exists c'. auto.
      * intros [D [c' [[<-|I] E]]].
        -- rewrite F in E. discriminate E.
        -- split; [exact D|]. exists c'. auto.
Qed.

Lemma leads_borne (field : ClickEvent.t -> option string) (clicks : list ClickEvent.t)
    (top : option string) :
  leads (borne field clicks) top ->
  (top = None <-> forall c, In c clicks -> bears_none field c)
  /\ (forall name, top = Some name ->
        name <> ""%string /\ exists c, In c clicks /\ field c = Some name).
Proof.
  intros L. split.
  - rewrite <- borne_nil. destruct top as [k|]; cbn in L.
    + split; [discriminate|]. intros E. rewrite E in L. destruct L as [[] _].
    + split; auto.
  - intros name ->. cbn in L. apply borne_In, L.
Qed.

(** X20.  In the summary, [totalClicks] is the number of clicks and
    [uniqueClicks] the number of different addresses among them (at least
    1 when there is a click, at most all of them); [topCountry] is the
    country most clicks bear, the one met first in the list among equals,
    a click with no country or with the empty string for one bearing none;
    it is absent exactly when no click bears a country, and is otherwise
    the non-empty country of some click; likewise [topCity]. *)
Theorem generateAnalyticsSummary_leaders (now : Z) (clicks : list ClickEvent.t) :
  let result := generateAnalyticsSummary now clicks in
  totalClicks result = List.length clicks
  /\ uniqueClicks result = List.length (distinct (map ClickEvent.ip_address clicks))
  /\ (uniqueClicks result <= totalClicks result)%nat
  /\ (uniqueClicks result = 0%nat <-> clicks = [])
  /\ (forall ip, In ip (map ClickEvent.ip_address clicks)
                 <-> In ip (distinct (map ClickEvent.ip_address clicks)))
  /\ NoDup (distinct (map ClickEvent.ip_address clicks))
  /\ (leads (borne ClickEvent.country clicks) (topCountry result)
      /\ (topCountry result = None
          <-> forall c, In c clicks -> bears_none ClickEvent.country c)
      /\ (forall name, topCountry result = Some name ->
            name <> ""%string
            /\ exists c, In c clicks /\ ClickEvent.country c = Some name))
  /\ (leads (borne ClickEvent.city clicks) (topCity result)
      /\ (topCity result = None
          <-> forall c, In c clicks -> bears_none ClickEvent.city c)
      /\ (forall name, topCity result = Some name ->
            name <> ""%string
            /\ exists c, In c clicks /\ ClickEvent.city c = Some name)).
Proof.
  intros result. unfold result, generateAnalyticsSummary.
  cbn [totalClicks uniqueClicks topCountry topCity].
  split; [reflexivity|]. split; [reflexivity|]. split.
  { etransitivity; [apply distinct_length|]. rewrite length_map. apply le_n. }
  split.
  { destruct clicks as [|c clicks]; cbn; split; try reflexivity; discriminate. }
  split; [intros ip; symmetry; apply distinct_In|].
  split; [apply distinct_NoDup|].
  rewrite !present_borne.
  split.
  - split; [apply top_leads|]. apply leads_borne, top_leads.
  - split; [apply top_leads|]. apply leads_borne, top_leads.
Qed.

End Leaders.

(** Five clicks from three addresses: Spain, nowhere, France, France and
    Spain, the second with the empty string for a country. *)
Definition five_countries : list ClickEvent.t :=
  map (fun e => ClickEvent.mk (fst (fst e)) 1 (snd (fst e)) None None (fst (snd e)) None None
                  (snd (snd e)) None None None None 1000)
      [((1, "198.51.100.7"), (Some "Spain", Some "Madrid"));
       ((2, "198.51.100.8"), (Some "", None));
       ((3, "198.51.100.7"), (Some "France", Some "Paris"));
       ((4, "198.51.100.9"), (Some "France", Some "Lyon"));
       ((5, "198.51.100.7"), (Some "Spain", Some "Lyon"))]%string.

Lemma generateAnalyticsSummary_leaders_witness :
  let result := @Analytics.generateAnalyticsSummary example_host 5000 five_countries in
  (Analytics.totalClicks result = 5%nat
   /\ Analytics.uniqueClicks result = 3%nat
   /\ Analytics.topCountry result = Some "Spain"%string
   /\ Analytics.topCity result = Some "Lyon"%string)
  /\ leads (borne ClickEvent.country five_countries) (Analytics.topCountry result)
  /\ leads (borne ClickEvent.city five_countries) (Analytics.topCity result).
Proof.
  split; [vm_compute; repeat split|].
  pose proof (@generateAnalyticsSummary_leaders example_host 5000 five_countries) as L.
  cbv zeta in L. split; [apply L|apply L].
Defined.

(* ================================================================== *)
(** * Part XX. The link handlers                                        *)
(* ================================================================== *)

Lemma find_map_other {A} (p : A -> bool) (f : A -> A) (l : list A) :
  (forall x, p (f x) = p x) ->
  (forall x, p x = true -> f x = x) ->
  find p (map f l) = find p l.
Proof.
  intros P F. induction l as [|x l IH]; cbn; [reflexivity|].
  rewrite P. destruct (p x) eqn:Px; [rewrite (F x Px); reflexivity|exact IH].
Qed.

Section LinkHandlers.
Import Db.

(** ** What a body asks for *)

(** A value that can stand for a title or a description: none, [null], or
    a string. *)
Definition is_text (x : option Json) : bool :=
  match x with
  | None | Some JNull | Some (JString _) => true
  | Some _ => false
  end.

(** The text a body gives for a title or a description: the string,
    trimmed, unless nothing is left of it. *)
Definition new_text (x : option Json) : option string :=
  match x with
  | Some (JString s) => if String.eqb (trim s) "" then None else Some (trim s)
  | _ => None
  end.

(** What a body says of [active]: nothing when it has no such member, and
    else whether the member stands for something ([null], [false], [0],
    [NaN] and the empty string do not). *)
Definition new_active (body : Json) : option bool :=
  match member "active" body with
  | None => None
  | Some JNull => Some false
  | Some (JBool b) => Some b
  | Some (JNumber x) => Some (nonzero_number x)
  | Some (JString s) => Some (negb (String.eqb s ""))
  | Some (JArray _) | Some (JObject _) => Some true
  end.

(** The body names one of the three fields. *)
Definition names_a_field (body : Json) : Prop :=
  member "title" body <> None
  \/ member "description" body <> None
  \/ member "active" body <> None.

Lemma names_no_field_spec (body : Json) :
  LinkRoute.names_no_field body = false <-> names_a_field body.
Proof.
  unfold LinkRoute.names_no_field, names_a_field.
  destruct (member "title" body), (member "description" body), (member "active" body);
    split; intros N; try reflexivity; try discriminate N;
    try (left; discriminate); try (right; left; discriminate);
    try (right; right; discriminate).
  destruct N as [N|[N|N]]; congruence.
Qed.

Lemma optional_trim_text (x : option Json) :
  is_text x = true -> optional_trim x = Return (new_text x).
Proof.
  destruct x as [[| | |s| |]|]; cbn; intros T; try discriminate T; try reflexivity.
  destruct (trim s) as [|a t]; reflexivity.
Qed.

Lemma optional_trim_no_text (x : option Json) :
  is_text x = false -> exists m, optional_trim x = Throw m.
Proof.
  destruct x as [[| | |s| |]|]; cbn; intros T; try discriminate T; eexists; reflexivity.
Qed.

Lemma active_of_new_active (body : Json) : LinkRoute.active_of body = new_active body.
Proof.
  unfold LinkRoute.active_of, new_active.
  destruct (member "active" body) as [[|b|x|s|items|members]|]; cbn; try reflexivity.
  - rewrite truthy_number_nonzero. reflexivity.
  - destruct s; reflexivity.
Qed.

Lemma new_text_not_empty (x : option Json) (t : string) :
  new_text x = Some t -> t <> ""%string.
Proof.
  destruct x as [[| | |s| |]|]; cbn; try discriminate.
  destruct (String.eqb_spec (trim s) ""); [discriminate|]. congruence.
Qed.

(** ** An update of a link that is there *)

Lemma updateLink_existing db now linkId old data :
  getLinkById db linkId = Some old ->
  let result := updateLink db linkId data now in
  let db' := snd result in
  exists updated,
    fst result = Some updated
    /\ getLinkById db' linkId = Some updated
    /\ updated = (if no_updates data then old else apply_update data now old)
    /\ (no_updates data = true -> db' = db)
    /\ clicks db' = clicks db
    /\ (forall j, j <> linkId -> getLinkById db' j = getLinkById db j).
Proof.
  intros G. cbn zeta. unfold updateLink.
  destruct (no_updates data) eqn:NE.
  - rewrite G. cbn [fst snd]. exists old. repeat split; auto.
  - set (f := fun l => if TrackingLink.id l =? linkId then apply_update data now l else l).
    assert (Fid : forall j x, (TrackingLink.id (f x) =? j) = (TrackingLink.id x =? j))
      by (intros j x; unfold f; destruct (TrackingLink.id x =? linkId); reflexivity).
    assert (G' : getLinkById
                   (mkDatabase (map f (links db)) (clicks db) (links_seq db) (clicks_seq db))
                   linkId = Some (apply_update data now old)).
    { unfold getLinkById. cbn [links]. rewrite find_map_same by (apply Fid).
      unfold getLinkById in G. rewrite G. cbn. unfold f.
      apply find_some in G. destruct G as [_ E]. rewrite E. reflexivity. }
    rewrite G'. cbn [fst snd]. exists (apply_update data now old).
    split; [reflexivity|]. split; [exact G'|].
    split; [reflexivity|]. split; [discriminate|]. split; [reflexivity|].
    intros j D. unfold getLinkById. cbn [links]. apply find_map_other; [apply Fid|].
    intros x E. unfold f. apply Z.eqb_eq in E.
    destruct (Z.eqb_spec (TrackingLink.id x) linkId); [congruence|reflexivity].
Qed.


(** A body that blanks the title, gives no description and has [null] for
    [active]. *)
Definition a_blank_title : Json :=
  JObject [("title", JString "   "); ("active", JNull)]%string.


(** The status of an answer of the link handlers. *)
Definition status (r : LinkRoute.HttpResponse) : Z :=
  match r with
  | LinkRoute.Rejected s _ => s
  | LinkRoute.Found _ | LinkRoute.Updated _ | LinkRoute.Deleted => 200
  end.

(** The request has a body to read fields from: it parses, and not to
    [null]. *)
Definition readable (request : JsonBody Json) : bool :=
  match request with
  | Malformed _ | Parsed JNull => false
  | Parsed _ => true
  end.

(** The body, when it parses, names one of the three fields. *)
Definition names_one (request : JsonBody Json) : bool :=
  match request with
  | Malformed _ => false
  | Parsed body =>
      match member "title" body, member "description" body, member "active" body with
      | None, None, None => false
      | _, _, _ => true
      end
  end.

(** The body's title and description, where it has them, are strings or
    [null]. *)
Definition texts (request : JsonBody Json) : bool :=
  match request with
  | Malformed _ => true
  | Parsed body => is_text (member "title" body) && is_text (member "description" body)
  end.

Lemma PUT_with_body db now linkId body :
  body <> JNull ->
  let put :=
    if LinkRoute.names_no_field body
    then (LinkRoute.Rejected 400 "At least one field must be provided for update", db)
    else
      match getLinkById db linkId with
      | None => (LinkRoute.Rejected 404 "Link not found", db)
      | Some _ =>
          match optional_trim (member "title" body),
                optional_trim (member "description" body) with
          | Return title, Return description =>
              match updateLink db linkId
                      (UpdateLinkRequest.mk title description (LinkRoute.active_of body))
                      now with
              | (Some updatedLink, db') => (LinkRoute.Updated updatedLink, db')
              | (None, db') => (LinkRoute.Rejected 500 "Failed to update link", db')
              end
          | _, _ => (LinkRoute.Rejected 500 "Failed to update link", db)
          end
      end in
  let named := match getLinkById db linkId with Some _ => true | None => false end in
  let request := Parsed body in
  In (status (fst put)) [200; 400; 404; 500]
  /\ (status (fst put) = 200
      <-> named = true /\ names_one request = true /\ texts request = true)
  /\ (status (fst put) = 500
      <-> named = true /\ names_one request = true /\ texts request = false)
  /\ (status (fst put) = 400 <-> names_one request = false)
  /\ (status (fst put) = 200 \/ snd put = db).
Proof.
  intros _. cbn zeta. cbn [names_one texts].
  assert (NN : LinkRoute.names_no_field body
               = negb match member "title" body, member "description" body,
                            member "active" body with
                      | None, None, None => false
                      | _, _, _ => true
                      end).
  { unfold LinkRoute.names_no_field.
    destruct (member "title" body), (member "description" body), (member "active" body);
      reflexivity. }
  rewrite NN.
  destruct (match member "title" body, member "description" body, member "active" body with
            | None, None, None => false
            | _, _, _ => true
            end); cbn [negb].
  2:{ cbn. repeat split; intros; try discriminate; try tauto; intuition discriminate. }
  destruct (getLinkById db linkId) as [old|] eqn:G.
  2:{ cbn. repeat split; intros; try discriminate; try tauto; intuition discriminate. }
  destruct (is_text (member "title" body)) eqn:Tt.
  - rewrite (optional_trim_text _ Tt).
    destruct (is_text (member "description" body)) eqn:Td.
    + rewrite (optional_trim_text _ Td).
      destruct (updateLink_existing db now linkId old
                  (UpdateLinkRequest.mk (new_text (member "title" body))
                     (new_text (member "description" body)) (LinkRoute.active_of body)) G)
        as [updated [F _]].
      destruct (updateLink db linkId _ now) as [[u|] db'];
        cbn in F; [|discriminate F].
      cbn. repeat split; intros; try discriminate; try tauto; intuition discriminate.
    + destruct (optional_trim_no_text _ Td) as [m ->].
      cbn. repeat split; intros; try discriminate; try tauto; intuition discriminate.
  - destruct (optional_trim_no_text _ Tt) as [m ->].
    cbn. repeat split; intros; try discriminate; try tauto; intuition discriminate.
Qed.

Lemma DELETE_with_id db linkId :
  let delete :=
    match getLinkById db linkId with
    | None => (LinkRoute.Rejected 404 "Link not found", db)
    | Some _ =>
        match deleteLink db linkId with
        | (true, db') => (LinkRoute.Deleted, db')
        | (false, db') => (LinkRoute.Rejected 500 "Failed to delete link", db')
        end
    end in
  let named := match getLinkById db linkId with Some _ => true | None => false end in
  In (status (fst delete)) [200; 400; 404]
  /\ (status (fst delete) = 200 <-> named = true)
  /\ (status (fst delete) = 200 \/ snd delete = db)
  /\ (status (fst delete) = 200 ->
      status match getLinkById (snd delete) linkId with
             | None => LinkRoute.Rejected 404 "Link not found"
             | Some link => LinkRoute.Found link
             end = 404).
Proof.
  assert (Gone : getLinkById (snd (deleteLink db linkId)) linkId = None).
  { unfold deleteLink, getLinkById. cbn [snd links].
    induction (links db) as [|l ls IH]; cbn; [reflexivity|].
    destruct (TrackingLink.id l =? linkId) eqn:E; cbn; [exact IH|]. rewrite E. exact IH. }
  cbn zeta. destruct (getLinkById db linkId) as [old|] eqn:G.
  - assert (Ex : existsb (fun l => TrackingLink.id l =? linkId) (links db) = true).
    { apply find_some in G. apply existsb_exists. exists old. exact G. }
    assert (D : deleteLink db linkId = (true, snd (deleteLink db linkId))).
    { unfold deleteLink. rewrite Ex. reflexivity. }
    rewrite D. cbn [fst snd]. rewrite Gone. cbn. intuition discriminate.
  - cbn. intuition discriminate.
Qed.


(** Bodies that end in the [catch], and one with a number for [active]. *)
Example PUT_link_odd_bodies :
  let old := TrackingLink.mk 1 "GMSYflrx" "https://example.com" (Some "Home") None
               1000 1000 0 true in
  let db := mkDatabase [old] [] 1 0 in
  let put body := LinkRoute.PUT db 3000 "1" (Parsed body) in
  put JNull = (LinkRoute.Rejected 500 "Failed to update link", db)
  /\ put (JObject [("title", JNumber 5)]%string)
     = (LinkRoute.Rejected 500 "Failed to update link", db)
  /\ put (JObject [("title", JNull)]%string) = (LinkRoute.Updated old, db)
  /\ put (JObject [])
     = (LinkRoute.Rejected 400 "At least one field must be provided for update", db)
  /\ LinkRoute.PUT db 3000 "1" (Malformed "Unexpected end of JSON input")
     = (LinkRoute.Rejected 500 "Failed to update link", db)
  /\ LinkRoute.PUT db 3000 "x" (Malformed "Unexpected end of JSON input")
     = (LinkRoute.Rejected 400 "Invalid link ID", db)
  /\ LinkRoute.PUT db 3000 "2" (Parsed (JObject [("title", JNumber 5)]%string))
     = (LinkRoute.Rejected 404 "Link not found", db)
  /\ fst (put (JObject [("active", JNumber 0)]%string))
     = LinkRoute.Updated
         (TrackingLink.mk 1 "GMSYflrx" "https://example.com" (Some "Home") None
            1000 3000 0 false).
Proof. repeat split; vm_compute; reflexivity. Qed.

End LinkHandlers.

Section CreateHandler.
Import Db Analytics.
Context `{Platform}.

Lemma code_char_no_space (a : ascii) : LinksRoute.code_char a = true -> no_space a = true.
Proof.
  destruct a as [[|] [|] [|] [|] [|] [|] [|] [|]]; vm_compute; intros E;
    first [reflexivity | discriminate E].
Qed.

(** X23.  What [POST /api/links] answers, for a body that parses.  A
    rejection (400, 409 or 500) leaves the store as it was.  A created link
    is the one row added to the store: its destination is the body's
    [original_url], which is not empty and parses as a URL; it is active,
    has no clicks, and its title and description are the body's, trimmed,
    or absent when those are blank; its code is borne by no other row; and
    a custom code of the body is taken as it is, has 3 to 20 characters and
    only letters, digits, hyphens and underscores. *)
Theorem POST_link_created db now randoms body response db' :
  LinksRoute.POST db now randoms (Parsed body) = Some (response, db') ->
  match response with
  | LinksRoute.Rejected s _ => In s [400; 409; 500] /\ db' = db
  | LinksRoute.Created link =>
      links db' = links db ++ [link]
      /\ clicks db' = clicks db
      /\ (exists host, URL_hostname (TrackingLink.original_url link) = Some host)
      /\ LinksRoute.original_url body = Some (TrackingLink.original_url link)
      /\ TrackingLink.original_url link <> ""
      /\ TrackingLink.id link = links_seq db + 1
      /\ TrackingLink.clicks link = 0
      /\ TrackingLink.active link = true
      /\ TrackingLink.created_at link = now
      /\ TrackingLink.title link = trimmed (LinksRoute.title body)
      /\ TrackingLink.description link = trimmed (LinksRoute.description body)
      /\ ~ In (TrackingLink.short_code link) (map TrackingLink.short_code (links db))
      /\ match LinksRoute.custom_code body with
         | Some (String _ _ as code) =>
             TrackingLink.short_code link = code
             /\ (3 <= String.length code <= 20)%nat
             /\ LinksRoute.all_chars LinksRoute.code_char code = true
         | _ => True
         end
  end.
Proof.
  unfold LinksRoute.POST.
  destruct (LinksRoute.original_url body) as [[|a url]|] eqn:U;
    try (intros E; inversion E; subst; cbn; auto; fail).
  destruct (URL_hostname (String a url)) as [host|] eqn:Host;
    [|intros E; inversion E; subst; cbn; auto].
  set (invalid := match LinksRoute.custom_code body with
                  | Some (String _ _ as code) => _
                  | _ => None
                  end).
  destruct invalid as [error|] eqn:V; [intros E; inversion E; subst; cbn; auto|].
  destruct (createLink db _ now randoms) as [[newLink db1]|m|] eqn:C;
    [| |discriminate].
  2:{ intros E. inversion E; subst. unfold LinksRoute.answer_error.
      destruct (includes m _); cbn; auto. }
  intros E. injection E as E1 E2. subst response db'.
  assert (Custom :
    match LinksRoute.custom_code body with
    | Some (String _ _ as code) =>
        trimmed (LinksRoute.custom_code body) = Some code
        /\ (3 <= String.length code <= 20)%nat
        /\ LinksRoute.all_chars LinksRoute.code_char code = true
    | _ => True
    end).
  { unfold invalid in V. clear C.
    destruct (LinksRoute.custom_code body) as [[|c code]|]; [exact I| |exact I].
    destruct ((String.length (String c code) <? 3)%nat) eqn:L3; [discriminate V|].
    destruct ((20 <? String.length (String c code))%nat) eqn:L20; [discriminate V|].
    cbn [orb] in V.
    destruct (LinksRoute.code_pattern (String c code)) eqn:Pt; [|discriminate V].
    apply Nat.ltb_ge in L3, L20. unfold LinksRoute.code_pattern in Pt.
    split; [|split; [lia|exact Pt]].
    unfold trimmed. cbn [option_map].
    rewrite trim_no_space; [reflexivity|].
    apply (all_chars_weaken LinksRoute.code_char); [exact code_char_no_space|exact Pt]. }
  apply createLink_inserted in C. destruct C as [code [Er [Ed [Ex [_ Cu]]]]].
  cbn [CreateLinkRequest.original_url CreateLinkRequest.title
       CreateLinkRequest.description CreateLinkRequest.custom_code] in Er, Cu.
  unfold trimmed in Er at 1 2. rewrite !or_null_twice in Er.
  fold (trimmed (LinksRoute.title body)) in Er.
  fold (trimmed (LinksRoute.description body)) in Er.
  rewrite Ed, Er. clear Ed Er. cbn [links clicks TrackingLink.original_url TrackingLink.id
                       TrackingLink.clicks TrackingLink.active TrackingLink.created_at
                       TrackingLink.title TrackingLink.description
                       TrackingLink.short_code].
  rewrite Host.
  repeat (split; [first [reflexivity | discriminate | eexists; reflexivity]|]).
  split.
  - intros Ic. apply in_map_iff in Ic. destruct Ic as [l [El Il]].
    assert (T : existsb (fun l => String.eqb (TrackingLink.short_code l) code) (links db)
                = true).
    { apply existsb_exists. exists l. split; [exact Il|]. apply String.eqb_eq, El. }
    rewrite T in Ex. discriminate Ex.
  - destruct (LinksRoute.custom_code body) as [[|c custom]|]; [exact I| |exact I].
    destruct Custom as [T Rest]. rewrite T in Cu. split; [exact Cu|exact Rest].
Qed.

End CreateHandler.

(** A host whose [URL] takes what starts with "https://". *)
Definition https_host : Analytics.Platform :=
  {| Analytics.URL_hostname :=
       fun url => if startsWith "https://" url then Some (drop 8 url) else None;
     Analytics.Date_getHours := fun t => (t / 3600000) mod 24;
     Analytics.Date_getDay := fun t => (t / 86400000 + 4) mod 7 |}.

Definition a_custom_link : TrackingLink.t :=
  TrackingLink.mk 1 "my-code" "https://example.com" (Some "Home") None 1000 1000 0 true.

Lemma POST_link_created_witness :
  let body :=
    LinksRoute.mkBody (Some "https://example.com") (Some "  Home ") (Some "   ")
      (Some "my-code") in
  let db' := Db.mkDatabase [a_custom_link] [] 1 0 in
  Db.links db' = Db.links Db.empty ++ [a_custom_link]
  /\ Db.clicks db' = Db.clicks Db.empty
  /\ (exists host,
        @Analytics.URL_hostname https_host (TrackingLink.original_url a_custom_link)
        = Some host)
  /\ LinksRoute.original_url body = Some (TrackingLink.original_url a_custom_link)
  /\ TrackingLink.original_url a_custom_link <> ""
  /\ TrackingLink.id a_custom_link = Db.links_seq Db.empty + 1
  /\ TrackingLink.clicks a_custom_link = 0
  /\ TrackingLink.active a_custom_link = true
  /\ TrackingLink.created_at a_custom_link = 1000
  /\ TrackingLink.title a_custom_link = trimmed (LinksRoute.title body)
  /\ TrackingLink.description a_custom_link = trimmed (LinksRoute.description body)
  /\ ~ In (TrackingLink.short_code a_custom_link)
          (map TrackingLink.short_code (Db.links Db.empty))
  /\ (TrackingLink.short_code a_custom_link = "my-code"
      /\ (3 <= String.length "my-code" <= 20)%nat
      /\ LinksRoute.all_chars LinksRoute.code_char "my-code" = true).
Proof.
  apply (@POST_link_created https_host Db.empty 1000 []
           (LinksRoute.mkBody (Some "https://example.com") (Some "  Home ") (Some "   ")
              (Some "my-code"))
           (LinksRoute.Created a_custom_link) (Db.mkDatabase [a_custom_link] [] 1 0)).
  vm_compute. reflexivity.
Defined.

(* ================================================================== *)
(** * Part XXI. The totals of a link's analytics                        *)
(* ================================================================== *)

Section AnalyticsTotals.
Import Db.

(** X24.  In a consistent store, the analytics of a link agree with the
    link's own counter: [totalClicks] is the counter of the link returned;
    [uniqueClicks] is the number of different addresses among the link's
    clicks, between 1 and [totalClicks] when there is a click; and
    [recentClicks] holds the link's clicks alone, all of them when there
    are at most 20 and 20 of them otherwise. *)
Theorem getLinkAnalytics_totals db linkId analytics :
  consistent db ->
  getLinkAnalytics db linkId = Some analytics ->
  TrackingLink.id (link analytics) = linkId
  /\ Z.of_nat (totalClicks analytics) = TrackingLink.clicks (link analytics)
  /\ totalClicks analytics = List.length (click_log db linkId)
  /\ uniqueClicks analytics
     = List.length (distinct (map ClickEvent.ip_address (click_log db linkId)))
  /\ (uniqueClicks analytics <= totalClicks analytics)%nat
  /\ (uniqueClicks analytics = 0%nat <-> totalClicks analytics = 0%nat)
  /\ List.length (la_recentClicks analytics) = Nat.min 20 (totalClicks analytics)
  /\ Forall (fun c => ClickEvent.link_id c = linkId) (la_recentClicks analytics).
Proof.
  intros [_ [_ [_ [_ [_ [_ Cnt]]]]]]. unfold getLinkAnalytics.
  destruct (getLinkById db linkId) as [l|] eqn:G; [|discriminate].
  intros E. inversion E; subst analytics; clear E.
  cbn [link totalClicks uniqueClicks la_recentClicks]. fold (click_log db linkId).
  unfold getLinkById in G. apply find_some in G. destruct G as [Il El].
  apply Z.eqb_eq in El.
  split; [exact El|]. split.
  { rewrite Forall_forall in Cnt. rewrite (Cnt l Il), El. reflexivity. }
  split; [reflexivity|]. split; [reflexivity|]. split.
  { etransitivity; [apply distinct_length|]. rewrite length_map. apply le_n. }
  split.
  { destruct (click_log db linkId) as [|c cs]; cbn; split; try reflexivity; discriminate. }
  split.
  { unfold recentClicks. fold (click_log db linkId).
    rewrite length_firstn, sort_desc_length. reflexivity. }
  apply Forall_forall. intros c Ic. unfold recentClicks in Ic.
  assert (Ic' : In c (sort_desc ClickEvent.timestamp
                        (filter (fun c => ClickEvent.link_id c =? linkId) (clicks db)))).
  { rewrite <- (firstn_skipn 20). apply in_or_app. left. exact Ic. }
  apply sort_desc_In in Ic'. apply filter_In in Ic'.
  apply Z.eqb_eq, Ic'.
Qed.

Lemma consistent_link_with_21_clicks : consistent link_with_21_clicks.
Proof.
  unfold consistent, log_size, link_with_21_clicks.
  cbn [links clicks links_seq clicks_seq].
  set (rows := map _ (Analytics.upto 21)).
  assert (Ids : map ClickEvent.id rows = map (fun i => i + 1) (Analytics.upto 21)).
  { unfold rows. rewrite map_map. reflexivity. }
  assert (Mine : Forall (fun c => ClickEvent.link_id c = 1) rows).
  { unfold rows. apply Forall_map. apply Forall_forall. reflexivity. }
  split; [repeat constructor; intros []|].
  split; [repeat constructor; cbn; lia|].
  split; [repeat constructor; intros []|].
  split.
  { rewrite Ids. apply Injective_map_NoDup; [intros a b E; lia|apply upto_NoDup]. }
  split.
  { apply Forall_forall. intros c Ic. apply (in_map ClickEvent.id) in Ic.
    rewrite Ids in Ic. apply in_map_iff in Ic. destruct Ic as [i [<- Ii]].
    apply upto_In in Ii. lia. }
  split.
  { revert Mine. apply Forall_impl. intros c ->. left. reflexivity. }
  repeat constructor.
Qed.

Lemma getLinkAnalytics_totals_witness :
  exists analytics,
    getLinkAnalytics link_with_21_clicks 1 = Some analytics
    /\ TrackingLink.id (link analytics) = 1
    /\ Z.of_nat (totalClicks analytics) = TrackingLink.clicks (link analytics)
    /\ totalClicks analytics = List.length (click_log link_with_21_clicks 1)
    /\ uniqueClicks analytics
       = List.length (distinct (map ClickEvent.ip_address
                                  (click_log link_with_21_clicks 1)))
    /\ (uniqueClicks analytics <= totalClicks analytics)%nat
    /\ (uniqueClicks analytics = 0%nat <-> totalClicks analytics = 0%nat)
    /\ List.length (la_recentClicks analytics) = Nat.min 20 (totalClicks analytics)
    /\ Forall (fun c => ClickEvent.link_id c = 1) (la_recentClicks analytics).
Proof.
  eexists. split; [reflexivity|].
  apply (getLinkAnalytics_totals link_with_21_clicks 1 _ consistent_link_with_21_clicks).
  reflexivity.
Defined.

End AnalyticsTotals.

(* ================================================================== *)
(** * Part XXII. The dashboard's totals                                 *)
(* ================================================================== *)

Section DashboardTotals.
Import Db Dashboard.

Definition sumZ (zs : list Z) : Z := fold_right Z.add 0 zs.

Lemma sumZ_add {A} (f g : A -> Z) (l : list A) :
  sumZ (map (fun x => f x + g x) l) = sumZ (map f l) + sumZ (map g l).
Proof. unfold sumZ. induction l as [|x l IH]; cbn; [reflexivity|]. rewrite IH. lia. Qed.

Lemma sumZ_count {A} (p : A -> bool) (l : list A) :
  sumZ (map (fun x => if p x then 1 else 0) l) = Z.of_nat (List.length (filter p l)).
Proof.
  unfold sumZ. induction l as [|x l IH]; cbn [map fold_right filter]; [reflexivity|].
  rewrite IH. destruct (p x); cbn [List.length]; lia.
Qed.

(** The one link of an id that is in the table. *)
Lemma the_link (ls : list TrackingLink.t) (k : Z) :
  NoDup (map TrackingLink.id ls) ->
  In k (map TrackingLink.id ls) ->
  exists l, filter (fun l => k =? TrackingLink.id l) ls = [l]
            /\ find (fun l => TrackingLink.id l =? k) ls = Some l.
Proof.
  induction ls as [|x ls IH]; cbn [map In filter find]; [tauto|].
  intros ND I. inversion ND as [|? ? N ND']; subst.
  destruct (Z.eqb_spec k (TrackingLink.id x)) as [E|E].
  - exists x. rewrite <- E, Z.eqb_refl. split; [|reflexivity]. f_equal.
    apply filter_none. intros y Iy.
    apply Z.eqb_neq. intros E'. apply N. rewrite <- E, E'. apply in_map, Iy.
  - destruct I as [I|I]; [congruence|].
    destruct (IH ND' I) as [l [F G]]. exists l. split; [exact F|].
    destruct (Z.eqb_spec (TrackingLink.id x) k); [congruence|exact G].
Qed.

Lemma counters_add_up (ls : list TrackingLink.t) (cs : list ClickEvent.t) :
  NoDup (map TrackingLink.id ls) ->
  Forall (fun c => In (ClickEvent.link_id c) (map TrackingLink.id ls)) cs ->
  sumZ (map (fun l => Z.of_nat (List.length
                         (filter (fun c => ClickEvent.link_id c =? TrackingLink.id l) cs)))
            ls)
  = Z.of_nat (List.length cs).
Proof.
  intros ND. induction 1 as [|c cs Ic F IH].
  - cbn [filter List.length]. clear. unfold sumZ.
    induction ls as [|l ls IHl]; cbn; [reflexivity|exact IHl].
  - cbn [List.length]. rewrite Nat2Z.inj_succ, <- IH.
    transitivity
      (sumZ (map (fun l =>
                    Z.of_nat (List.length
                                (filter (fun c => ClickEvent.link_id c =? TrackingLink.id l) cs))
                    + (if ClickEvent.link_id c =? TrackingLink.id l then 1 else 0)) ls)).
    { f_equal. apply map_ext. intros l. cbn [filter].
      destruct (ClickEvent.link_id c =? TrackingLink.id l); cbn [List.length]; lia. }
    rewrite sumZ_add, sumZ_count.
    destruct (the_link ls _ ND Ic) as [l [E _]]. rewrite E. cbn. lia.
Qed.

Lemma joined_clicks db :
  consistent db ->
  map click (joined db) = clicks db
  /\ Forall (fun a => exists l,
                 getLinkById db (ClickEvent.link_id (click a)) = Some l
                 /\ title a = TrackingLink.title l
                 /\ short_code a = TrackingLink.short_code l) (joined db).
Proof.
  intros [Ids [_ [_ [_ [_ [Ref _]]]]]]. unfold joined, getLinkById.
  induction Ref as [|c cs Ic F IH]; cbn [flat_map]; [split; [reflexivity|constructor]|].
  destruct (the_link (links db) _ Ids Ic) as [l [E G]]. rewrite E. cbn [map app].
  destruct IH as [M A]. split; [cbn [click]; rewrite M; reflexivity|].
  constructor; [|exact A]. exists l. cbn. auto.
Qed.

Lemma StronglySorted_app_inv {A} (R : A -> A -> Prop) (a b : list A) :
  StronglySorted R (a ++ b) -> forall x y, In x a -> In y b -> R x y.
Proof.
  induction a as [|z a IH]; cbn; [tauto|].
  intros S x y [<-|Ix] Iy; inversion S as [|? ? S' F]; subst.
  - rewrite Forall_forall in F. apply F, in_or_app. right. exact Iy.
  - apply IH; assumption.
Qed.

(** Click [c1] was written after click [c2]: its row comes later in the
    table. *)
Definition written_after (db : Database) (c1 c2 : ClickEvent.t) : Prop :=
  exists pre mid post, clicks db = pre ++ c2 :: mid ++ c1 :: post.

(** Click [c1] is more recent than click [c2]: it bears a later time, or the
    same time and was written after it. *)
Definition more_recent (db : Database) (c1 c2 : ClickEvent.t) : Prop :=
  ClickEvent.timestamp c2 < ClickEvent.timestamp c1
  \/ (ClickEvent.timestamp c1 = ClickEvent.timestamp c2 /\ written_after db c1 c2).

Lemma rev_later_first {A} (l : list A) :
  StronglySorted (fun a b => exists pre mid post, l = pre ++ b :: mid ++ a :: post) (rev l).
Proof.
  induction l as [|x l IH] using rev_ind; [constructor|].
  rewrite rev_app_distr. cbn [rev app]. constructor.
  - revert IH. apply StronglySorted_weaken.
    intros a b _ _ [pre [mid [post E]]]. exists pre, mid, (post ++ [x]).
    rewrite E, <- !app_assoc. cbn. rewrite <- !app_assoc. reflexivity.
  - apply Forall_forall. intros b Ib. apply in_rev, in_split in Ib.
    destruct Ib as [pre [mid E]]. exists pre, mid, []. rewrite E, <- app_assoc.
    reflexivity.
Qed.

Lemma recent_rows_first db :
  map click (joined db) = clicks db ->
  StronglySorted (fun a b => more_recent db (click a) (click b))
    (sort_desc (fun a => ClickEvent.timestamp (click a)) (rev (joined db))).
Proof.
  intros JM.
  pose proof (sort_desc_ranked (fun a => ClickEvent.timestamp (click a)) _ _
                (rev_later_first (joined db))) as S.
  revert S. apply StronglySorted_weaken.
  intros a b _ _ [L|[E [pre [mid [post J]]]]]; [left; exact L|].
  right. split; [exact E|].
  exists (map click pre), (map click mid), (map click post).
  rewrite <- JM, J, !map_app. cbn [map]. rewrite map_app. reflexivity.
Qed.

(** X4.  On a consistent store the dashboard's totals agree with the
    links' own counters: [totalClicks] is the sum of the counters of all
    links.  [topPerformingLinks] are active links only, at most 5 (all of
    them when there are fewer), in descending order of counter, and no
    active link left out has a larger counter than one listed.
    [recentActivity] has a row for each of the 10 most recent clicks (for
    every click when there are fewer), the most recent first: a click is
    more recent than another when its time is later, or is the same and
    its row was written later; every click that is not listed is less
    recent than every one that is.  A row bears the title and the code of
    the link its click belongs to. *)
Theorem getDashboardStats_totals db :
  consistent db ->
  let stats := getDashboardStats db in
  Z.of_nat (totalClicks stats) = sumZ (map TrackingLink.clicks (links db))
  /\ (activeLinks stats <= totalLinks stats)%nat
  /\ List.length (topPerformingLinks stats) = Nat.min 5 (activeLinks stats)
  /\ Forall (fun l => In l (links db) /\ TrackingLink.active l = true)
            (topPerformingLinks stats)
  /\ StronglySorted (fun a b => TrackingLink.clicks b <= TrackingLink.clicks a)
                    (topPerformingLinks stats)
  /\ (forall l t, In l (links db) -> TrackingLink.active l = true ->
                  ~ In l (topPerformingLinks stats) ->
                  In t (topPerformingLinks stats) ->
                  TrackingLink.clicks l <= TrackingLink.clicks t)
  /\ List.length (recentActivity stats) = Nat.min 10 (totalClicks stats)
  /\ StronglySorted (fun a b => more_recent db (click a) (click b)) (recentActivity stats)
  /\ (forall c a, In c (clicks db) ->
                  ~ In c (map click (recentActivity stats)) ->
                  In a (recentActivity stats) ->
                  more_recent db (click a) c)
  /\ Forall (fun a => In (click a) (clicks db)
                      /\ exists l,
                           getLinkById db (ClickEvent.link_id (click a)) = Some l
                           /\ title a = TrackingLink.title l
                           /\ short_code a = TrackingLink.short_code l)
            (recentActivity stats).
Proof.
  intros C. pose proof (joined_clicks db C) as [JM JA].
  destruct C as [Ids [_ [_ [_ [_ [Ref Cnt]]]]]].
  cbn zeta. unfold getDashboardStats.
  cbn [totalLinks totalClicks activeLinks topPerformingLinks recentActivity].
  set (ranked_links := sort_desc TrackingLink.clicks (filter TrackingLink.active (links db))).
  pose proof (recent_rows_first db JM) as Recent.
  set (activity := sort_desc (fun a => ClickEvent.timestamp (click a)) (rev (joined db)))
    in *.
  split.
  { rewrite <- (counters_add_up (links db) (clicks db) Ids Ref).
    f_equal. apply map_ext_in. intros l Il.
    rewrite Forall_forall in Cnt. symmetry. apply (Cnt l Il). }
  split; [apply filter_length_le|].
  split.
  { rewrite length_firstn. unfold ranked_links. rewrite sort_desc_length. reflexivity. }
  split.
  { apply Forall_forall. intros l Il.
    assert (I : In l ranked_links).
    { rewrite <- (firstn_skipn 5). apply in_or_app. left. exact Il. }
    apply sort_desc_In, filter_In in I. exact I. }
  split; [apply StronglySorted_firstn, sort_desc_sorted|].
  split.
  { intros l t Il Al Nl It.
    assert (I : In l ranked_links) by (apply sort_desc_In, filter_In; auto).
    rewrite <- (firstn_skipn 5 ranked_links) in I. apply in_app_or in I.
    destruct I as [I|I]; [contradiction|].
    pose proof (sort_desc_sorted TrackingLink.clicks
                  (filter TrackingLink.active (links db))) as S.
    fold ranked_links in S. rewrite <- (firstn_skipn 5 ranked_links) in S.
    apply (StronglySorted_app_inv _ _ _ S t l It I). }
  split.
  { rewrite length_firstn. unfold activity. rewrite sort_desc_length, length_rev.
    rewrite <- JM, length_map. reflexivity. }
  split; [apply StronglySorted_firstn, Recent|].
  split.
  { intros c a Ic Nc Ia. rewrite <- JM in Ic. apply in_map_iff in Ic.
    destruct Ic as [a0 [<- I0]].
    assert (I : In a0 activity).
    { apply (sort_desc_In (fun a => ClickEvent.timestamp (click a))), in_rev.
      rewrite rev_involutive. exact I0. }
    rewrite <- (firstn_skipn 10 activity) in I. apply in_app_or in I.
    destruct I as [I|I]; [exfalso; apply Nc, in_map, I|].
    rewrite <- (firstn_skipn 10 activity) in Recent.
    apply (StronglySorted_app_inv _ _ _ Recent a a0 Ia I). }
  apply Forall_forall. intros a Ia.
  assert (I : In a (joined db)).
  { apply in_rev. apply (sort_desc_In (fun a => ClickEvent.timestamp (click a))).
    fold activity. rewrite <- (firstn_skipn 10). apply in_or_app. left. exact Ia. }
  split.
  - rewrite <- JM. apply in_map, I.
  - rewrite Forall_forall in JA. apply (JA a I).
Qed.

(** Twelve clicks of one link, written two at a time: clicks 1 and 2 at
    time 2000, clicks 3 and 4 at time 3000, and so on. *)
Definition link_with_12_clicks : Database :=
  mkDatabase
    [TrackingLink.mk 1 "GMSYflrx" "https://example.com" (Some "Home") None 1000 1000 12 true]
    (map (fun i => ClickEvent.mk (i + 1) 1 "198.51.100.7" None None None None None None None
                     None None None ((i + 2) / 2 * 1000 + 1000))
         (Analytics.upto 12))
    1 12.

Lemma consistent_link_with_12_clicks : consistent link_with_12_clicks.
Proof.
  unfold consistent, log_size. vm_compute links. vm_compute clicks.
  vm_compute links_seq. vm_compute clicks_seq. cbn [map TrackingLink.id
    TrackingLink.short_code TrackingLink.clicks ClickEvent.id ClickEvent.link_id].
  split; [repeat constructor; intros []|].
  split; [repeat constructor; cbn; lia|].
  split; [repeat constructor; intros []|].
  split; [repeat constructor; cbn; intuition discriminate|].
  split; [repeat constructor; cbn; lia|].
  split; [repeat constructor; cbn; auto|].
  repeat constructor.
Qed.

Lemma getDashboardStats_totals_witness :
  let db := link_with_12_clicks in
  let stats := getDashboardStats db in
  (totalClicks stats = 12%nat
   /\ map (fun a => (ClickEvent.id (click a), ClickEvent.timestamp (click a), short_code a))
          (recentActivity stats)
      = [(12, 7000, "GMSYflrx"); (11, 7000, "GMSYflrx"); (10, 6000, "GMSYflrx");
         (9, 6000, "GMSYflrx"); (8, 5000, "GMSYflrx"); (7, 5000, "GMSYflrx");
         (6, 4000, "GMSYflrx"); (5, 4000, "GMSYflrx"); (4, 3000, "GMSYflrx");
         (3, 3000, "GMSYflrx")]%string)
  /\ Z.of_nat (totalClicks stats) = sumZ (map TrackingLink.clicks (links db))
  /\ List.length (recentActivity stats) = Nat.min 10 (totalClicks stats)
  /\ StronglySorted (fun a b => more_recent db (click a) (click b)) (recentActivity stats)
  /\ (forall c a, In c (clicks db) ->
                  ~ In c (map click (recentActivity stats)) ->
                  In a (recentActivity stats) ->
                  more_recent db (click a) c).
Proof.
  split; [split; vm_compute; reflexivity|].
  pose proof (getDashboardStats_totals link_with_12_clicks consistent_link_with_12_clicks)
    as T.
  cbv zeta in T. destruct T as [T1 [_ [_ [_ [_ [_ [T2 [T3 [T4 _]]]]]]]]].
  split; [exact T1|]. split; [exact T2|]. split; [exact T3|exact T4].
Defined.

End DashboardTotals.
